(** * mlog++ back end: code generation, constant folding, postprocessing, linking

    A shallow embedding of the parts of the mlog++ compiler
    (MinekPo1/mlogpp) that turn an AST into Mindustry logic text:

    - [util.py]          [sanitize] and [Position];
    - [value.py]         the [Type] flag set, [Type.from_code] and the [Value]
                         classes;
    - [node_rewrite.py]  the [generate], [get] and [scope_rename] methods of
                         the AST nodes, [FunctionNode] among them;
    - [generator.py]     the temporaries, the passes [_precalc_optimize],
                         [_forward_use_optimize] and [_negative_optimize],
                         and [Generator.postprocess];
    - [linker.py]        [Linker.link].

    Python strings are modelled by [string] (one [ascii] per code point
    below 256), dictionaries by [gmap], exceptions by the [Raise] case of
    [result], Python floats by binary64 values of [SpecFloat]. *)

From Stdlib Require Import ZArith Ascii String List Bool Lia DecimalString.
From Stdlib Require Import Floats.SpecFloat.
From Stdlib Require DecimalZ.
From stdpp Require Import base option list strings gmap.

Local Open Scope Z_scope.


(* ===================================================================== *)
(** ** Exceptions and results *)
(* ===================================================================== *)

(** Bit sets of [value.Type]; the definitions follow in [Module Ty]. *)
Definition Type_ := N.

(** Modelled from the spec: [error.py] is not among the sources. The
    error kinds the nodes signal through [Error.*]; every one of them
    raises, and [incompatible_types] carries the type found and the type
    expected. *)
Inductive Error :=
| already_defined_var (name : string)
| incompatible_types (found expected : Type_)
| write_to_const (name : string)
| undefined_variable (name : string)
| undefined_function (name : string)
| invalid_arg_count (found expected : nat).

(** What a call can raise: a compile error of the compiler itself
    ([MlogError] through [Error.*], [gen_error] of the old generator), or
    an exception of the host language that nothing catches. *)
Inductive exn :=
| MlogError (e : Error)
| gen_error (msg : string)
| TypeError
| ZeroDivisionError
| OverflowError
| ValueError
| IndexError
| KeyError
| AttributeError.

Inductive result (A : Type) :=
| Ok (a : A)
| Raise (e : exn).
Arguments Ok {A} a.
Arguments Raise {A} e.

Global Instance result_ret : MRet result := fun A a => Ok a.
Global Instance result_bind : MBind result := fun A B k r =>
  match r with
  | Ok a => k a
  | Raise e => Raise e
  end.

Global Instance result_fmap : FMap result := fun A B f r =>
  match r with
  | Ok a => Ok (f a)
  | Raise e => Raise e
  end.

Definition is_compile_error (e : exn) : bool :=
  match e with
  | MlogError _ | gen_error _ => true
  | _ => false
  end.

(* ===================================================================== *)
(** ** Python [str] methods *)
(* ===================================================================== *)

Module PyStr.

Definition code (c : ascii) : N := N_of_ascii c.

Definition in_range (lo hi c : ascii) : bool :=
  (code lo <=? code c)%N && (code c <=? code hi)%N.

(** [str.isspace] on one character: TAB LF VT FF CR, FS GS RS US, the
    space, NEL (0x85) and NBSP (0xa0). *)
Definition isspace (c : ascii) : bool :=
  let n := code c in
  ((9 <=? n) && (n <=? 13) || (28 <=? n) && (n <=? 31)
   || (n =? 32) || (n =? 133) || (n =? 160))%N.

(** The line boundaries of [str.splitlines]: LF VT FF CR FS GS RS NEL. *)
Definition islinebreak (c : ascii) : bool :=
  let n := code c in
  ((10 <=? n) && (n <=? 13) || (28 <=? n) && (n <=? 30) || (n =? 133))%N.

Definition isdigit (c : ascii) : bool := in_range "0" "9" c.
Definition isalpha (c : ascii) : bool := in_range "a" "z" c || in_range "A" "Z" c.

Definition LF : ascii := "010"%char.
Definition CR : ascii := "013"%char.
Definition nl : string := String LF "".

(** [s.splitlines()]: CR LF counts as one boundary, and a boundary at the
    very end opens no further line. *)
Fixpoint splitlines (s : string) : list string :=
  match s with
  | "" => []
  | String c s' =>
      if islinebreak c then
        match s' with
        | String d s'' =>
            if Ascii.eqb c CR && Ascii.eqb d LF then "" :: splitlines s''
            else "" :: splitlines s'
        | "" => [""]
        end
      else
        match splitlines s' with
        | l :: ls => String c l :: ls
        | [] => [String c ""]
        end
  end.

(** [s.split()]: the maximal runs of characters that are not white space. *)
Fixpoint split (s : string) : list string :=
  match s with
  | "" => []
  | String c s' =>
      if isspace c then split s'
      else
        match s' with
        | "" => [String c ""]
        | String d _ =>
            if isspace d then String c "" :: split s'
            else
              match split s' with
              | w :: ws => String c w :: ws
              | [] => [String c ""]
              end
        end
  end.

(** [s.split(sep, maxsplit)] for a one-character separator: at most
    [maxsplit] cuts, empty pieces are kept. *)
Fixpoint split_on (sep : ascii) (maxsplit : nat) (s : string) : list string :=
  match maxsplit with
  | O => [s]
  | S n =>
      match s with
      | "" => [""]
      | String c s' =>
          if Ascii.eqb c sep then "" :: split_on sep n s'
          else
            match split_on sep maxsplit s' with
            | p :: ps => String c p :: ps
            | [] => [String c ""]
            end
      end
  end.

Fixpoint lstrip (s : string) : string :=
  match s with
  | String c s' => if isspace c then lstrip s' else s
  | "" => ""
  end.

Fixpoint rstrip (s : string) : string :=
  match s with
  | String c s' =>
      match rstrip s' with
      | "" => if isspace c then "" else String c ""
      | r => String c r
      end
  | "" => ""
  end.

Definition strip (s : string) : string := rstrip (lstrip s).

(** [sep.join(l)] *)
Fixpoint join (sep : string) (l : list string) : string :=
  match l with
  | [] => ""
  | [x] => x
  | x :: xs => x +:+ sep +:+ join sep xs
  end.

Fixpoint startswith (p s : string) : bool :=
  match p, s with
  | "", _ => true
  | String a p', String b s' => Ascii.eqb a b && startswith p' s'
  | String _ _, "" => false
  end.

(** [s[1:]] *)
Definition tail (s : string) : string :=
  match s with
  | String _ s' => s'
  | "" => ""
  end.

(** [s.removeprefix(p)] *)
Fixpoint removeprefix_aux (p s : string) : option string :=
  match p, s with
  | "", _ => Some s
  | String a p', String b s' =>
      if Ascii.eqb a b then removeprefix_aux p' s' else None
  | String _ _, "" => None
  end.
Definition removeprefix (p s : string) : string :=
  default s (removeprefix_aux p s).

(** [s] between double quotes *)
Definition quoted (s : string) : string :=
  String "034"%char (s +:+ String "034"%char "").

(** [s.split(sep)] *)
Definition split_all (sep : ascii) (s : string) : list string :=
  split_on sep (String.length s) s.

(** [c in s] for a character *)
Fixpoint contains (c : ascii) (s : string) : bool :=
  match s with
  | String d s' => Ascii.eqb c d || contains c s'
  | "" => false
  end.

(** [str(n)] for an [int] *)
Definition str_int (z : Z) : string := NilZero.string_of_int (Z.to_int z).
Definition str_nat (n : nat) : string := str_int (Z.of_nat n).

(** [int(s)] for a string of decimal digits *)
Definition digit_val (c : ascii) : Z := Z.of_N (code c) - 48.
Fixpoint int_digits_acc (acc : Z) (s : string) : Z :=
  match s with
  | String c s' => int_digits_acc (10 * acc + digit_val c) s'
  | "" => acc
  end.
Definition int_digits (s : string) : Z := int_digits_acc 0 s.

(** [l[-1]] and [l[:-1]] *)
Definition last_item {A} (l : list A) : result A :=
  match last l with
  | Some x => Ok x
  | None => Raise IndexError
  end.

(** [l[i]] for [i >= 0] *)
Definition item {A} (l : list A) (i : nat) : result A :=
  match l !! i with
  | Some x => Ok x
  | None => Raise IndexError
  end.

(** *** Vocabulary of the statements about texts *)

(** Every character of [s] satisfies [p]. *)
Fixpoint all (p : ascii -> bool) (s : string) : bool :=
  match s with
  | "" => true
  | String c s' => p c && all p s'
  end.

Definition first_char (s : string) : option ascii :=
  match s with
  | String c _ => Some c
  | "" => None
  end.

Fixpoint last_char (s : string) : option ascii :=
  match s with
  | "" => None
  | String c "" => Some c
  | String _ s' => last_char s'
  end.

Definition notspace (o : option ascii) : Prop :=
  match o with
  | Some c => isspace c = false
  | None => False
  end.

(** A line as the generator writes it: not empty, no white space at
    either end, no line break inside. *)
Definition clean (s : string) : Prop :=
  notspace (first_char s) /\ notspace (last_char s)
  /\ all (fun c => negb (islinebreak c)) s = true.

(** A word: not empty, no white space. *)
Definition word (s : string) : Prop :=
  s <> "" /\ all (fun c => negb (isspace c)) s = true.

Definition nobreaks (ls : list string) : Prop :=
  Forall (fun l => all (fun c => negb (islinebreak c)) l = true) ls.

(** The characters of [str(n)] *)
Definition isdigit_or_minus (c : ascii) : bool := isdigit c || Ascii.eqb c "-"%char.

(** The text in which a line feed follows every line. *)
Fixpoint unlines (ls : list string) : string :=
  match ls with
  | [] => ""
  | l :: ls' => l +:+ nl +:+ unlines ls'
  end.

End PyStr.

(* ===================================================================== *)
(** ** Regular expressions ([re.fullmatch]) *)
(* ===================================================================== *)

Module Re.

Inductive regex :=
| Nul                               (* matches nothing *)
| Eps                               (* the empty string *)
| Cls (p : ascii -> bool)           (* one character of a class *)
| Seq (r1 r2 : regex)
| Alt (r1 r2 : regex)
| Star (r : regex).

Definition Chr (c : ascii) : regex := Cls (Ascii.eqb c).
Definition Plus (r : regex) : regex := Seq r (Star r).
Definition Opt (r : regex) : regex := Alt r Eps.

Fixpoint Lit (s : string) : regex :=
  match s with
  | "" => Eps
  | String c s' => Seq (Chr c) (Lit s')
  end.

Fixpoint Seqs (l : list regex) : regex :=
  match l with
  | [] => Eps
  | [r] => r
  | r :: rs => Seq r (Seqs rs)
  end.

Fixpoint nullable (r : regex) : bool :=
  match r with
  | Nul => false
  | Eps => true
  | Cls _ => false
  | Seq r1 r2 => nullable r1 && nullable r2
  | Alt r1 r2 => nullable r1 || nullable r2
  | Star _ => true
  end.

Definition seq' (r1 r2 : regex) : regex :=
  match r1, r2 with
  | Nul, _ => Nul
  | _, Nul => Nul
  | Eps, _ => r2
  | _, _ => Seq r1 r2
  end.

Definition alt' (r1 r2 : regex) : regex :=
  match r1, r2 with
  | Nul, _ => r2
  | _, Nul => r1
  | _, _ => Alt r1 r2
  end.

(** Brzozowski derivative: the words [w] with [c w] in the language. *)
Fixpoint deriv (c : ascii) (r : regex) : regex :=
  match r with
  | Nul => Nul
  | Eps => Nul
  | Cls p => if p c then Eps else Nul
  | Seq r1 r2 =>
      if nullable r1 then alt' (seq' (deriv c r1) r2) (deriv c r2)
      else seq' (deriv c r1) r2
  | Alt r1 r2 => alt' (deriv c r1) (deriv c r2)
  | Star r1 => seq' (deriv c r1) (Star r1)
  end.

(** [r.fullmatch(s) is not None] *)
Fixpoint fullmatch (r : regex) (s : string) : bool :=
  match s with
  | "" => nullable r
  | String c s' => fullmatch (deriv c r) s'
  end.

(** The words of a pattern, for the statements about [fullmatch]. *)
Inductive matches : regex -> string -> Prop :=
| matches_Eps : matches Eps ""
| matches_Cls p c : p c = true -> matches (Cls p) (String c "")
| matches_Seq r1 r2 s1 s2 :
    matches r1 s1 -> matches r2 s2 -> matches (Seq r1 r2) (s1 +:+ s2)
| matches_Alt_l r1 r2 s : matches r1 s -> matches (Alt r1 r2) s
| matches_Alt_r r1 r2 s : matches r2 s -> matches (Alt r1 r2) s
| matches_Star_nil r : matches (Star r) ""
| matches_Star_app r s1 s2 :
    matches r s1 -> matches (Star r) s2 -> matches (Star r) (s1 +:+ s2).

End Re.

(* ===================================================================== *)
(** ** Python [float] and the values the folding functions return *)
(* ===================================================================== *)

Module PyFloat.
Import PyStr.

(** A Python [float] is an IEEE 754 binary64 number. *)
Definition float := spec_float.
Definition prec : Z := 53.
Definition emax : Z := 1024.

Definition add : float -> float -> float := SFadd prec emax.
Definition sub : float -> float -> float := SFsub prec emax.
Definition mul : float -> float -> float := SFmul prec emax.
Definition div : float -> float -> float := SFdiv prec emax.
Definition sqrt : float -> float := SFsqrt prec emax.
Definition eqb : float -> float -> bool := SFeqb.
Definition ltb : float -> float -> bool := SFltb.
Definition leb : float -> float -> bool := SFleb.

Definition zero : float := S754_zero false.
Definition one : float := SFone prec emax.
Definition half : float := div one (add one one).

(** The float nearest to [n / d] for integers [n >= 0], [d > 0] (ties to
    even). The quotient is rounded once, from the exact integers. *)
Definition of_ratio (n d : Z) : float :=
  match n, d with
  | Zpos p, Zpos q => div (S754_finite false p 0) (S754_finite false q 0)
  | _, _ => zero
  end.

(** [float(z)] for an [int] *)
Definition of_Z (z : Z) : float := binary_normalize prec emax z 0 false.

(** [float(s)] for a literal [digits] or [digits.digits]: the nearest
    float to the decimal number. *)
Definition of_literal (s : string) : float :=
  match split_on "." 1 s with
  | [i] => of_ratio (int_digits i) 1
  | i :: f :: _ => of_ratio (int_digits (i +:+ f)) (10 ^ Z.of_nat (String.length f))
  | [] => zero
  end.

Definition is_zero (x : float) : bool :=
  match x with S754_zero _ => true | _ => false end.
Definition is_nan (x : float) : bool :=
  match x with S754_nan => true | _ => false end.
Definition is_inf (x : float) : bool :=
  match x with S754_infinity _ => true | _ => false end.
Definition is_finite (x : float) : bool :=
  match x with S754_zero _ | S754_finite _ _ _ => true | _ => false end.
Definition sign (x : float) : bool :=
  match x with
  | S754_zero s | S754_infinity s | S754_finite s _ _ => s
  | S754_nan => false
  end.
Definition copysign (x y : float) : float :=
  if Bool.eqb (sign x) (sign y) then x else SFopp x.

(** [bool(x)] *)
Definition truthy (x : float) : bool := negb (is_zero x).

(** The integer part of a finite float, rounded towards zero, with
    whether the float is that integer. *)
Definition trunc (x : float) : Z * bool :=
  match x with
  | S754_finite s m e =>
      let z := if 0 <=? e then Z.shiftl (Zpos m) e else Z.shiftr (Zpos m) (- e) in
      let exact := if 0 <=? e then true else Zpos m =? Z.shiftl z (- e) in
      (if s then - z else z, exact)
  | _ => (0, true)
  end.

(** [int(x)] *)
Definition to_int (x : float) : result Z :=
  match x with
  | S754_nan => Raise ValueError
  | S754_infinity _ => Raise OverflowError
  | _ => Ok (fst (trunc x))
  end.

(** [math.floor(x)] and [math.ceil(x)], which return an [int] *)
Definition floor_int (x : float) : result Z :=
  z ← to_int x;
  Ok (if negb (snd (trunc x)) && sign x then z - 1 else z).
Definition ceil_int (x : float) : result Z :=
  z ← to_int x;
  Ok (if negb (snd (trunc x)) && negb (sign x) then z + 1 else z).

(** C's [floor], which returns a [double] *)
Definition floor (x : float) : float :=
  match x with
  | S754_finite s _ _ =>
      match floor_int x with
      | Ok 0 => S754_zero s
      | Ok z => of_Z z
      | Raise _ => x
      end
  | _ => x
  end.

(** C's [fmod]: the exact remainder, with the sign of [x] *)
Definition fmod (x y : float) : float :=
  match x, y with
  | S754_nan, _ | _, S754_nan => S754_nan
  | S754_infinity _, _ => S754_nan
  | _, S754_zero _ => S754_nan
  | _, S754_infinity _ => x
  | S754_zero _, _ => x
  | S754_finite sx mx ex, S754_finite _ my ey =>
      let e := Z.min ex ey in
      let r := Z.modulo (Z.shiftl (Zpos mx) (ex - e)) (Z.shiftl (Zpos my) (ey - e)) in
      binary_normalize prec emax (if sx then - r else r) e sx
  end.

(** [x / y] *)
Definition truediv (x y : float) : result float :=
  if eqb y zero then Raise ZeroDivisionError else Ok (div x y).

(** [x % y] ([float_rem] of CPython) *)
Definition rem (x y : float) : result float :=
  if eqb y zero then Raise ZeroDivisionError
  else
    let m := fmod x y in
    Ok (if is_zero m then copysign zero y
        else if negb (Bool.eqb (ltb y zero) (ltb m zero)) then add m y
        else m).

(** [x // y] ([float_floor_div] of CPython) *)
Definition floordiv (x y : float) : result float :=
  if eqb y zero then Raise ZeroDivisionError
  else
    let m := fmod x y in
    let d := div (sub x m) y in
    let d := if negb (is_zero m) && negb (Bool.eqb (ltb y zero) (ltb m zero))
             then sub d one else d in
    Ok (if is_zero d then copysign zero (div x y)
        else
          let f := floor d in
          if ltb half (sub d f) then add f one else f).

(** *** [repr(x)]: the shortest decimal string that reads back as [x] *)

(** [10^(k-1) <= n/d < 10^k] for [n/d >= 1]: the digits of the integer part. *)
Definition decpt_ge1 (n d : Z) : Z := Z.of_nat (String.length (str_int (n / d))).

(** For [0 < n/d < 1]: minus the number of zeros after the point. *)
Fixpoint decpt_lt1 (fuel : nat) (n d : Z) : Z :=
  match fuel with
  | O => 0
  | S fuel' => if d <=? 10 * n then 0 else decpt_lt1 fuel' (10 * n) d - 1
  end.

Definition decpt (n d : Z) : Z :=
  if d <=? n then decpt_ge1 n d else decpt_lt1 400 n d.

(** [c * 10^p] as a fraction *)
Definition scaled (c p : Z) : Z * Z :=
  if 0 <=? p then (c * 10 ^ p, 1) else (c, 10 ^ (- p)).

(** The [dg]-digit decimal(s) next to [n/d] that read back as [x]; of two,
    the nearer one, and the even one when [n/d] is half way. [k] is the
    position of the decimal point. *)
Definition candidate (x : float) (n d k : Z) (dg : Z) : option Z :=
  let '(sn, sd) := scaled n (dg - k) in
  let lo := sn / (sd * d) in
  let hi := lo + 1 in
  let back c := let '(cn, cd) := scaled c (k - dg) in
                match x, of_ratio cn cd with
                | S754_finite _ m e, S754_finite _ m' e' => (Pos.eqb m m') && (e =? e')
                | _, _ => false
                end in
  let nearer :=
    match 2 * sn ?= (2 * lo + 1) * (sd * d) with
    | Lt => lo
    | Gt => hi
    | Eq => if Z.even lo then lo else hi
    end in
  match back lo, back hi with
  | true, true => Some nearer
  | true, false => Some lo
  | false, true => Some hi
  | false, false => None
  end.

Fixpoint shortest (fuel : nat) (x : float) (n d k : Z) (dg : Z) : Z * Z :=
  match fuel with
  | O => (0, dg)
  | S fuel' =>
      match candidate x n d k dg with
      | Some c => (c, dg)
      | None => shortest fuel' x n d k (dg + 1)
      end
  end.

Fixpoint strip_zeros (fuel : nat) (c : Z) : Z :=
  match fuel with
  | O => c
  | S fuel' => if (c mod 10 =? 0) && negb (c =? 0) then strip_zeros fuel' (c / 10) else c
  end.

Fixpoint zeros (n : nat) : string :=
  match n with O => "" | S n' => "0" +:+ zeros n' end.

Fixpoint take (n : nat) (s : string) : string :=
  match n, s with
  | S n', String c s' => String c (take n' s')
  | _, _ => ""
  end.
Fixpoint drop (n : nat) (s : string) : string :=
  match n, s with
  | S n', String _ s' => drop n' s'
  | _, _ => s
  end.

(** The digits and the decimal point position of a positive finite float. *)
Definition digits_of (x : float) : string * Z :=
  match x with
  | S754_finite _ m e =>
      let '(n, d) := if 0 <=? e then (Z.shiftl (Zpos m) e, 1) else (Zpos m, Z.shiftl 1 (- e)) in
      let k := decpt n d in
      let '(c, dg) := shortest 17 x n d k 1 in
      (* a candidate 10^dg stands for the digit 1 one place higher *)
      let k := if c =? 10 ^ dg then k + 1 else k in
      (str_int (strip_zeros 20 c), k)
  | _ => ("0", 1)
  end.

(** [repr(x)], which is also [str(x)] *)
Definition repr (x : float) : string :=
  match x with
  | S754_nan => "nan"
  | S754_infinity s => if s then "-inf" else "inf"
  | S754_zero s => if s then "-0.0" else "0.0"
  | S754_finite s _ _ =>
      let '(ds, k) := digits_of x in
      let len := Z.of_nat (String.length ds) in
      let body :=
        if (k <=? -4) || (16 <? k) then
          let e := k - 1 in
          String.substring 0 1 ds
          +:+ (if 1 <? len then "." +:+ drop 1 ds else "")
          +:+ "e" +:+ (if e <? 0 then "-" else "+")
          +:+ (if Z.abs e <? 10 then "0" else "") +:+ str_int (Z.abs e)
        else if k <=? 0 then "0." +:+ zeros (Z.to_nat (- k)) +:+ ds
        else if len <=? k then ds +:+ zeros (Z.to_nat (k - len)) +:+ ".0"
        else take (Z.to_nat k) ds +:+ "." +:+ drop (Z.to_nat k) ds in
      (if s then "-" else "") +:+ body
  end.

End PyFloat.

(* ===================================================================== *)
(** ** [generator.py]: constant folding and postprocessing *)
(* ===================================================================== *)

(** Python dictionaries with few, fixed keys are association lists in
    source order. *)
Fixpoint dict_get {A} (d : list (string * A)) (k : string) : option A :=
  match d with
  | [] => None
  | (k', v) :: d' => if String.eqb k' k then Some v else dict_get d' k
  end.

(** What a folding function returns. Only [float_pow] on a negative base
    builds a complex number, whose value is not needed here. *)
Inductive pyobj :=
| PInt (z : Z)
| PFloat (f : PyFloat.float)
| PBool (b : bool)
| PComplex.

(** The three functions that [math.log], [math.log10] and [**] pass on to
    the C library, where they are specified only up to rounding. *)
Record Libm := {
  libm_pow : PyFloat.float -> PyFloat.float -> PyFloat.float;
  libm_log : PyFloat.float -> PyFloat.float;
  libm_log10 : PyFloat.float -> PyFloat.float
}.

Module Generator.
Import PyStr PyFloat Re.

(** *** [GEN_REGEXES] (the entries the two passes use) *)
Module GEN_REGEXES.
Definition underscore : ascii := "_"%char.
Definition at_sign : ascii := "@"%char.
Definition dot : ascii := "."%char.
(* [a-zA-Z_@] *)
Definition name_start (c : ascii) : bool :=
  isalpha c || Ascii.eqb c underscore || Ascii.eqb c at_sign.
(* [a-zA-Z_0-9] *)
Definition name_char (c : ascii) : bool :=
  isalpha c || Ascii.eqb c underscore || isdigit c.
(* [a-zA-Z_0-9@] *)
Definition operand_char (c : ascii) : bool :=
  name_char c || Ascii.eqb c at_sign.
(* [a-zA-Z_0-9@\.] *)
Definition dotted_char (c : ascii) : bool :=
  operand_char c || Ascii.eqb c dot.

(* [a-zA-Z_@][a-zA-Z_0-9]* *)
Definition identifier : regex := Seq (Cls name_start) (Star (Cls name_char)).
(* [0-9]+(\.[0-9]+)? *)
Definition number : regex :=
  Seq (Plus (Cls isdigit)) (Opt (Seq (Chr dot) (Plus (Cls isdigit)))).

(* ^<[a-zA-Z_@][a-zA-Z_0-9]*$ *)
Definition LABEL : regex := Seq (Lit "<") identifier.
(* ^>[a-zA-Z_@][a-zA-Z_0-9]*$ *)
Definition JUMP : regex := Seq (Lit ">") identifier.
(* ^>[a-zA-Z_@][a-zA-Z_0-9]* \!?[a-zA-Z_0-9@]+$ *)
Definition CJMP : regex :=
  Seqs [Lit ">"; identifier; Lit " "; Opt (Lit "!"); Plus (Cls operand_char)].
(* ^>[a-zA-Z_@][a-zA-Z_0-9]* [a-zA-Z_0-9@\.]+ ((==)|(\!=)|(>=)|(<=)|>|<) [a-zA-Z_0-9@\.]+$ *)
Definition EJMP : regex :=
  Seqs [Lit ">"; identifier; Lit " "; Plus (Cls dotted_char); Lit " ";
        Alt (Lit "==") (Alt (Lit "!=") (Alt (Lit ">=") (Alt (Lit "<=")
          (Alt (Lit ">") (Lit "<")))));
        Lit " "; Plus (Cls dotted_char)].
(* ^jump [0-9]+ [a-zA-Z]+ [a-zA-Z_0-9@]+ [a-zA-Z_0-9@]+$ *)
Definition MJUMP : regex :=
  Seqs [Lit "jump "; Plus (Cls isdigit); Lit " "; Plus (Cls isalpha); Lit " ";
        Plus (Cls operand_char); Lit " "; Plus (Cls operand_char)].
(* ^op [a-zA-Z]+ [a-zA-Z_0-9@]+ [0-9]+(\.[0-9]+)? [0-9]+(\.[0-9]+)?$ *)
Definition MCALC : regex :=
  Seqs [Lit "op "; Plus (Cls isalpha); Lit " "; Plus (Cls operand_char); Lit " ";
        number; Lit " "; number].
(* ^[0-9]+(\.[0-9]+)?$ *)
Definition NUM : regex := number.
End GEN_REGEXES.

(** *** The host operations behind [PRECALC] *)

(** [DOUBLE_IS_ODD_INTEGER] of CPython *)
Definition is_odd_integer (x : float) : bool := eqb (fmod (SFabs x) (add one one)) one.

(** [a ** b] ([float_pow] of CPython) *)
Definition float_pow (m : Libm) (a b : float) : result pyobj :=
  if eqb b zero then Ok (PFloat one)
  else if is_nan a then Ok (PFloat a)
  else if is_nan b then Ok (PFloat (if eqb a one then one else b))
  else if is_inf b then
    let a' := SFabs a in
    if eqb a' one then Ok (PFloat one)
    else if Bool.eqb (ltb zero b) (ltb one a') then Ok (PFloat (SFabs b))
    else Ok (PFloat zero)
  else if is_inf a then
    let odd := is_odd_integer b in
    if ltb zero b then Ok (PFloat (if odd then a else SFabs a))
    else Ok (PFloat (if odd then copysign zero a else zero))
  else if eqb a zero then
    if ltb b zero then Raise ZeroDivisionError
    else Ok (PFloat (if is_odd_integer b then a else zero))
  else if ltb a zero && negb (eqb b (floor b)) then Ok PComplex
  else
    let negate := ltb a zero && is_odd_integer b in
    let a' := SFabs a in
    if eqb a' one then Ok (PFloat (if negate then SFopp one else one))
    else
      let r := libm_pow m a' b in
      if is_inf r then Raise OverflowError
      else Ok (PFloat (if negate then SFopp r else r)).

(** [math.log(a)] and [math.log10(a)] *)
Definition math_log (f : float -> float) (a : float) : result pyobj :=
  match a with
  | S754_nan => Ok (PFloat a)
  | S754_infinity false => Ok (PFloat a)
  | S754_finite false _ _ => Ok (PFloat (f a))
  | _ => Raise ValueError
  end.

(** [math.sqrt(a)] *)
Definition math_sqrt (a : float) : result pyobj :=
  let r := sqrt a in
  if is_nan r && negb (is_nan a) then Raise ValueError else Ok (PFloat r).

(** [a and b] *)
Definition and_ (a b : float) : float := if truthy a then b else a.

(** [max(a, b)] and [min(a, b)] *)
Definition max_ (a b : float) : float := if ltb a b then b else a.
Definition min_ (a b : float) : float := if ltb b a then b else a.

(** *** [PRECALC] *)
(** [<<], [>>], [|], [&], [^] and [~] are not defined on floats. *)
Definition PRECALC (m : Libm) : list (string * (float -> float -> result pyobj)) :=
  [ ("add", fun a b => Ok (PFloat (add a b)));
    ("sub", fun a b => Ok (PFloat (sub a b)));
    ("mul", fun a b => Ok (PFloat (mul a b)));
    ("div", fun a b => PFloat <$> truediv a b);
    ("idiv", fun a b => PFloat <$> floordiv a b);
    ("mod", fun a b => PFloat <$> rem a b);
    ("pow", fun a b => float_pow m a b);
    ("land", fun a b => Ok (PFloat (and_ a b)));
    ("lessThan", fun a b => Ok (PBool (ltb a b)));
    ("lessThanEq", fun a b => Ok (PBool (leb a b)));
    ("greaterThan", fun a b => Ok (PBool (ltb b a)));
    ("greaterThanEq", fun a b => Ok (PBool (leb b a)));
    ("strictEqual", fun a b => Ok (PBool (eqb a b)));
    ("shl", fun a b => Raise TypeError);
    ("shr", fun a b => Raise TypeError);
    ("or", fun a b => Raise TypeError);
    ("and", fun a b => Raise TypeError);
    ("xor", fun a b => Raise TypeError);
    ("not", fun a _ => Raise TypeError);
    ("max", fun a b => Ok (PFloat (max_ a b)));
    ("min", fun a b => Ok (PFloat (min_ a b)));
    ("abs", fun a _ => Ok (PFloat (SFabs a)));
    ("log", fun a _ => math_log (libm_log m) a);
    ("log10", fun a _ => math_log (libm_log10 m) a);
    ("floor", fun a _ => PInt <$> floor_int a);
    ("ceil", fun a _ => PInt <$> ceil_int a);
    ("sqrt", fun a _ => math_sqrt a) ].

(** [float(s)]. Of the spellings [float] accepts only the literals of
    [NUM] are modelled: [MCALC] lets no other through. *)
Definition float_ (s : string) : result float :=
  if fullmatch GEN_REGEXES.NUM s then Ok (of_literal s) else Raise ValueError.

(** [int(result)] *)
Definition int_ (o : pyobj) : result Z :=
  match o with
  | PInt z => Ok z
  | PBool b => Ok (if b then 1 else 0)
  | PFloat f => to_int f
  | PComplex => Raise TypeError
  end.

(** [result == z] for an [int] [z]: numbers are compared by value *)
Definition eq_int (o : pyobj) (z : Z) : bool :=
  match o with
  | PInt y => y =? z
  | PBool b => (if b then 1 else 0) =? z
  | PFloat f => is_finite f && snd (trunc f) && (fst (trunc f) =? z)
  | PComplex => false
  end.

(** [str(result)] *)
Definition str_obj (o : pyobj) : string :=
  match o with
  | PInt z => str_int z
  | PBool b => if b then "True" else "False"
  | PFloat f => repr f
  | PComplex => "(complex)"
  end.

(** One round of the loop of [_precalc_optimize]: the line to emit and
    whether it was folded. *)
Definition precalc_line (m : Libm) (ln : string) : result (string * bool) :=
  if fullmatch GEN_REGEXES.MCALC ln then
    let spl := split_on " " 4 ln in
    op ← item spl 1;
    name ← item spl 2;
    n1 ← item spl 3 ≫= float_;
    n2 ← item spl 4 ≫= float_;
    match dict_get (PRECALC m) op with
    | Some f =>
        result ← f n1 n2;
        z ← int_ result;
        let result := if eq_int result z then PInt z else result in
        Ok ("set " +:+ name +:+ " " +:+ str_obj result, true)
    | None => Ok (ln, false)
    end
  else Ok (ln, false).

Fixpoint precalc_loop (m : Libm) (lns : list string) (tmp : string) (found : bool)
  : result (string * bool) :=
  match lns with
  | [] => Ok (tmp, found)
  | ln :: lns' =>
      r ← precalc_line m ln;
      precalc_loop m lns' (tmp +:+ r.1 +:+ nl) (r.2 || found)
  end.

Definition _precalc_optimize (m : Libm) (code : string) : result (string * bool) :=
  precalc_loop m (splitlines code) "" false.

(** *** [JUMP_CONDITION] *)
Definition JUMP_CONDITION : list (string * string) :=
  [ ("==", "equal"); ("!=", "notEqual"); (">", "greaterThan");
    ("<", "lessThan"); (">=", "greaterThanEq"); ("<=", "lessThanEq") ].

(** *** [postprocess] *)

(** First loop: native lines lose their dot, labels are recorded and
    dropped, [set] lines with equal second and third word are dropped. *)
Definition self_set (ln : string) : result bool :=
  let spl := split ln in
  match spl with
  | w :: _ =>
      if String.eqb w "set" then
        a ← item spl 1; b ← item spl 2; Ok (String.eqb a b)
      else Ok false
  | [] => Ok false
  end.

Definition undot (ln : string) : string :=
  if startswith "." ln then tail ln else ln.

Fixpoint resolve_labels (lns : list string) (i lc : Z) (tmp : string)
    (labels : gmap string Z) : result (string * gmap string Z) :=
  match lns with
  | [] => Ok (tmp, labels)
  | ln :: lns' =>
      let ln := undot ln in
      if fullmatch GEN_REGEXES.LABEL ln then
        resolve_labels lns' (i + 1) (lc + 1) tmp (<[tail ln := i - lc]> labels)
      else
        skip ← self_set ln;
        if skip : bool then resolve_labels lns' (i + 1) lc tmp labels
        else resolve_labels lns' (i + 1) lc (tmp +:+ ln +:+ nl) labels
  end.

(** Second loop, one line: a jump becomes [jump <line> ...]. *)
Definition unknown_label (name : string) : exn :=
  gen_error ("Unknown label " +:+ quoted name).

(** [name], [cond], [cvar] and [invert] of a line [>label] or
    [>label var] / [>label !var]. *)
Definition jump_parts (ln : string) : result (string * bool * string * bool) :=
  if fullmatch GEN_REGEXES.JUMP ln then Ok (tail ln, false, "_", false)
  else
    let spl := split ln in
    s0 ← item spl 0; s1 ← item spl 1;
    let invert := startswith "!" s1 in
    Ok (tail s0, true, if invert then tail s1 else s1, invert).

Definition jump_line (labels : gmap string Z) (ln : string)
    (parts : string * bool * string * bool) : result string :=
  let '(name, cond, cvar, invert) := parts in
  if String.eqb name "" then Ok ln
  else
    match labels !! name with
    | Some l =>
        Ok ("jump " +:+ str_int l +:+ " "
            +:+ (if negb cond then "always" else if invert then "notEqual" else "equal")
            +:+ " " +:+ cvar +:+ " true")
    | None => Raise (unknown_label name)
    end.

Definition resolve_jump (labels : gmap string Z) (ln : string) : result string :=
  if fullmatch GEN_REGEXES.JUMP ln || fullmatch GEN_REGEXES.CJMP ln then
    jump_parts ln ≫= jump_line labels ln
  else if fullmatch GEN_REGEXES.EJMP ln then
    let spl := split ln in
    s0 ← item spl 0; op1 ← item spl 1; cond ← item spl 2;
    match dict_get JUMP_CONDITION cond with
    | None => Raise (gen_error ("Unknown jump condition " +:+ quoted cond))
    | Some cond =>
        op2 ← item spl 3;
        match labels !! tail s0 with
        | Some l =>
            Ok ("jump " +:+ str_int l +:+ " " +:+ cond +:+ " " +:+ op1 +:+ " " +:+ op2)
        | None => Raise (unknown_label (tail s0))
        end
    end
  else Ok ln.

Fixpoint resolve_jumps (labels : gmap string Z) (lns : list string) (tmp2 : string)
  : result string :=
  match lns with
  | [] => Ok tmp2
  | ln :: lns' =>
      ln' ← resolve_jump labels ln;
      resolve_jumps labels lns' (tmp2 +:+ ln' +:+ nl)
  end.

(** Third loop, one line: a native jump past the last line goes to 0. *)
Definition native_jump (lnc : Z) (ln : string) : result string :=
  if fullmatch GEN_REGEXES.MJUMP ln then
    let spl := split_on " " 4 ln in
    s0 ← item spl 0; s1 ← item spl 1; s2 ← item spl 2; s3 ← item spl 3; s4 ← item spl 4;
    if lnc <=? int_digits s1
    then Ok (s0 +:+ " 0 " +:+ s2 +:+ " " +:+ s3 +:+ " " +:+ s4)
    else Ok ln
  else Ok ln.

Fixpoint native_jumps (lnc : Z) (lns : list string) (tmp : string) : result string :=
  match lns with
  | [] => Ok tmp
  | ln :: lns' =>
      ln' ← native_jump lnc ln;
      native_jumps lnc lns' (tmp +:+ ln' +:+ nl)
  end.

(** The last step: a last line that starts with [jump 0] is removed. *)
Definition remove_last_jump (tmp : string) : result string :=
  last ← last_item (splitlines tmp);
  Ok (if startswith "jump 0" last then join nl (removelast (splitlines tmp)) else tmp).

(** The three loops: the text with every label and jump resolved. *)
Definition resolved (code : string) : result string :=
  r ← resolve_labels (splitlines code) 0 0 "" ∅;
  let '(tmp, labels) := r in
  tmp2 ← resolve_jumps labels (splitlines tmp) "";
  let lnc := Z.of_nat (length (splitlines (strip tmp2))) in
  native_jumps lnc (splitlines tmp2) "".

Definition postprocess (code : string) : result string :=
  if String.eqb (strip code) "" then Ok code
  else
    tmp ← resolved code;
    tmp ← remove_last_jump tmp;
    Ok (strip tmp).

(** *** Vocabulary of the statements about [postprocess] *)

Definition is_label (ln : string) : bool := fullmatch GEN_REGEXES.LABEL ln.

(** A symbolic jump, or a [jump] instruction. *)
Definition is_jump (ln : string) : bool :=
  fullmatch GEN_REGEXES.JUMP ln || fullmatch GEN_REGEXES.CJMP ln
  || fullmatch GEN_REGEXES.EJMP ln || startswith "jump " ln.

(** [set X X]: the first word is [set], the second equals the third. *)
Definition is_self_assignment (ln : string) : bool :=
  match split ln with
  | w :: a :: b :: _ => String.eqb w "set" && String.eqb a b
  | _ => false
  end.

(** The lines the first loop keeps. *)
Definition kept (ln : string) : bool := negb (is_label ln) && negb (is_self_assignment ln).

(** What the second and the third loop do to a line [l], giving [l']:
    a line that is no jump stays as it is, a jump stays a jump. *)
Definition line_ok (l l' : string) : Prop :=
  (is_jump l = false -> l' = l)
  /\ (is_jump l = true -> is_jump l' = true)
  /\ (is_self_assignment l = false -> is_self_assignment l' = false)
  /\ (clean l -> clean l').

(** *** [_generate], the [ReturnNode] case *)
(** [value] is what [self._generate(node.value)] returned, if the node
    has a value: the code and the variable that holds the result. *)
Definition _generate_ReturnNode (func_stack : list string) (value : option (string * string))
  : result (string * string) :=
  match last func_stack with
  | None => Raise (gen_error "Cannot return when not in a function")
  | Some fname =>
      let rvar := "__f_" +:+ fname +:+ "_retv" in
      match value with
      | None => Ok ("set " +:+ rvar +:+ " null", rvar)
      | Some (tmp, var) =>
          Ok (tmp +:+ nl +:+ "set " +:+ rvar +:+ " " +:+ var +:+ nl
              +:+ "set @counter __f_" +:+ fname +:+ "_ret", rvar)
      end
  end.

End Generator.

(* ===================================================================== *)
(** ** [value.py]: types and values *)
(* ===================================================================== *)

(** [class Type(enum.Flag)]: [enum.auto()] numbers the members 1, 2, 4, ...
    in the order they are written. *)
Module Ty.
Definition STR : Type_ := 1%N.
Definition NUM : Type_ := 2%N.
Definition NULL : Type_ := 4%N.
Definition BLOCK : Type_ := 8%N.
Definition UNIT : Type_ := 16%N.
Definition TEAM : Type_ := 32%N.
Definition UNIT_TYPE : Type_ := 64%N.
Definition ITEM_TYPE : Type_ := 128%N.
Definition BLOCK_TYPE : Type_ := 256%N.
Definition LIQUID_TYPE : Type_ := 512%N.
Definition CONTROLLER : Type_ := 1024%N.

Definition or (a b : Type_) : Type_ := N.lor a b.
Definition and (a b : Type_) : Type_ := N.land a b.

Definition ANY : Type_ :=
  or NUM (or STR (or NULL (or BLOCK (or UNIT (or TEAM (or UNIT_TYPE
    (or ITEM_TYPE (or BLOCK_TYPE (or LIQUID_TYPE CONTROLLER))))))))).

(** [a in b] ([Flag.__contains__]): every member of [a] is in [b]. *)
Definition in_ (a b : Type_) : bool := (and a b =? a)%N.

(** [a != b] *)
Definition ne (a b : Type_) : bool := negb (a =? b)%N.

(** The members of the enumeration, one bit each. *)
Definition members : list Type_ :=
  [STR; NUM; NULL; BLOCK; UNIT; TEAM; UNIT_TYPE; ITEM_TYPE; BLOCK_TYPE;
   LIQUID_TYPE; CONTROLLER].
End Ty.

(** [NumberValue.value : int | float] *)
Inductive Number :=
| Int (z : Z)
| Float (f : PyFloat.float).

Inductive Value :=
| StringValue (value : string)
| NumberValue (value : Number)
| NullValue
| BlockValue (name : string)
| VariableValue (type_ : Type_) (name : string) (const : bool).

Definition Value_type (v : Value) : Type_ :=
  match v with
  | StringValue _ => Ty.STR
  | NumberValue _ => Ty.NUM
  | NullValue => Ty.NULL
  | BlockValue _ => Ty.BLOCK
  | VariableValue t _ _ => t
  end.

(** [Value.__str__] *)
Definition Value_str (v : Value) : string :=
  match v with
  | StringValue value => value
  | NumberValue (Int z) => PyStr.str_int z
  | NumberValue (Float f) => PyFloat.repr f
  | NullValue => "null"
  | BlockValue name => name
  | VariableValue _ name _ => name
  end.

(** [function.Function], as [node_rewrite.py] builds it: name, parameters
    and return type. *)
Record Function := {
  fun_name : string;
  fun_params : list (string * Type_);
  fun_return_type : Type_
}.

(* ===================================================================== *)
(** ** Instructions *)
(* ===================================================================== *)

(** Modelled from the spec: [instruction.py] is not among the sources. An
    instruction is an opcode with an ordered operand list, the operands
    being values or raw tokens, or one of the pseudo-instructions label,
    macro and symbolic jump (with or without a condition). *)
Inductive MInstructionType := SET | OP | CONTROL | SENSOR | READ | WRITE.

Inductive Operand :=
| OValue (v : Value)
| OText (s : string)
| ONumber (z : Z).

Inductive Instruction :=
| MInstruction (type_ : MInstructionType) (params : list Operand)
| MppInstructionLabel (name : string)
| MppInstructionJump (label : string)
| MppInstructionOJump (label : string) (op1 : Value) (cond : string) (op2 : Value)
| MppInstructionMacro (name value : string).

Definition Instructions := list Instruction.

Definition MInstructionType_name (t : MInstructionType) : string :=
  match t with
  | SET => "set" | OP => "op" | CONTROL => "control"
  | SENSOR => "sensor" | READ => "read" | WRITE => "write"
  end.

Definition Operand_str (o : Operand) : string :=
  match o with
  | OValue v => Value_str v
  | OText s => s
  | ONumber z => PyStr.str_int z
  end.

(** Modelled from the spec: [str(ins)], one line of target assembly, the
    opcode and the operands separated by blanks. A symbolic jump is a
    [jump] to its label, [always] when it has no condition. The linker
    never prints a label or a macro. *)
Definition Instruction_str (ins : Instruction) : string :=
  match ins with
  | MInstruction t params =>
      PyStr.join " " (MInstructionType_name t :: map Operand_str params)
  | MppInstructionLabel name => name +:+ ":"
  | MppInstructionJump label => "jump " +:+ label +:+ " always _ _"
  | MppInstructionOJump label op1 cond op2 =>
      "jump " +:+ label +:+ " " +:+ cond +:+ " " +:+ Value_str op1 +:+ " " +:+ Value_str op2
  | MppInstructionMacro name value => ""
  end.

(* ===================================================================== *)
(** ** Scopes and temporaries *)
(* ===================================================================== *)

(** Modelled from the spec: [scope.py] is not among the sources. A stack
    of named frames, innermost first; a frame maps an identifier to a
    variable or a function. *)
Inductive Binding :=
| BVariable (type_ : Type_) (name : string) (const : bool)
| BFunction (f : Function).

Definition Binding_name (b : Binding) : string :=
  match b with
  | BVariable _ name _ => name
  | BFunction f => fun_name f
  end.

Record Scope := {
  scope_name : option string;
  scope_bindings : gmap string Binding
}.

(** The state of one compilation: the scope stack and the counter of
    temporaries. *)
Record State := {
  scopes : list Scope;
  tmpv : nat
}.

(** A computation of the generator: it reads and writes the state and may
    raise. *)
Definition Gen (A : Type) : Type := State -> result (A * State).

Global Instance Gen_ret : MRet Gen := fun A a st => Ok (a, st).
Global Instance Gen_bind : MBind Gen := fun A B k m st =>
  match m st with
  | Ok (a, st') => k a st'
  | Raise e => Raise e
  end.

Definition throw {A} (e : Error) : Gen A := fun _ => Raise (MlogError e).
Definition raise {A} (e : exn) : Gen A := fun _ => Raise e.

Module Scopes.

(** Modelled from the spec: [Scopes.get(name)] searches the frames from
    the innermost to the outermost. *)
Fixpoint lookup (name : string) (l : list Scope) : option Binding :=
  match l with
  | [] => None
  | f :: l' =>
      match scope_bindings f !! name with
      | Some b => Some b
      | None => lookup name l'
      end
  end.

Definition get (name : string) : Gen (option Binding) :=
  fun st => Ok (lookup name (scopes st), st).

(** Modelled from the spec: [Scopes.add(binding)] inserts into the
    innermost frame and fails with already defined when the name
    resolves in an open frame. *)
Definition add (b : Binding) : Gen unit :=
  fun st =>
    match lookup (Binding_name b) (scopes st), scopes st with
    | Some _, _ => Raise (MlogError (already_defined_var (Binding_name b)))
    | None, f :: l' =>
        Ok (tt, {| scopes := {| scope_name := scope_name f;
                                scope_bindings := <[Binding_name b := b]> (scope_bindings f) |} :: l';
                   tmpv := tmpv st |})
    | None, [] => Raise IndexError
    end.

(** Modelled from the spec: [Scopes.push(name)] and [Scopes.pop()] are
    strictly stack-ordered. *)
Definition push (name : option string) : Gen unit :=
  fun st => Ok (tt, {| scopes := {| scope_name := name; scope_bindings := ∅ |} :: scopes st;
                       tmpv := tmpv st |}).

Definition pop : Gen unit :=
  fun st =>
    match scopes st with
    | _ :: l' => Ok (tt, {| scopes := l'; tmpv := tmpv st |})
    | [] => Raise IndexError
    end.

(** Modelled from the spec: [Scope(scope).rename(name)], the flat name
    of [name] in the scope [scope]; two different pairs never give the
    same name as long as no scope name holds a colon. *)
Definition rename (scope name : string) : string := scope +:+ ":" +:+ name.

End Scopes.

(** Modelled from the spec: [Gen.temp_var(type)], a fresh variable of the
    given type, named by an incrementing counter (the spelling is the one
    of [get_tmp_var] in [generator.py]). *)
Definition temp_var (t : Type_) : Gen Value :=
  fun st =>
    let n := S (tmpv st) in
    Ok (VariableValue t ("__tmp" +:+ PyStr.str_nat n) false,
        {| scopes := scopes st; tmpv := n |}).

(** Modelled from the spec: [constants.py] is not among the sources. The
    two tables of it the nodes read are kept abstract. *)
Record Constants := {
  CONTROLLABLE : list string;
  SENSOR_READABLE : list (string * Type_)
}.

(* ===================================================================== *)
(** ** [node_rewrite.py]: the nodes *)
(* ===================================================================== *)

(** The nodes of [node_rewrite.py] that declare, assign, compute, call and
    return. Positions serve error messages only and are left out. *)
#[warnings="-register-all"]
Inductive Node :=
| CodeBlockNode (code : list Node) (name : option string)
| DeclarationNode (var_type : Type_) (var_name : string) (var_const : bool)
                  (value : option Node)
| AssignmentNode (var : string) (op : string) (value : Node)
| BinaryOpNode (left_ : Node) (right_ : option (list (string * Node)))
| UnaryOpNode (op : string) (value : Node)
| CallNode (name : string) (params : list Node)
| StringValueNode (value : string)
| NumberValueNode (value : Number)
| ContentValueNode (value : string) (type_ : Type_)
| BlockValueNode (value : string)
| VariableValueNode (value : string)
| ReturnNode (func : string) (value : option Node).

Module AssignmentNode_.
Definition OPERATORS : list (string * string) :=
  [ ("+=", "add"); ("-=", "sub"); ("%=", "mod"); ("&=", "and"); ("|=", "or");
    ("^=", "xor"); ("*=", "mul"); ("/=", "div"); ("**=", "pow"); ("//=", "idiv");
    ("<<", "shl"); (">>", "shr") ].
End AssignmentNode_.

Module BinaryOpNode_.
Definition OPERATORS : list (string * string) :=
  [ ("+", "add"); ("-", "sub"); ("*", "mul"); ("/", "div"); ("//", "idiv");
    ("%", "mod"); ("**", "pow"); ("==", "equal"); ("!=", "notEqual");
    ("&&", "land"); ("||", "or"); ("<", "lessThan"); ("<=", "lessThanEq");
    (">", "greaterThan"); (">=", "greaterThanEq"); ("===", "strictEqual");
    ("<<", "shl"); (">>", "shr"); ("|", "or"); ("&", "and"); ("^", "xor") ].

Definition EQUALITY : list string := ["=="; "!="; "==="].
End BinaryOpNode_.

(** [d[k]] *)
Definition dict_item {A} (d : list (string * A)) (k : string) : Gen A :=
  match dict_get d k with
  | Some v => mret v
  | None => raise KeyError
  end.

(** [x in l] for strings *)
Definition str_in (x : string) (l : list string) : bool :=
  existsb (String.eqb x) l.

Section Nodes.
Context (constants : Constants).

(** The first loop of [BinaryOpNode.get], entered when the left operand
    is not a number: any operator outside [EQUALITY] is an error. *)
Fixpoint check_left (found : Type_) (right_ : list (string * Node)) : Gen unit :=
  match right_ with
  | [] => mret tt
  | (op, _) :: right' =>
      if negb (str_in op BinaryOpNode_.EQUALITY)
      then throw (incompatible_types found Ty.NUM)
      else check_left found right'
  end.

(** The second loop of [BinaryOpNode.get]. *)
Definition fold_right_operands (get : Node -> Gen (Instructions * Value)) (tmpv : Value)
  : list (string * Node) -> Instructions -> Gen Instructions :=
  fix loop (right_ : list (string * Node)) (code : Instructions) : Gen Instructions :=
    match right_ with
    | [] => mret code
    | (op, node) :: right' =>
        r ← get node;
        let value_code := r.1 in
        let value := r.2 in
        if negb (Ty.in_ (Value_type value) Ty.NUM)
        then throw (incompatible_types (Value_type value) Ty.NUM)
        else
          opcode ← dict_item BinaryOpNode_.OPERATORS op;
          loop right' (code ++ value_code
                       ++ [MInstruction OP [OText opcode; OValue tmpv; OValue tmpv; OValue value]])
    end.

(** The loop of [CallNode.generate] over the arguments. *)
Definition bind_params (get : Node -> Gen (Instructions * Value)) (name : string)
  : list Node -> list (string * Type_) -> Instructions -> Gen Instructions :=
  fix loop (params : list Node) (fparams : list (string * Type_)) (code : Instructions)
    : Gen Instructions :=
    match params with
    | [] => mret code
    | param :: params' =>
        r ← get param;
        let param_code := r.1 in
        let param_value := r.2 in
        match fparams with
        | [] => raise IndexError
        | (pname, ptype) :: fparams' =>
            if Ty.ne (Value_type param_value) ptype
            then throw (incompatible_types (Value_type param_value) ptype)
            else
              loop params' fparams'
                (code ++ param_code
                 ++ [MInstruction SET [OValue (VariableValue ptype (Scopes.rename name pname) false);
                                       OValue param_value]])
        end
    end.

(** [CallNode.generate], with the [return_value] it leaves in the node. *)
Definition CallNode_generate (get : Node -> Gen (Instructions * Value))
    (name : string) (params : list Node) : Gen (Instructions * Value) :=
  b ← Scopes.get name;
  match b with
  | Some (BFunction f) =>
      if negb (length params =? length (fun_params f))%nat
      then throw (invalid_arg_count (length params) (length (fun_params f)))
      else
        let return_value :=
          if Ty.ne (fun_return_type f) Ty.NULL
          then VariableValue (fun_return_type f) ("__f_" +:+ name +:+ "_retv") false
          else NullValue in
        code ← bind_params get name params (fun_params f) [];
        mret (code
              ++ [MInstruction OP [OText "add";
                                   OValue (VariableValue Ty.NUM ("__f_" +:+ name +:+ "_ret") false);
                                   OValue (VariableValue Ty.NUM "@counter" false);
                                   OValue (NumberValue (Int 1))];
                  MppInstructionJump ("__f_" +:+ name)],
              return_value)
  | _ => throw (undefined_function name)
  end.

(** The loop of [CodeBlockNode.generate]. *)
Definition generate_all (generate : Node -> Gen Instructions)
  : list Node -> Instructions -> Gen Instructions :=
  fix loop (code : list Node) (ins : Instructions) : Gen Instructions :=
    match code with
    | [] => mret ins
    | node :: code' => c ← generate node; loop code' (ins ++ c)
    end.

(** The second branch of [AssignmentNode.generate]: [block.attribute = value]. *)
Definition control_assignment (var : string) (value_get : Gen (Instructions * Value))
  : Gen Instructions :=
  let spl := PyStr.split_all "." var in
  r ← value_get;
  let value_code := r.1 in
  let value := r.2 in
  if Ty.ne (Value_type value) Ty.NUM
  then throw (incompatible_types (Value_type value) Ty.NUM)
  else
    b ← Scopes.get (default "" (spl !! 0%nat));
    match b with
    | Some (BVariable t n c) =>
        if Ty.ne t Ty.BLOCK then throw (incompatible_types t Ty.BLOCK)
        else mret (value_code
                   ++ [MInstruction CONTROL [OText (default "" (spl !! 1%nat));
                                             OValue (VariableValue t n c); OValue value;
                                             OText "_"; OText "_"; OText "_"]])
    | _ => throw (undefined_variable (default "" (spl !! 0%nat)))
    end.

Definition is_controllable (var op : string) : bool :=
  String.eqb op "=" && PyStr.contains "." var
  && match PyStr.split_all "." var !! 1%nat with
     | Some attr => str_in attr (CONTROLLABLE constants)
     | None => false
     end.

(** [get] of every node class; a class that does not define it inherits
    the one of [Node]. In [BinaryOpNode.get] the test [tmpv != value]
    compares object identities, since no [Value] class defines [__eq__]:
    the temporary is a fresh object, so the [SET] is always emitted. *)
Fixpoint get (n : Node) {struct n} : Gen (Instructions * Value) :=
  match n with
  | BinaryOpNode left_ right_ =>
      r ← get left_;
      let code := r.1 in
      let value := r.2 in
      _ ← (if negb (Ty.in_ (Value_type value) Ty.NUM) then
             match right_ with
             | None => raise TypeError
             | Some l => check_left (Value_type value) l
             end
           else mret tt);
      match right_ with
      | Some ((_ :: _) as l) =>
          tmpv ← temp_var Ty.NUM;
          code ← fold_right_operands get tmpv l
                   (code ++ [MInstruction SET [OValue tmpv; OValue value]]);
          mret (code, tmpv)
      | _ => mret (code, value)
      end
  | UnaryOpNode op value =>
      r ← get value;
      let code := r.1 in
      let value := r.2 in
      if negb (Ty.in_ (Value_type value) Ty.NUM)
      then throw (incompatible_types (Value_type value) Ty.NUM)
      else
        tmpv ← temp_var Ty.NUM;
        let code :=
          if String.eqb op "-" then
            code ++ [MInstruction OP [OText "sub"; OValue tmpv; ONumber 0; OValue tmpv]]
          else if String.eqb op "!" then
            code ++ [MInstruction OP [OText "notEqual"; OValue tmpv; OValue tmpv; OText "true"]]
          else if String.eqb op "~" then
            code ++ [MInstruction OP [OText "not"; OValue tmpv; OValue tmpv; OText "_"]]
          else code in
        mret (code, value)
  | CallNode name params => CallNode_generate get name params
  | StringValueNode value => mret ([], StringValue value)
  | NumberValueNode value => mret ([], NumberValue value)
  | ContentValueNode value type_ => mret ([], VariableValue type_ value false)
  | BlockValueNode value => mret ([], BlockValue value)
  | VariableValueNode value =>
      b ← Scopes.get value;
      match b with
      | Some (BVariable t name const) => mret ([], VariableValue t name const)
      | _ =>
          let spl := PyStr.split_all "." value in
          match (if PyStr.contains "." value
                 then spl !! 1%nat ≫= dict_get (SENSOR_READABLE constants)
                 else None) with
          | Some sensor_type =>
              b ← Scopes.get (default "" (spl !! 0%nat));
              match b with
              | Some (BVariable t name const) =>
                  if negb (Ty.in_ t (Ty.or Ty.BLOCK Ty.UNIT))
                  then throw (incompatible_types t Ty.BLOCK)
                  else
                    out ← temp_var sensor_type;
                    mret ([MInstruction SENSOR
                             [OValue out; OValue (VariableValue t name const);
                              OText ("@" +:+ default "" (spl !! 1%nat))]],
                          out)
              | _ => throw (undefined_variable value)
              end
          | None => throw (undefined_variable value)
          end
      end
  | _ => mret ([], NullValue)
  end.

(** [generate] of every node class; a class that does not define it
    inherits the one of [Node]. *)
Fixpoint generate (n : Node) {struct n} : Gen Instructions :=
  match n with
  | CodeBlockNode code name =>
      _ ← Scopes.push name;
      ins ← generate_all generate code [];
      _ ← Scopes.pop;
      mret ins
  | DeclarationNode var_type var_name var_const value =>
      b ← Scopes.get var_name;
      if bool_decide (is_Some b) then throw (already_defined_var var_name)
      else
        _ ← Scopes.add (BVariable var_type var_name var_const);
        match value with
        | Some e =>
            r ← get e;
            let value_code := r.1 in
            let value := r.2 in
            if negb (Ty.in_ (Value_type value) var_type)
            then throw (incompatible_types (Value_type value) var_type)
            else mret (value_code
                       ++ [MInstruction SET [OValue (VariableValue var_type var_name var_const);
                                             OValue value]])
        | None => mret []
        end
  | AssignmentNode var op value =>
      b ← Scopes.get var;
      match b with
      | Some (BVariable t name const) =>
          if const then throw (write_to_const var)
          else
            r ← get value;
            let value_code := r.1 in
            let value := r.2 in
            if String.eqb op "=" then
              if negb (Ty.in_ (Value_type value) t)
              then throw (incompatible_types (Value_type value) t)
              else mret (value_code
                         ++ [MInstruction SET [OValue (VariableValue t name const); OValue value]])
            else
              if negb (Ty.in_ t Ty.NUM) then throw (incompatible_types t Ty.NUM)
              else if negb (Ty.in_ (Value_type value) Ty.NUM)
              then throw (incompatible_types (Value_type value) Ty.NUM)
              else
                opcode ← dict_item AssignmentNode_.OPERATORS op;
                mret (value_code
                      ++ [MInstruction OP [OText opcode; OValue (VariableValue t name const);
                                           OValue (VariableValue t name const); OValue value]])
      | _ =>
          if is_controllable var op then control_assignment var (get value)
          else throw (undefined_variable var)
      end
  | CallNode name params => r ← CallNode_generate get name params; mret r.1
  | ReturnNode func value =>
      match value with
      | None => mret []
      | Some e =>
          r ← get e;
          let value_code := r.1 in
          let value := r.2 in
          b ← Scopes.get func;
          match b with
          | Some (BFunction f) =>
              if Ty.ne (Value_type value) (fun_return_type f)
              then throw (incompatible_types (Value_type value) (fun_return_type f))
              else mret (value_code
                         ++ [MInstruction SET
                               [OValue (VariableValue (Value_type value)
                                          ("__f_" +:+ func +:+ "_retv") false);
                                OValue value]])
          | _ => raise AttributeError
          end
      end
  | _ => mret []
  end.

End Nodes.

(* ===================================================================== *)
(** ** [linker.py] *)
(* ===================================================================== *)

Module Linker.
Import PyStr.

(** What [Expression.exec] returns: a list, of which [link] prints every
    item, or a value it prints as a whole. *)
Inductive exec_value :=
| ExecList (items : list string)
| ExecOther (s : string).

(** [Expression.exec(pos, text)] with the variables [here_ptr], [labels]
    and [macros] that [link] sets before the call. [expression.py] is
    not among the sources; the evaluator is taken to read the two
    dictionaries and not to write them. *)
Definition Exec : Type :=
  nat -> gmap string nat -> gmap string string -> string -> result exec_value.

Section Link.
Context (exec : Exec).

(** The text a macro stands for. *)
Definition macro_value (here_ptr : nat) (labels : gmap string nat)
    (macros : gmap string string) (value : string) : result string :=
  if startswith ":" value then
    val ← exec here_ptr labels macros (removeprefix ":" value);
    Ok (match val with
        | ExecList items => join " " items
        | ExecOther s => s
        end)
  else Ok value.

(** [macros.get(i, i)] and [str(labels.get(word, word))] *)
Definition expand (macros : gmap string string) (i : string) : string :=
  default i (macros !! i).
Definition resolve (labels : gmap string nat) (word : string) : string :=
  match labels !! word with
  | Some n => str_nat n
  | None => word
  end.

(** The loop over the instructions: labels, macros and the lines with
    their macros expanded. *)
Fixpoint scan (code : list Instruction) (labels : gmap string nat)
    (macros : gmap string string) (instrs : list string)
  : result (gmap string nat * gmap string string * list string) :=
  match code with
  | [] => Ok (labels, macros, instrs)
  | ins :: code' =>
      match ins with
      | MppInstructionLabel name =>
          scan code' (<[name := length instrs]> labels) macros instrs
      | MppInstructionMacro name value =>
          val ← macro_value (length instrs) labels macros value;
          scan code' labels (<[name := val]> macros) instrs
      | _ =>
          if String.eqb (Instruction_str ins) "" then scan code' labels macros instrs
          else
            scan code' labels macros
              (instrs ++ [join " " (map (expand macros) (split (Instruction_str ins)))])
      end
  end.

Definition resolve_line (labels : gmap string nat) (line : string) : string :=
  join " " (map (resolve labels) (split line)).

Definition link (code : list Instruction) : result string :=
  r ← scan code {["start" := 0%nat]} ∅ [];
  let labels := r.1.1 in
  let instrs := r.2 in
  let output_code := join nl (map (resolve_line labels) instrs) in
  Ok (strip output_code).

End Link.

(** Is a label of that name among the instructions? *)
Definition defines_label (name : string) (code : list Instruction) : bool :=
  existsb (fun ins => match ins with
                      | MppInstructionLabel n => String.eqb n name
                      | _ => false
                      end) code.

(** Is there a macro whose text is computed? *)
Definition computes_macro (code : list Instruction) : bool :=
  existsb (fun ins => match ins with
                      | MppInstructionMacro _ value => startswith ":" value
                      | _ => false
                      end) code.

(** An evaluator for programs without computed macros. *)
Definition no_exec : Exec := fun _ _ _ _ => Raise ValueError.

End Linker.

(* ===================================================================== *)
(** ** Example inputs *)
(* ===================================================================== *)

(** Does the instruction write the program counter? *)
Definition writes_counter (ins : Instruction) : bool :=
  match ins with
  | MInstruction SET (OValue (VariableValue _ name _) :: _) => String.eqb name "@counter"
  | _ => false
  end.

Module Examples.

(** No table of [constants.py] is read by the examples below. *)
Definition no_constants : Constants :=
  {| CONTROLLABLE := []; SENSOR_READABLE := [] |}.

(** A compilation state with one global frame. *)
Definition global (bindings : gmap string Binding) : State :=
  {| scopes := [ {| scope_name := None; scope_bindings := bindings |} ]; tmpv := 0 |}.

(** [function f(num a): num] *)
Definition f : Function :=
  {| fun_name := "f"; fun_params := [("a", Ty.NUM)]; fun_return_type := Ty.NUM |}.

(** A state with [f], a [num] variable [n] and a variable [v] of type [ANY]. *)
Definition state : State :=
  global {[ "f" := BFunction f;
            "n" := BVariable Ty.NUM "n" false;
            "v" := BVariable Ty.ANY "v" false ]}.

(** A text of the given lines. *)
Definition text (lines : list string) : string := PyStr.join PyStr.nl lines.

(** [while (c) { print 1; break }] as the generator of [generator.py]
    writes it: the loop starts at line 0 and [break] jumps past the end. *)
Definition loop_with_break : string :=
  text [ "<__mpp1"; "sensor c switch1 @enabled"; ">__mpp2 !c"; "print 1"; ">__mpp2";
         ">__mpp1"; "<__mpp2" ].

(** A loop that goes back to line 0 while [x] holds. *)
Definition repeat_while : string :=
  text [ "<a"; "print 1"; ">a x" ].

(** A self-assignment, a label, a native line and a jump. *)
Definition mixed : string :=
  text [ "set y 1"; "set x x"; "<a"; ".print y"; ">a" ].

(** [x = 1] and a jump to a label that nothing defines; the same jump to
    [start]. *)
Definition jump_nowhere : list Instruction :=
  [ MInstruction SET [OValue (VariableValue Ty.NUM "x" false); OValue (NumberValue (Int 1))];
    MppInstructionJump "nowhere" ].
Definition jump_start : list Instruction :=
  [ MInstruction SET [OValue (VariableValue Ty.NUM "x" false); OValue (NumberValue (Int 1))];
    MppInstructionJump "start" ].

(** A C library for the examples, none of which calls it. *)
Definition libm : Libm :=
  {| libm_pow := fun _ _ => S754_nan; libm_log := fun _ => S754_nan;
     libm_log10 := fun _ => S754_nan |}.

End Examples.

(* ===================================================================== *)
(** ** [util.py] *)
(* ===================================================================== *)

Module Util.

Definition TAB : ascii := "009"%char.
Definition backslash : ascii := "092"%char.

(** [s.replace(old, new)] for a one-character [old] *)
Fixpoint replace_char (old : ascii) (new : string) (s : string) : string :=
  match s with
  | "" => ""
  | String c s' =>
      (if Ascii.eqb c old then new else String c "") +:+ replace_char old new s'
  end.

(** [sanitize(s)]: line feed, tab and carriage return are spelled out. *)
Definition sanitize (s : string) : string :=
  replace_char PyStr.CR (String backslash "r")
    (replace_char TAB (String backslash "t")
       (replace_char PyStr.LF (String backslash "n") s)).

(** A character that [sanitize] leaves alone. *)
Definition plain (c : ascii) : bool :=
  negb (Ascii.eqb c PyStr.LF || Ascii.eqb c TAB || Ascii.eqb c PyStr.CR).

(** [flatten(lst)] *)
Definition flatten {A} (lst : list (list A)) : list A := concat lst.

(** [s * n]: no copy at all for [n <= 0] *)
Definition mul_str (s : string) (n : Z) : string :=
  Nat.iter (Z.to_nat n) (fun r => s +:+ r) "".

(** A bound of a slice on a sequence of length [len]: a negative bound
    counts from the end, and both ends are clipped. *)
Definition slice_bound (len k : Z) : Z :=
  if k <? 0 then Z.max 0 (k + len) else Z.min k len.

(** [s[a:b]] *)
Definition slice (s : string) (a b : Z) : string :=
  let len := Z.of_nat (String.length s) in
  let a' := slice_bound len a in
  let b' := slice_bound len b in
  String.substring (Z.to_nat a') (Z.to_nat (b' - a')) s.

End Util.

(** [class Position] *)
Module Position.

Record t := {
  line : Z;
  start : Z;
  end_ : Z;
  code : string;
  file : string
}.

(** [Position(line, start, end, code, file)]: the constructor sanitizes
    the code. *)
Definition init (line start end_ : Z) (code file : string) : t :=
  {| line := line; start := start; end_ := end_; code := Util.sanitize code; file := file |}.

(** [arrows()] *)
Definition arrows (self : t) : string :=
  Util.mul_str " " (start self) +:+ Util.mul_str "^" (end_ self - start self).

(** [code_section()] *)
Definition code_section (self : t) : string :=
  Util.slice (code self) (start self) (end_ self).

Definition len (s : string) : Z := Z.of_nat (String.length s).

(** [self + other] *)
Definition __add__ (self other : t) : t :=
  if line self =? line other then
    init (line self) (Z.min (start self) (start other)) (Z.max (end_ self) (end_ other))
         (code self) (file self)
  else if line self <? line other then
    init (line self) (start self) (len (code self)) (code self) (file self)
  else
    init (line other) (start other) (len (code other)) (code other) (file self).

(** [self += other]: the object after the call. The method has no
    [return], so what it gives back is [None], and the statement
    [a += b] binds [a] to [None]. *)
Definition __iadd__ (self other : t) : t * unit :=
  if line self =? line other then
    ({| line := line self; start := Z.min (start self) (start other);
        end_ := Z.max (end_ self) (end_ other); code := code self; file := file self |}, tt)
  else if line self <? line other then
    ({| line := line self; start := start self; end_ := len (code self);
        code := code self; file := file self |}, tt)
  else
    ({| line := line other; start := start other; end_ := len (code other);
        code := code other; file := file self |}, tt).

(** [repr(self)] *)
Definition __repr__ (self : t) : string :=
  "Position(" +:+ PyStr.str_int (line self) +:+ ", " +:+ PyStr.str_int (start self)
  +:+ ", " +:+ PyStr.str_int (end_ self) +:+ ", "
  +:+ PyStr.quoted (Util.sanitize (code self)) +:+ ", "
  +:+ PyStr.quoted (Util.sanitize (file self)) +:+ ")".

(** A position as the constructor leaves it whose range lies in its
    line. *)
Definition valid (p : t) : Prop :=
  0 <= start p <= end_ p /\ end_ p <= len (code p)
  /\ Util.sanitize (code p) = code p.

End Position.

(* ===================================================================== *)
(** ** [value.py]: [Type.from_code] *)
(* ===================================================================== *)

Module TyCode.

(** [ch.upper()] for a code point below 256, as code points: the Latin
    small letters have a capital, which for the micro sign and for y
    with diaeresis lies above 255 and for the sharp s is two letters. *)
Definition upper_char (c : ascii) : list N :=
  let n := PyStr.code c in
  if ((97 <=? n) && (n <=? 122))%N then [(n - 32)%N]
  else if (n =? 181)%N then [924%N]
  else if (n =? 223)%N then [83%N; 83%N]
  else if ((224 <=? n) && (n <=? 254) && negb (n =? 247))%N then [(n - 32)%N]
  else if (n =? 255)%N then [376%N]
  else [n].

Fixpoint points (s : string) : list N :=
  match s with
  | "" => []
  | String c s' => PyStr.code c :: points s'
  end.

(** [s.upper()] *)
Fixpoint upper (s : string) : list N :=
  match s with
  | "" => []
  | String c s' => upper_char c ++ upper s'
  end.

(** [ch.upper() == ch] *)
Definition is_upper (c : ascii) : bool :=
  bool_decide (upper_char c = [PyStr.code c]).

(** The loop of [from_code]: an underscore goes before every character
    but the first that [upper] leaves as it is. *)
Fixpoint tok_loop (var : string) (last : bool) : string :=
  match var with
  | "" => ""
  | String ch var' =>
      (if is_upper ch && last then "_" else "") +:+ String ch (tok_loop var' true)
  end.

(** The names of [Type], [ANY] among them. *)
Definition names : list (string * Type_) :=
  [ ("STR", Ty.STR); ("NUM", Ty.NUM); ("NULL", Ty.NULL); ("BLOCK", Ty.BLOCK);
    ("UNIT", Ty.UNIT); ("TEAM", Ty.TEAM); ("UNIT_TYPE", Ty.UNIT_TYPE);
    ("ITEM_TYPE", Ty.ITEM_TYPE); ("BLOCK_TYPE", Ty.BLOCK_TYPE);
    ("LIQUID_TYPE", Ty.LIQUID_TYPE); ("CONTROLLER", Ty.CONTROLLER); ("ANY", Ty.ANY) ].

(** [Type[name]] *)
Fixpoint getitem (d : list (string * Type_)) (name : list N) : result Type_ :=
  match d with
  | [] => Raise KeyError
  | (k, v) :: d' => if bool_decide (points k = name) then Ok v else getitem d' name
  end.

(** [Type.from_code(var)] *)
Definition from_code (var : string) : result Type_ :=
  getitem names (upper (tok_loop var false)).

(** The spellings [from_code] takes: the name in camel case, with a
    small or a capital first letter. *)
Definition codes : list (string * Type_) :=
  [ ("str", Ty.STR); ("Str", Ty.STR); ("num", Ty.NUM); ("Num", Ty.NUM);
    ("null", Ty.NULL); ("Null", Ty.NULL); ("block", Ty.BLOCK); ("Block", Ty.BLOCK);
    ("unit", Ty.UNIT); ("Unit", Ty.UNIT); ("team", Ty.TEAM); ("Team", Ty.TEAM);
    ("unitType", Ty.UNIT_TYPE); ("UnitType", Ty.UNIT_TYPE);
    ("itemType", Ty.ITEM_TYPE); ("ItemType", Ty.ITEM_TYPE);
    ("blockType", Ty.BLOCK_TYPE); ("BlockType", Ty.BLOCK_TYPE);
    ("liquidType", Ty.LIQUID_TYPE); ("LiquidType", Ty.LIQUID_TYPE);
    ("controller", Ty.CONTROLLER); ("Controller", Ty.CONTROLLER);
    ("any", Ty.ANY); ("Any", Ty.ANY) ].

(** *** The texts with a given upper-case form *)

Definition all_chars : list ascii := map ascii_of_nat (seq 0 256).

(** [l] without its prefix [p] *)
Fixpoint strip_prefix (p l : list N) : option (list N) :=
  match p, l with
  | [], _ => Some l
  | a :: p', b :: l' => if (a =? b)%N then strip_prefix p' l' else None
  | _ :: _, [] => None
  end.

(** What the loop adds for the character [c]. *)
Definition step (c : ascii) (last : bool) : list N :=
  (if is_upper c && last then [95%N] else []) ++ upper_char c.

(** The texts [var] with [upper (tok_loop var last) = target], found
    character by character. *)
Fixpoint preimages (fuel : nat) (last : bool) (target : list N) : list string :=
  match fuel, target with
  | _, [] => [""]
  | O, _ :: _ => []
  | S fuel', _ :: _ =>
      flat_map (fun c =>
                  match strip_prefix (step c last) target with
                  | Some rest => map (String c) (preimages fuel' true rest)
                  | None => []
                  end) all_chars
  end.

(** The spellings found for the twelve names. *)
Definition found : list (string * Type_) :=
  flat_map (fun kv => map (fun c => (c, kv.2)) (preimages 12 false (points kv.1))) names.

End TyCode.

(* ===================================================================== *)
(** ** [generator.py]: temporaries and two more passes of the optimizer *)
(* ===================================================================== *)

Module Optimize.
Import PyStr Re.

(** *** The counters of the generator *)

(** [self.tmpv] and [self.tmpl] *)
Record Counters := {
  tmpv : nat;
  tmpl : nat
}.

(** [get_tmp_var()] and [get_tmp_label()]: the name and the generator
    after the call. *)
Definition get_tmp_var (self : Counters) : string * Counters :=
  let n := S (tmpv self) in
  ("__tmp" +:+ str_nat n, {| tmpv := n; tmpl := tmpl self |}).

Definition get_tmp_label (self : Counters) : string * Counters :=
  let n := S (tmpl self) in
  ("__mpp" +:+ str_nat n, {| tmpv := tmpv self; tmpl := n |}).

(** A run of calls, [true] for [get_tmp_var] and [false] for
    [get_tmp_label], and the names it gives. *)
Fixpoint fresh_names (calls : list bool) (self : Counters) : list string :=
  match calls with
  | [] => []
  | b :: calls' =>
      let r := if b then get_tmp_var self else get_tmp_label self in
      r.1 :: fresh_names calls' r.2
  end.

(** *** [GEN_REGEXES] (the entries the two passes use) *)

(* . *)
Definition dot_char (c : ascii) : bool := negb (Ascii.eqb c LF).

(* ^set __tmp[0-9]+ .+$ *)
Definition TMPS : regex :=
  Seqs [Lit "set __tmp"; Plus (Cls isdigit); Lit " "; Plus (Cls dot_char)].
(* ^op [a-zA-Z]+( NAME){2} .+$ where NAME is [a-zA-Z_@][a-zA-Z_0-9]* as in LABEL *)
Definition TMPOP : regex :=
  Seqs [Lit "op "; Plus (Cls isalpha);
        Seq (Lit " ") Generator.GEN_REGEXES.identifier;
        Seq (Lit " ") Generator.GEN_REGEXES.identifier;
        Lit " "; Plus (Cls dot_char)].

(** *** Loops over a list that the body writes to *)

(** What a pass holds while it runs: the lines, the text written so far
    and whether something was found. *)
Record pass := {
  lns : list string;
  tmp : string;
  found : bool
}.

(** [tmp += ln + "\n"] *)
Definition emit (ln : string) (st : pass) : pass :=
  {| lns := lns st; tmp := tmp st +:+ ln +:+ nl; found := found st |}.

(** [for i, ln in enumerate(lns)]: the body of round [i] gets the line
    that is at [i] when its turn comes. No body changes the length of
    the list, so there are as many rounds as lines. *)
Fixpoint enumerate (body : nat -> string -> pass -> result pass) (rounds i : nat)
    (st : pass) : result pass :=
  match rounds with
  | O => Ok st
  | S rounds' =>
      ln ← item (lns st) i;
      st' ← body i ln st;
      enumerate body rounds' (S i) st'
  end.

(** The place of [l[k]] for an [int] [k]: a negative [k] counts from the
    end. *)
Definition index {A} (l : list A) (k : Z) : result nat :=
  let n := Z.of_nat (length l) in
  if (0 <=? k) && (k <? n) then Ok (Z.to_nat k)
  else if (- n <=? k) && (k <? 0) then Ok (Z.to_nat (n + k))
  else Raise IndexError.

(** *** [_negative_optimize] *)

Definition negative_body (i : nat) (ln : string) (st : pass) : result pass :=
  if fullmatch TMPS ln then
    if Z.of_nat i <? Z.of_nat (length (lns st)) - 1 then
      let spl := split_on " " 2 ln in
      name ← item spl 1;
      val ← item spl 2;
      next ← item (lns st) (i + 1);
      if String.eqb next ("op sub " +:+ name +:+ " 0 " +:+ name) then
        if fullmatch Generator.GEN_REGEXES.NUM val then
          Ok {| lns := <[(i + 1)%nat := "set " +:+ name +:+ " -" +:+ val]> (lns st);
                tmp := tmp st; found := found st |}
        else Ok (emit ln st)
      else Ok (emit ln st)
    else Ok (emit ln st)
  else Ok (emit ln st).

Definition _negative_optimize (code : string) : result (string * bool) :=
  let lns := splitlines code in
  st ← enumerate negative_body (length lns) 0 {| lns := lns; tmp := ""; found := false |};
  Ok (tmp st, found st).

(** *** [_forward_use_optimize] *)

Definition forward_body (n_lines : Z) (i : nat) (ln : string) (st : pass) : result pass :=
  if fullmatch TMPS ln then
    let spl := split_on " " 2 ln in
    name ← item spl 1;
    val ← item spl 2;
    if Z.of_nat i <? Z.of_nat (length (lns st)) - n_lines then
      j ← index (lns st) (Z.of_nat i + n_lines);
      target ← item (lns st) j;
      if fullmatch TMPOP target then
        let spl2 := split_on " " 4 target in
        s2 ← item spl2 2;
        if String.eqb s2 name then
          s0 ← item spl2 0;
          s1 ← item spl2 1;
          s4 ← item spl2 4;
          Ok {| lns := <[j := s0 +:+ " " +:+ s1 +:+ " " +:+ s2 +:+ " " +:+ val +:+ " " +:+ s4]>
                         (lns st);
                tmp := tmp st; found := true |}
        else Ok (emit ln st)
      else Ok (emit ln st)
    else Ok (emit ln st)
  else Ok (emit ln st).

Definition _forward_use_optimize (code : string) (n_lines : Z) : result (string * bool) :=
  let lns := splitlines code in
  st ← enumerate (forward_body n_lines) (length lns) 0
         {| lns := lns; tmp := ""; found := false |};
  Ok (tmp st, found st).

(** *** [_negative_optimize] as a recursion over the lines that are left *)

(** What the line after [ln] becomes when the two are folded. *)
Definition negative_fold (ln next : string) : option string :=
  if fullmatch TMPS ln then
    match split_on " " 2 ln with
    | [_; name; val] =>
        if String.eqb next ("op sub " +:+ name +:+ " 0 " +:+ name)
           && fullmatch Generator.GEN_REGEXES.NUM val
        then Some ("set " +:+ name +:+ " -" +:+ val)
        else None
    | _ => None
    end
  else None.

(** The lines written for the line [cur] and the lines [rest] after it. *)
Fixpoint negative_lines (cur : string) (rest : list string) : list string :=
  match rest with
  | [] => [cur]
  | next :: rest' =>
      match negative_fold cur next with
      | Some folded => negative_lines folded rest'
      | None => cur :: negative_lines next rest'
      end
  end.

Definition negative_out (lns : list string) : list string :=
  match lns with
  | [] => []
  | cur :: rest => negative_lines cur rest
  end.

(** *** Vocabulary of the statements about the passes *)

Definition nobreak (s : string) : Prop := all (fun c => negb (islinebreak c)) s = true.

(** A character of a number as Python prints it. *)
Definition number_char (c : ascii) : bool :=
  isdigit_or_minus c || existsb (Ascii.eqb c) (list_ascii_of_string ".e+naif").

(** What holds before round [i] of [_forward_use_optimize] over the
    lines [lns0]: as long as nothing was found the lines are untouched
    and the text holds the first [i] of them, afterwards it holds fewer
    than [i] lines. *)
Definition forward_inv (lns0 : list string) (i : nat) (st : pass) : Prop :=
  length (lns st) = length lns0 /\ nobreaks (lns st)
  /\ exists out, tmp st = unlines out /\ nobreaks out
       /\ if found st then (length out < i)%nat
          else out = take i lns0 /\ lns st = lns0.

(** A temporary: [__tmp] and digits. *)
Definition temporary (name : string) : Prop :=
  exists d, name = "__tmp" +:+ d /\ d <> "" /\ all isdigit d = true.

(** A line that [_precalc_optimize] folds: it matches [MCALC] and its
    opcode is a key of [PRECALC]. *)
Definition foldable (m : Libm) (ln : string) : bool :=
  fullmatch Generator.GEN_REGEXES.MCALC ln
  && match split_on " " 4 ln with
     | _ :: op :: _ =>
         match dict_get (Generator.PRECALC m) op with
         | Some _ => true
         | None => false
         end
     | _ => false
     end.

(** The comparisons of [PRECALC] and what they compute. *)
Definition comparisons : list (string * (PyFloat.float -> PyFloat.float -> bool)) :=
  [ ("lessThan", PyFloat.ltb);
    ("lessThanEq", PyFloat.leb);
    ("greaterThan", fun a b => PyFloat.ltb b a);
    ("greaterThanEq", fun a b => PyFloat.leb b a);
    ("strictEqual", PyFloat.eqb) ].

End Optimize.

(* ===================================================================== *)
(** ** [generator.py]: vocabulary of further statements about [postprocess] *)
(* ===================================================================== *)

Module Post.
Import PyStr Re Generator.

(** A jump to a label: [>label], [>label var] or [>label a == b]. *)
Definition symbolic_jump (ln : string) : bool :=
  fullmatch GEN_REGEXES.JUMP ln || fullmatch GEN_REGEXES.CJMP ln
  || fullmatch GEN_REGEXES.EJMP ln.

(** The label it names: its first word without the [>]. *)
Definition jump_label (ln : string) : string :=
  tail (default "" (head (split ln))).


(** A [set] line has a second and a third word, which the first loop
    compares. *)
Definition set_has_operands (ln : string) : bool :=
  match split ln with
  | w :: ws => negb (String.eqb w "set") || (2 <=? length ws)%nat
  | [] => true
  end.

(** The label that a jump names is a line of the text. *)
Definition label_defined (lines : list string) (ln : string) : bool :=
  negb (symbolic_jump ln) || existsb (String.eqb ("<" +:+ jump_label ln)) lines.

(** A text as the generator hands it to [postprocess]: clean lines (a
    native line is read without its dot), every [set] with two operands,
    every jump to a label of the text, and a line that is neither a label
    nor a self-assignment. ([int] is read as the language defines it,
    without the bound on the number of digits that an interpreter may
    set, so the line number of a native jump is always read.) *)
Definition accepted (code : string) : Prop :=
  let lines := map undot (splitlines code) in
  Forall clean lines
  /\ Forall (fun ln => set_has_operands ln = true) lines
  /\ Forall (fun ln => label_defined lines ln = true) lines
  /\ List.filter kept lines <> [].

(** What [postprocess] is seen to raise: [IndexError], or its own error
    for a jump to a label that no line defines. *)
Definition expected (e : exn) : Prop :=
  e = IndexError \/ exists name, e = unknown_label name.

End Post.

(* ===================================================================== *)
(** ** [node_rewrite.py]: [scope_rename] and [FunctionNode] *)
(* ===================================================================== *)

Section Functions.
Context (constants : Constants).

(** Modelled from the spec: [Scopes.rename(name, declare)] of [scope.py],
    the mangled name of [name] in the scope that is open; with [declare]
    it registers the name as well. Which name it gives is left open. The
    calls with one argument are taken to pass [False]. *)
Context (Scopes_rename : string -> bool -> Gen string).

Definition rename_all (scope_rename : Node -> Gen Node)
  : list Node -> Gen (list Node) :=
  fix loop (code : list Node) : Gen (list Node) :=
    match code with
    | [] => mret []
    | node :: code' => node' ← scope_rename node; code'' ← loop code'; mret (node' :: code'')
    end.

Definition rename_operands (scope_rename : Node -> Gen Node)
  : list (string * Node) -> Gen (list (string * Node)) :=
  fix loop (right_ : list (string * Node)) : Gen (list (string * Node)) :=
    match right_ with
    | [] => mret []
    | (op, node) :: right' =>
        node' ← scope_rename node; right'' ← loop right'; mret ((op, node') :: right'')
    end.

(** [scope_rename] of every node class: the method overwrites the names
    in the node, the model gives the node with the new names. A class
    that does not define it inherits the one of [Node], which does
    nothing. *)
Fixpoint scope_rename (n : Node) {struct n} : Gen Node :=
  match n with
  | CodeBlockNode code name =>
      code' ← rename_all scope_rename code;
      mret (CodeBlockNode code' name)
  | DeclarationNode var_type var_name var_const value =>
      var_name' ← Scopes_rename var_name true;
      match value with
      | Some e => e' ← scope_rename e; mret (DeclarationNode var_type var_name' var_const (Some e'))
      | None => mret (DeclarationNode var_type var_name' var_const None)
      end
  | AssignmentNode var op value =>
      var' ← Scopes_rename var false;
      value' ← scope_rename value;
      mret (AssignmentNode var' op value')
  | BinaryOpNode left_ right_ =>
      left' ← scope_rename left_;
      match right_ with
      | Some l => l' ← rename_operands scope_rename l; mret (BinaryOpNode left' (Some l'))
      | None => raise TypeError
      end
  | UnaryOpNode op value =>
      value' ← scope_rename value;
      mret (UnaryOpNode op value')
  | CallNode name params =>
      params' ← rename_all scope_rename params;
      mret (CallNode name params')
  | VariableValueNode value =>
      value' ← Scopes_rename value false;
      mret (VariableValueNode value')
  | ReturnNode func value =>
      match value with
      | Some e => e' ← scope_rename e; mret (ReturnNode func (Some e'))
      | None => mret (ReturnNode func None)
      end
  | _ => mret n
  end.



End Functions.


(* ===================================================================== *)
(** * Properties *)
(* ===================================================================== *)

#[local] Arguments dict_get : simpl never.
#[local] Arguments dict_item : simpl never.
#[local] Arguments String.eqb : simpl never.

(** ** Strings *)

Module StrFacts.
Import PyStr.

Lemma app_nil_l (s : string) : "" +:+ s = s.
Proof. reflexivity. Qed.

Lemma app_cons (c : ascii) (s t : string) : String c s +:+ t = String c (s +:+ t).
Proof. reflexivity. Qed.

Lemma app_nil_r (s : string) : s +:+ "" = s.
Proof. induction s as [|c s IH]; [reflexivity|]. now rewrite app_cons, IH. Qed.

Lemma app_assoc (s t u : string) : (s +:+ t) +:+ u = s +:+ t +:+ u.
Proof. induction s as [|c s IH]; [reflexivity|]. now rewrite !app_cons, IH. Qed.

Lemma app_eq_nil (s t : string) : s +:+ t = "" -> s = "" /\ t = "".
Proof. destruct s; [now rewrite app_nil_l|]. rewrite app_cons. discriminate. Qed.

Lemma all_app p s t : all p (s +:+ t) = all p s && all p t.
Proof.
  induction s as [|c s IH]; [reflexivity|].
  rewrite app_cons. simpl. now rewrite IH, andb_assoc.
Qed.

Lemma all_impl (p q : ascii -> bool) s :
  (forall c, p c = true -> q c = true) -> all p s = true -> all q s = true.
Proof.
  intros Hpq. induction s as [|c s IH]; [reflexivity|]. simpl.
  intros [Hc Hs]%andb_true_iff. rewrite (Hpq c Hc). simpl. now apply IH.
Qed.

Lemma last_char_cons c s : s <> "" -> last_char (String c s) = last_char s.
Proof. destruct s; [congruence|reflexivity]. Qed.

Lemma last_char_app s t : t <> "" -> last_char (s +:+ t) = last_char t.
Proof.
  intros Ht. induction s as [|c s IH]; [reflexivity|].
  rewrite app_cons, last_char_cons; [exact IH|].
  intros [_ H]%app_eq_nil. contradiction.
Qed.

Lemma first_char_app s t : s <> "" -> first_char (s +:+ t) = first_char s.
Proof. destruct s; [congruence|reflexivity]. Qed.

Lemma clean_nonempty s : clean s -> s <> "".
Proof. intros [H _] ->. exact H. Qed.

Lemma islinebreak_isspace c : islinebreak c = true -> isspace c = true.
Proof.
  unfold islinebreak, isspace. generalize (code c). intros n H.
  repeat match goal with
         | H : (_ || _)%bool = true |- _ => apply orb_true_iff in H; destruct H as [H|H]
         | H : (_ && _)%bool = true |- _ => apply andb_true_iff in H; destruct H as [? ?]
         end;
  repeat match goal with
         | H : (_ <=? _)%N = true |- _ => apply N.leb_le in H
         | H : (_ =? _)%N = true |- _ => apply N.eqb_eq in H
         end.
  - replace ((9 <=? n)%N) with true by (symmetry; apply N.leb_le; lia).
    replace ((n <=? 13)%N) with true by (symmetry; apply N.leb_le; lia). reflexivity.
  - replace ((28 <=? n)%N) with true by (symmetry; apply N.leb_le; lia).
    replace ((n <=? 31)%N) with true by (symmetry; apply N.leb_le; lia).
    now rewrite !orb_true_r.
  - subst n. reflexivity.
Qed.

(** *** [splitlines] *)

Lemma splitlines_nobreak_cons c s :
  islinebreak c = false ->
  splitlines (String c s) =
    match splitlines s with
    | l :: ls => String c l :: ls
    | [] => [String c ""]
    end.
Proof. intros H. simpl. now rewrite H. Qed.

Lemma splitlines_nl s : splitlines (nl +:+ s) = "" :: splitlines s.
Proof. destruct s; reflexivity. Qed.

(** A line and its line feed, then the rest. *)
Lemma splitlines_line l s :
  all (fun c => negb (islinebreak c)) l = true ->
  splitlines (l +:+ nl +:+ s) = l :: splitlines s.
Proof.
  induction l as [|c l IH]; intros Hl.
  - rewrite app_nil_l. apply splitlines_nl.
  - simpl in Hl. apply andb_true_iff in Hl as [Hc Hl].
    rewrite app_cons, splitlines_nobreak_cons by now apply negb_true_iff.
    now rewrite IH.
Qed.

Lemma splitlines_unlines ls : nobreaks ls -> splitlines (unlines ls) = ls.
Proof.
  induction 1 as [|l ls Hl Hls IH]; [reflexivity|].
  simpl. now rewrite splitlines_line, IH.
Qed.

Lemma unlines_app ls ls' : unlines (ls ++ ls') = unlines ls +:+ unlines ls'.
Proof.
  induction ls as [|l ls IH]; [reflexivity|].
  simpl. now rewrite IH, !app_assoc.
Qed.

Lemma unlines_snoc ls l : unlines (ls ++ [l]) = unlines ls +:+ l +:+ nl.
Proof. rewrite unlines_app. simpl. now rewrite app_nil_r. Qed.

(** The lines of a text hold no line break. *)
Lemma splitlines_nobreaks s : nobreaks (splitlines s).
Proof.
  unfold nobreaks.
  assert (H : forall n s, (String.length s < n)%nat ->
              Forall (fun l => all (fun c => negb (islinebreak c)) l = true) (splitlines s)).
  { clear s. induction n as [|n IH]; intros s Hn; [lia|].
    destruct s as [|c s]; [constructor|].
    simpl in Hn. simpl.
    destruct (islinebreak c) eqn:Hc.
    - destruct s as [|d s]; [repeat constructor|].
      destruct (Ascii.eqb c CR && Ascii.eqb d LF).
      + constructor; [reflexivity|]. apply IH. simpl in Hn. lia.
      + constructor; [reflexivity|]. apply IH. lia.
    - assert (Hs : Forall (fun l => all (fun c => negb (islinebreak c)) l = true) (splitlines s))
        by (apply IH; lia).
      destruct (splitlines s) as [|l ls].
      + repeat constructor. simpl. now rewrite Hc.
      + inversion Hs; subst. constructor; [|assumption]. simpl. now rewrite Hc. }
  apply (H (S (String.length s))). lia.
Qed.

Lemma join_nl_unlines ls l : unlines ls +:+ l = join nl (ls ++ [l]).
Proof.
  induction ls as [|x ls IH]; [reflexivity|].
  simpl. rewrite !app_assoc, IH. destruct (ls ++ [l]) eqn:E; [|reflexivity].
  now destruct ls.
Qed.

Lemma unlines_join ls : ls <> [] -> unlines ls = join nl ls +:+ nl.
Proof.
  intros Hne. destruct (exists_last Hne) as (ls' & l & ->).
  now rewrite unlines_snoc, <- join_nl_unlines, app_assoc.
Qed.

(** *** [strip] *)

Lemma lstrip_id s : notspace (first_char s) -> lstrip s = s.
Proof. destruct s as [|c s]; [contradiction|]. simpl. now intros ->. Qed.

Lemma rstrip_id s : notspace (last_char s) -> rstrip s = s.
Proof.
  induction s as [|c s IH]; [contradiction|].
  destruct s as [|d s].
  - simpl. now intros ->.
  - intros H. change (last_char (String c (String d s))) with (last_char (String d s)) in H.
    specialize (IH H). cbn [rstrip]. cbn [rstrip] in IH. rewrite IH. reflexivity.
Qed.

Lemma rstrip_app_space s c : isspace c = true -> rstrip (s +:+ String c "") = rstrip s.
Proof.
  intros Hc. induction s as [|d s IH].
  - simpl. now rewrite Hc.
  - rewrite app_cons. cbn [rstrip]. now rewrite IH.
Qed.

Lemma strip_id s : notspace (first_char s) -> notspace (last_char s) -> strip s = s.
Proof. intros Hf Hl. unfold strip. rewrite lstrip_id by assumption. now apply rstrip_id. Qed.

Lemma strip_clean s : clean s -> strip s = s.
Proof. intros (Hf & Hl & _). now apply strip_id. Qed.

Lemma isspace_nl : isspace LF = true.
Proof. reflexivity. Qed.

Lemma strip_app_nl s :
  notspace (first_char s) -> notspace (last_char s) -> strip (s +:+ nl) = s.
Proof.
  intros Hf Hl. unfold strip.
  rewrite lstrip_id.
  - unfold nl. rewrite rstrip_app_space by reflexivity. now apply rstrip_id.
  - rewrite first_char_app; [assumption|]. intros ->. contradiction.
Qed.

(** The text of clean lines, joined by line feeds. *)
Lemma first_char_join l ls : l <> "" -> first_char (join nl (l :: ls)) = first_char l.
Proof.
  intros Hl. destruct ls; [reflexivity|].
  change (join nl (l :: s :: ls)) with (l +:+ nl +:+ join nl (s :: ls)).
  now apply first_char_app.
Qed.

Lemma last_char_join ls l : l <> "" -> last_char (join nl (ls ++ [l])) = last_char l.
Proof.
  intros Hl. rewrite <- join_nl_unlines. now apply last_char_app.
Qed.

Lemma strip_join ls : Forall clean ls -> strip (join nl ls) = join nl ls.
Proof.
  intros Hls. destruct ls as [|l ls]; [reflexivity|].
  apply strip_id.
  - inversion Hls; subst. rewrite first_char_join by now apply clean_nonempty.
    now destruct H1.
  - assert (Hne : l :: ls <> []) by discriminate.
    destruct (exists_last Hne) as (ls' & l' & E). rewrite E in *.
    apply Forall_app in Hls as [_ Hl']. inversion Hl'; subst.
    rewrite last_char_join by now apply clean_nonempty.
    now destruct H1 as (_ & ? & _).
Qed.

Lemma strip_unlines ls : Forall clean ls -> strip (unlines ls) = join nl ls.
Proof.
  intros Hls. destruct ls as [|l ls]; [reflexivity|].
  rewrite unlines_join by discriminate.
  assert (Hne : l :: ls <> []) by discriminate.
  apply strip_app_nl.
  - inversion Hls; subst. rewrite first_char_join by now apply clean_nonempty.
    now destruct H1.
  - destruct (exists_last Hne) as (ls' & l' & E). rewrite E in *.
    apply Forall_app in Hls as [_ Hl']. inversion Hl'; subst.
    rewrite last_char_join by now apply clean_nonempty.
    now destruct H1 as (_ & ? & _).
Qed.

Lemma splitlines_join ls : Forall clean ls -> splitlines (join nl ls) = ls.
Proof.
  intros Hls.
  destruct ls as [|l ls] using rev_ind; [reflexivity|]. clear IHls.
  apply Forall_app in Hls as [Hls Hl]. inversion Hl as [|? ? Hc _]; subst.
  rewrite <- join_nl_unlines.
  assert (Hnb : nobreaks ls).
  { unfold nobreaks. eapply Forall_impl; [exact Hls|]. now intros ? (_ & _ & ?). }
  clear Hls Hl. induction Hnb as [|x ls Hx Hnb IH].
  - rewrite app_nil_l.
    assert (Hne : l <> "") by now apply clean_nonempty.
    destruct Hc as (_ & _ & Hb). revert Hne Hb. clear.
    induction l as [|c l IH]; [congruence|]. intros _.
    simpl. intros [Hc Hl]%andb_true_iff. apply negb_true_iff in Hc. rewrite Hc.
    destruct l as [|d l]; [reflexivity|].
    rewrite IH by (assumption || discriminate). reflexivity.
  - simpl. rewrite !app_assoc, splitlines_line by assumption. now rewrite IH.
Qed.

End StrFacts.

(** ** Regular expressions *)

Module ReFacts.
Import PyStr Re StrFacts.

Lemma matches_Nul s : ~ matches Nul s.
Proof. intros H. inversion H. Qed.

Lemma matches_Eps_inv s : matches Eps s -> s = "".
Proof. intros H. now inversion H. Qed.

Lemma matches_Cls_inv p s : matches (Cls p) s -> exists c, s = String c "" /\ p c = true.
Proof. intros H. inversion H; subst. eauto. Qed.

Lemma matches_Seq_inv r1 r2 s :
  matches (Seq r1 r2) s -> exists s1 s2, s = s1 +:+ s2 /\ matches r1 s1 /\ matches r2 s2.
Proof. intros H. inversion H; subst. eauto. Qed.

Lemma matches_Alt_inv r1 r2 s : matches (Alt r1 r2) s -> matches r1 s \/ matches r2 s.
Proof. intros H. inversion H; subst; auto. Qed.

Lemma nullable_matches r : nullable r = true <-> matches r "".
Proof.
  induction r as [| |p|r1 IH1 r2 IH2|r1 IH1 r2 IH2|r IH]; simpl.
  - split; [discriminate|]. intros H. inversion H.
  - split; [constructor|reflexivity].
  - split; [discriminate|]. intros H. inversion H.
  - rewrite andb_true_iff, IH1, IH2. split.
    + intros [H1 H2]. change "" with ("" +:+ ""). now constructor.
    + intros (s1 & s2 & E & H1 & H2)%matches_Seq_inv.
      symmetry in E. apply app_eq_nil in E as [-> ->]. now split.
  - rewrite orb_true_iff, IH1, IH2. split.
    + intros [H|H]; [now apply matches_Alt_l | now apply matches_Alt_r].
    + intros H. inversion H; subst; auto.
  - split; [constructor|reflexivity].
Qed.

Lemma matches_seq' r1 r2 s : matches (seq' r1 r2) s <-> matches (Seq r1 r2) s.
Proof.
  assert (HNl : forall r, matches (Seq Nul r) s <-> matches Nul s).
  { intros r. split; intros H; inversion H; subst.
    match goal with H : matches Nul _ |- _ => inversion H end. }
  assert (HNr : forall r, matches (Seq r Nul) s <-> matches Nul s).
  { intros r. split; intros H; inversion H; subst.
    match goal with H : matches Nul _ |- _ => inversion H end. }
  assert (HE : forall r, matches (Seq Eps r) s <-> matches r s).
  { intros r. split; intros H.
    - apply matches_Seq_inv in H as (s1 & s2 & -> & H1 & H2).
      apply matches_Eps_inv in H1 as ->. exact H2.
    - change s with ("" +:+ s). constructor; [constructor|exact H]. }
  destruct r1, r2; cbn [seq']; rewrite ?HNl, ?HNr, ?HE; tauto.
Qed.

Lemma matches_alt' r1 r2 s : matches (alt' r1 r2) s <-> matches (Alt r1 r2) s.
Proof.
  assert (HNl : forall r, matches (Alt Nul r) s <-> matches r s).
  { intros r. split; intros H.
    - inversion H; subst; [|assumption].
      match goal with H : matches Nul _ |- _ => inversion H end.
    - now apply matches_Alt_r. }
  assert (HNr : forall r, matches (Alt r Nul) s <-> matches r s).
  { intros r. split; intros H.
    - inversion H; subst; [assumption|].
      match goal with H : matches Nul _ |- _ => inversion H end.
    - now apply matches_Alt_l. }
  destruct r1, r2; cbn [alt']; rewrite ?HNl, ?HNr; tauto.
Qed.

(** A non-empty word of [Star r] opens with a non-empty word of [r]. *)
Lemma matches_Star_cons r c s :
  matches (Star r) (String c s) ->
  exists s1 s2, s = s1 +:+ s2 /\ matches r (String c s1) /\ matches (Star r) s2.
Proof.
  intros H. remember (Star r) as r' eqn:Er. remember (String c s) as w eqn:Ew.
  revert s Ew.
  induction H as [| | | | | |r0 s1 s2 H1 _ H2 IH]; intros s' Ew; try discriminate.
  injection Er as ->.
  destruct s1 as [|d s1].
  - rewrite app_nil_l in Ew. now apply IH.
  - rewrite app_cons in Ew. injection Ew as -> <-. eauto.
Qed.

Lemma deriv_matches r c s : matches (deriv c r) s <-> matches r (String c s).
Proof.
  revert s. induction r as [| |p|r1 IH1 r2 IH2|r1 IH1 r2 IH2|r IH]; intros s; cbn [deriv].
  - split; intros H; inversion H.
  - split; intros H; inversion H.
  - destruct (p c) eqn:Hp.
    + split; intros H; inversion H; subst; now constructor.
    + split; intros H; inversion H; subst. congruence.
  - assert (Hseq : matches (Seq (deriv c r1) r2) s \/ (nullable r1 = true /\ matches (deriv c r2) s)
                   <-> matches (Seq r1 r2) (String c s)).
    { split.
      - intros [H|[Hn H]].
        + apply matches_Seq_inv in H as (s1 & s2 & -> & H1 & H2).
          apply IH1 in H1. change (String c (s1 +:+ s2)) with (String c s1 +:+ s2).
          now constructor.
        + apply nullable_matches in Hn. apply IH2 in H.
          change (String c s) with ("" +:+ String c s). now constructor.
      - intros (s1 & s2 & E & H1 & H2)%matches_Seq_inv.
        destruct s1 as [|d s1].
        + rewrite app_nil_l in E. subst s2. right. split.
          * now apply nullable_matches.
          * now apply IH2.
        + rewrite app_cons in E. injection E as <- ->. left.
          constructor; [now apply IH1|assumption]. }
    destruct (nullable r1) eqn:Hn.
    + rewrite matches_alt', <- Hseq. split.
      * intros H. inversion H; subst; [left; now apply matches_seq'|right; now split].
      * intros [H|[_ H]]; [apply matches_Alt_l; now apply matches_seq'|now apply matches_Alt_r].
    + rewrite matches_seq', <- Hseq. split; [now left|].
      intros [H|[H _]]; [assumption|discriminate].
  - rewrite matches_alt'. split.
    + intros H. inversion H; subst; [apply matches_Alt_l; now apply IH1
                                    |apply matches_Alt_r; now apply IH2].
    + intros H. inversion H; subst; [apply matches_Alt_l; now apply IH1
                                    |apply matches_Alt_r; now apply IH2].
  - rewrite matches_seq'. split.
    + intros (s1 & s2 & -> & H1 & H2)%matches_Seq_inv.
      apply IH in H1. change (String c (s1 +:+ s2)) with (String c s1 +:+ s2).
      now constructor.
    + intros H. apply matches_Star_cons in H as (s1 & s2 & -> & H1 & H2).
      constructor; [now apply IH|assumption].
Qed.

(** [fullmatch] decides the language of the pattern. *)
Theorem fullmatch_matches r s : fullmatch r s = true <-> matches r s.
Proof.
  revert r. induction s as [|c s IH]; intros r; cbn [fullmatch].
  - apply nullable_matches.
  - rewrite IH. apply deriv_matches.
Qed.

Lemma matches_Lit p s : matches (Lit p) s -> s = p.
Proof.
  revert s. induction p as [|a p IH]; intros s H; cbn [Lit] in H.
  - now inversion H.
  - apply matches_Seq_inv in H as (s1 & s2 & -> & H1 & H2).
    apply matches_Cls_inv in H1 as (c & -> & Hc).
    apply Ascii.eqb_eq in Hc as <-. now rewrite (IH _ H2).
Qed.

Lemma startswith_app p s : startswith p (p +:+ s) = true.
Proof.
  induction p as [|a p IH]; [reflexivity|].
  rewrite app_cons. cbn [startswith]. now rewrite Ascii.eqb_refl.
Qed.

(** A pattern that opens with a literal matches only lines that open
    with it. *)
Lemma fullmatch_Lit_Seq p r s :
  fullmatch (Seq (Lit p) r) s = true -> startswith p s = true.
Proof.
  intros (s1 & s2 & -> & H1 & H2)%fullmatch_matches%matches_Seq_inv.
  apply matches_Lit in H1 as ->. apply startswith_app.
Qed.

End ReFacts.

(** ** Words and pieces *)

Module SplitFacts.
Import PyStr StrFacts.

Lemma split_cons_space c s : isspace c = true -> split (String c s) = split s.
Proof. intros H. simpl. now rewrite H. Qed.

(** The words of [split] are words. *)
Lemma split_words s : Forall word (split s).
Proof.
  induction s as [|c s IH]; [constructor|].
  cbn [split]. destruct (isspace c) eqn:Hc; [assumption|].
  assert (Hw : word (String c "")).
  { split; [discriminate|]. simpl. now rewrite Hc. }
  destruct s as [|d s]; [constructor; [exact Hw|constructor]|].
  destruct (isspace d) eqn:Hd; [now constructor|].
  destruct (split (String d s)) as [|w ws]; [constructor; [exact Hw|constructor]|].
  inversion IH as [|? ? [Hne Hall] Hws]; subst.
  constructor; [|assumption].
  split; [discriminate|]. simpl. now rewrite Hc, Hall.
Qed.

Lemma item_Ok {A} (l : list A) i x : item l i = Ok x -> l !! i = Some x.
Proof. unfold item. destruct (l !! i); [now intros [= ->]|discriminate]. Qed.

Lemma item_split_word s i w : item (split s) i = Ok w -> word w.
Proof.
  intros H%item_Ok. eapply Forall_lookup_1; [apply split_words|exact H].
Qed.

Lemma word_nobreak w : word w -> all (fun c => negb (islinebreak c)) w = true.
Proof.
  intros [_ H]. eapply all_impl; [|exact H].
  intros c Hc. apply negb_true_iff. apply negb_true_iff in Hc.
  destruct (islinebreak c) eqn:E; [|reflexivity].
  apply islinebreak_isspace in E. congruence.
Qed.

Lemma all_last_char p s c : all p s = true -> last_char s = Some c -> p c = true.
Proof.
  induction s as [|d s IH]; [discriminate|].
  simpl. intros [Hd Hs]%andb_true_iff. destruct s as [|e s].
  - now intros [= <-].
  - intros H. now apply IH.
Qed.

Lemma last_char_nonempty s : s <> "" -> exists c, last_char s = Some c.
Proof.
  induction s as [|d s IH]; [congruence|]. intros _.
  destruct s as [|e s]; [now exists d|]. apply IH. discriminate.
Qed.

Lemma word_clean w : word w -> clean w.
Proof.
  intros Hw. pose proof (word_nobreak w Hw) as Hb. destruct Hw as [Hne Hall].
  split; [|split; [|assumption]].
  - destruct w as [|c w]; [congruence|]. simpl in *.
    apply andb_true_iff in Hall as [Hc _]. now apply negb_true_iff.
  - destruct (last_char_nonempty w Hne) as [c Hc]. rewrite Hc. simpl.
    apply negb_true_iff. exact (all_last_char _ _ _ Hall Hc).
Qed.

Lemma all_tail p s : all p s = true -> all p (tail s) = true.
Proof. destruct s; [auto|]. simpl. now intros [_ H]%andb_true_iff. Qed.

(** *** [split_on] *)

Lemma split_on_nonempty sep n s : split_on sep n s <> [].
Proof.
  revert n. induction s as [|c s IH]; intros [|n]; simpl; try discriminate.
  destruct (Ascii.eqb c sep); [discriminate|].
  specialize (IH (S n)). destruct (split_on sep (S n) s); [congruence|discriminate].
Qed.

(** Joining the pieces with the separator gives the string back. *)
Lemma join_split_on sep n s : join (String sep "") (split_on sep n s) = s.
Proof.
  revert n. induction s as [|c s IH]; intros [|n]; try reflexivity.
  cbn [split_on]. destruct (Ascii.eqb_spec c sep) as [->|Hne].
  - specialize (IH n). pose proof (split_on_nonempty sep n s) as Hn.
    destruct (split_on sep n s) as [|p ps]; [congruence|].
    change (join (String sep "") ("" :: p :: ps))
      with ("" +:+ String sep "" +:+ join (String sep "") (p :: ps)).
    now rewrite IH.
  - specialize (IH (S n)). pose proof (split_on_nonempty sep (S n) s) as Hn.
    destruct (split_on sep (S n) s) as [|p ps]; [congruence|].
    destruct ps as [|p' ps].
    + simpl in *. now rewrite IH.
    + change (join (String sep "") (String c p :: p' :: ps))
        with (String c (p +:+ String sep "" +:+ join (String sep "") (p' :: ps))).
      change (join (String sep "") (p :: p' :: ps))
        with (p +:+ String sep "" +:+ join (String sep "") (p' :: ps)) in IH.
      now rewrite IH.
Qed.

Lemma split_on_length sep n s : (length (split_on sep n s) <= S n)%nat.
Proof.
  revert n. induction s as [|c s IH]; intros [|n]; simpl; try lia.
  destruct (Ascii.eqb c sep).
  - simpl. specialize (IH n). lia.
  - specialize (IH (S n)). destruct (split_on sep (S n) s); simpl in *; lia.
Qed.

Lemma split_on_all p sep n s : all p s = true -> Forall (fun x => all p x = true) (split_on sep n s).
Proof.
  revert n. induction s as [|c s IH]; intros [|n] H; simpl; try now repeat constructor.
  simpl in H. apply andb_true_iff in H as [Hc Hs].
  destruct (Ascii.eqb c sep).
  - constructor; [reflexivity|now apply IH].
  - specialize (IH (S n) Hs). destruct (split_on sep (S n) s) as [|x xs].
    + repeat constructor. simpl. now rewrite Hc.
    + inversion IH; subst. constructor; [|assumption]. simpl. now rewrite Hc.
Qed.

(** *** [str(n)] *)

Lemma string_of_uint_digits d : all isdigit_or_minus (NilEmpty.string_of_uint d) = true.
Proof. induction d; simpl; auto. Qed.

Lemma str_int_chars z : all isdigit_or_minus (str_int z) = true.
Proof.
  unfold str_int, NilZero.string_of_int.
  destruct (Z.to_int z) as [d|d]; unfold NilZero.string_of_uint.
  - destruct d; try reflexivity; apply string_of_uint_digits.
  - simpl. destruct d; try reflexivity; apply string_of_uint_digits.
Qed.

Lemma str_int_nonempty z : str_int z <> "".
Proof.
  unfold str_int, NilZero.string_of_int.
  destruct (Z.to_int z) as [d|d]; unfold NilZero.string_of_uint; destruct d; discriminate.
Qed.

Lemma isdigit_or_minus_notspace c : isdigit_or_minus c = true -> negb (isspace c) = true.
Proof.
  unfold isdigit_or_minus, isdigit, in_range, isspace.
  intros [H|H]%orb_true_iff.
  - apply andb_true_iff in H as [H1 H2]. apply N.leb_le in H1, H2.
    change (code "0") with 48%N in H1. change (code "9") with 57%N in H2.
    apply negb_true_iff.
    repeat match goal with
           | |- (_ || _)%bool = false => apply orb_false_iff; split
           | |- (_ && _)%bool = false => apply andb_false_iff
           end;
    try (right; apply N.leb_gt; lia); try (apply N.eqb_neq; lia).
  - apply Ascii.eqb_eq in H as ->. reflexivity.
Qed.

Lemma str_int_word z : word (str_int z).
Proof.
  split; [apply str_int_nonempty|].
  eapply all_impl; [|apply str_int_chars]. apply isdigit_or_minus_notspace.
Qed.

End SplitFacts.

(** ** [postprocess] *)

Module PostprocessFacts.
Import PyStr Re StrFacts ReFacts SplitFacts Generator.

#[local] Arguments String.append : simpl never.

Lemma startswith_inv p s : startswith p s = true -> exists s', s = p +:+ s'.
Proof.
  revert s. induction p as [|a p IH]; intros s; [now exists s|].
  destruct s as [|c s]; [discriminate|]. cbn [startswith].
  intros [Ha Hp]%andb_true_iff. apply Ascii.eqb_eq in Ha as ->.
  destruct (IH s Hp) as [s' ->]. now exists s'.
Qed.


(** A line that opens with [jump ] is a jump and no self-assignment. *)
Lemma jump_is_jump l : startswith "jump " l = true -> is_jump l = true.
Proof. intros H. unfold is_jump. rewrite H. now rewrite !orb_true_r. Qed.

Lemma jump_not_self_assignment l :
  startswith "jump " l = true -> is_self_assignment l = false.
Proof.
  intros [s ->]%startswith_inv. unfold is_self_assignment.
  change (split ("jump " +:+ s)) with ("jump" :: split (String " " s)).
  destruct (split (String " " s)) as [|a [|b ws]]; reflexivity.
Qed.

(** *** The first loop *)

Lemma self_set_Ok ln b : self_set ln = Ok b -> b = is_self_assignment ln.
Proof.
  unfold self_set, is_self_assignment.
  destruct (split ln) as [|w rest]; [now intros [= <-]|].
  destruct (String.eqb w "set"); [|intros [= <-]; now destruct rest as [|? [|? ?]]].
  destruct rest as [|a [|c ws]]; try discriminate.
  now intros [= <-].
Qed.

(** The first loop, when it raises nothing, keeps the lines that are no
    label and no self-assignment, in their order. *)
Lemma resolve_labels_spec lns i lc tmp labels tmp' labels' :
  resolve_labels lns i lc tmp labels = Ok (tmp', labels') ->
  tmp' = tmp +:+ unlines (List.filter kept (map undot lns)).
Proof.
  revert i lc tmp labels.
  induction lns as [|ln lns IH]; intros i lc tmp labels.
  - intros [= <- _]. simpl. now rewrite app_nil_r.
  - cbn [resolve_labels map List.filter]. unfold kept at 1, is_label.
    destruct (fullmatch GEN_REGEXES.LABEL (undot ln)) eqn:Hlab.
    + cbn [negb andb]. apply IH.
    + destruct (self_set (undot ln)) as [b|] eqn:Hb; [|discriminate].
      apply self_set_Ok in Hb as ->. cbn [mbind result_bind negb andb].
      destruct (is_self_assignment (undot ln)); cbn [negb].
      * apply IH.
      * intros ->%IH. cbn [unlines]. now rewrite !app_assoc.
Qed.

(** *** The second loop *)

Lemma app_nonempty_r s t : t <> "" -> s +:+ t <> "".
Proof. intros Ht [_ E]%app_eq_nil. contradiction. Qed.

Lemma clean_jump_text a b :
  all (fun c => negb (islinebreak c)) a = true -> clean b ->
  clean ("jump " +:+ a +:+ " " +:+ b).
Proof.
  intros Ha (Hf & Hl & Hb).
  assert (Hne : b <> "") by (intros ->; contradiction).
  split; [|split].
  - reflexivity.
  - rewrite !last_char_app; try assumption.
    + now apply app_nonempty_r.
    + now repeat apply app_nonempty_r.
  - rewrite !all_app, Ha, Hb. reflexivity.
Qed.

Lemma clean_nobreak s : clean s -> all (fun c => negb (islinebreak c)) s = true.
Proof. now intros (_ & _ & H). Qed.

Lemma line_ok_refl l : line_ok l l.
Proof. unfold line_ok. intuition. Qed.

Lemma line_ok_jump l l' :
  is_jump l = true -> startswith "jump " l' = true -> clean l' -> line_ok l l'.
Proof.
  intros Hj Hs Hc. unfold line_ok.
  split; [congruence|].
  split; [intros _; now apply jump_is_jump|].
  split; [intros _; now apply jump_not_self_assignment|].
  intros _. exact Hc.
Qed.

Lemma line_ok_trans a b c : line_ok a b -> line_ok b c -> line_ok a c.
Proof.
  intros (H1 & H2 & H3 & H4) (H1' & H2' & H3' & H4'). unfold line_ok.
  split; [|split; [|split]].
  - intros Hj. pose proof (H1 Hj) as ->. auto.
  - auto.
  - auto.
  - auto.
Qed.

Lemma jump_line_ok labels l l' name cond cvar invert :
  is_jump l = true ->
  all (fun c => negb (islinebreak c)) cvar = true ->
  jump_line labels l (name, cond, cvar, invert) = Ok l' -> line_ok l l'.
Proof.
  intros Hj Hcv. unfold jump_line.
  destruct (String.eqb name ""); [intros [= <-]; apply line_ok_refl|].
  destruct (labels !! name) as [n|]; [|discriminate]. intros [= <-].
  apply line_ok_jump; [assumption|apply startswith_app|].
  set (kind := if negb cond then "always" else if invert then "notEqual" else "equal").
  replace ("jump " +:+ str_int n +:+ " " +:+ kind +:+ " " +:+ cvar +:+ " true")
    with ("jump " +:+ (str_int n +:+ " " +:+ kind +:+ " " +:+ cvar) +:+ " " +:+ "true")
    by (now rewrite !app_assoc).
  apply clean_jump_text; [|now repeat split].
  rewrite !all_app, Hcv, (word_nobreak _ (str_int_word n)).
  subst kind. now destruct cond, invert.
Qed.

Lemma JUMP_CONDITION_nobreak c cond :
  dict_get JUMP_CONDITION c = Some cond ->
  all (fun c => negb (islinebreak c)) cond = true.
Proof.
  unfold dict_get, JUMP_CONDITION.
  repeat (destruct (String.eqb _ c); [now intros [= <-]|]).
  discriminate.
Qed.

Lemma resolve_jump_ok labels l l' : resolve_jump labels l = Ok l' -> line_ok l l'.
Proof.
  unfold resolve_jump.
  destruct (fullmatch GEN_REGEXES.JUMP l || fullmatch GEN_REGEXES.CJMP l) eqn:Hjc.
  - assert (Hj : is_jump l = true) by (unfold is_jump; now rewrite Hjc).
    unfold jump_parts.
    destruct (fullmatch GEN_REGEXES.JUMP l).
    + cbn [mbind result_bind]. now apply jump_line_ok.
    + destruct (item (split l) 0) as [s0|] eqn:H0; [|discriminate].
      destruct (item (split l) 1) as [s1|] eqn:H1; [|discriminate].
      cbn [mbind result_bind]. apply jump_line_ok; [assumption|].
      pose proof (word_nobreak _ (item_split_word _ _ _ H1)) as Hs1.
      destruct (startswith "!" s1); [now apply all_tail|assumption].
  - destruct (fullmatch GEN_REGEXES.EJMP l) eqn:He; [|intros [= <-]; apply line_ok_refl].
    assert (Hj : is_jump l = true) by (unfold is_jump; rewrite He; now rewrite !orb_true_r).
    destruct (item (split l) 0) as [s0|] eqn:H0; [|discriminate].
    destruct (item (split l) 1) as [op1|] eqn:H1; [|discriminate].
    destruct (item (split l) 2) as [c|] eqn:H2; [|discriminate].
    cbn [mbind result_bind].
    destruct (dict_get JUMP_CONDITION c) as [cond|] eqn:Hc; [|discriminate].
    destruct (item (split l) 3) as [op2|] eqn:H3; [|discriminate].
    cbn [mbind result_bind].
    destruct (labels !! tail s0) as [n|]; [|discriminate]. intros [= <-].
    apply line_ok_jump; [assumption|apply startswith_app|].
    replace ("jump " +:+ str_int n +:+ " " +:+ cond +:+ " " +:+ op1 +:+ " " +:+ op2)
      with ("jump " +:+ (str_int n +:+ " " +:+ cond +:+ " " +:+ op1) +:+ " " +:+ op2)
      by (now rewrite !app_assoc).
    apply clean_jump_text; [|apply word_clean; eapply item_split_word; eassumption].
    rewrite !all_app, (word_nobreak _ (str_int_word n)), (JUMP_CONDITION_nobreak _ _ Hc),
      (word_nobreak _ (item_split_word _ _ _ H1)). reflexivity.
Qed.

(** *** The third loop *)

Lemma five_items {A} (l : list A) a b c d e :
  (length l <= 5)%nat ->
  item l 0 = Ok a -> item l 1 = Ok b -> item l 2 = Ok c -> item l 3 = Ok d ->
  item l 4 = Ok e -> l = [a; b; c; d; e].
Proof.
  intros Hlen Ha%item_Ok Hb%item_Ok Hc%item_Ok Hd%item_Ok He%item_Ok.
  destruct l as [|a' [|b' [|c' [|d' [|e' [|f l]]]]]]; simpl in *; try discriminate; try lia.
  congruence.
Qed.

Lemma native_jump_ok lnc l l' : native_jump lnc l = Ok l' -> line_ok l l'.
Proof.
  unfold native_jump.
  destruct (fullmatch GEN_REGEXES.MJUMP l) eqn:Hm; [|intros [= <-]; apply line_ok_refl].
  assert (Hs : startswith "jump " l = true) by (eapply fullmatch_Lit_Seq; exact Hm).
  pose proof (jump_is_jump l Hs) as Hj.
  destruct (item (split_on " " 4 l) 0) as [s0|] eqn:H0; [|discriminate].
  destruct (item (split_on " " 4 l) 1) as [s1|] eqn:H1; [|discriminate].
  destruct (item (split_on " " 4 l) 2) as [s2|] eqn:H2; [|discriminate].
  destruct (item (split_on " " 4 l) 3) as [s3|] eqn:H3; [|discriminate].
  destruct (item (split_on " " 4 l) 4) as [s4|] eqn:H4; [|discriminate].
  cbn [mbind result_bind].
  destruct (lnc <=? int_digits s1); intros [= <-]; [|apply line_ok_refl].
  pose proof (five_items _ _ _ _ _ _ (split_on_length " " 4 l) H0 H1 H2 H3 H4) as Hspl.
  pose proof (join_split_on " " 4 l) as Hjoin. rewrite Hspl in Hjoin.
  assert (Hs0 : s0 = "jump").
  { destruct (startswith_inv _ _ Hs) as [r Hr]. rewrite Hr in Hspl.
    change (split_on " " 4 ("jump " +:+ r)) with ("jump" :: split_on " " 3 r) in Hspl.
    congruence. }
  subst s0.
  assert (Hst : startswith "jump " ("jump" +:+ " 0 " +:+ s2 +:+ " " +:+ s3 +:+ " " +:+ s4) = true)
    by reflexivity.
  split; [congruence|]. split; [intros _; now apply jump_is_jump|].
  split; [intros _; now apply jump_not_self_assignment|].
  intros (Hf & Hl & Hb).
  assert (Hpieces : Forall (fun x => all (fun c => negb (islinebreak c)) x = true)
                      ["jump"; s1; s2; s3; s4]).
  { rewrite <- Hspl. now apply split_on_all. }
  apply Forall_cons in Hpieces as [_ Hp]. apply Forall_cons in Hp as [_ Hp].
  apply Forall_cons in Hp as [Hb2 Hp]. apply Forall_cons in Hp as [Hb3 Hp].
  apply Forall_cons in Hp as [Hb4 _].
  assert (Hne : s4 <> "").
  { intros ->. rewrite <- Hjoin in Hl. cbn [join] in Hl.
    change (" " +:+ "") with " " in Hl.
    rewrite !last_char_app in Hl by (try discriminate; now repeat apply app_nonempty_r).
    discriminate Hl. }
  split; [reflexivity|]. split.
  - rewrite <- Hjoin in Hl. cbn [join] in Hl.
    rewrite !last_char_app in Hl by (try assumption; now repeat apply app_nonempty_r).
    rewrite !last_char_app by (try assumption; now repeat apply app_nonempty_r).
    exact Hl.
  - rewrite !all_app, Hb2, Hb3, Hb4. reflexivity.
Qed.

(** *** The loops *)

Lemma resolve_jumps_spec labels lns tmp2 out :
  resolve_jumps labels lns tmp2 = Ok out ->
  exists lns', out = tmp2 +:+ unlines lns' /\ Forall2 line_ok lns lns'.
Proof.
  revert tmp2. induction lns as [|l lns IH]; intros tmp2.
  - intros [= <-]. exists []. split; [now rewrite app_nil_r|constructor].
  - cbn [resolve_jumps].
    destruct (resolve_jump labels l) as [l'|] eqn:Hl; [|discriminate].
    cbn [mbind result_bind]. intros (lns' & -> & Hall)%IH.
    exists (l' :: lns'). split.
    + cbn [unlines]. now rewrite !app_assoc.
    + constructor; [now apply resolve_jump_ok in Hl|assumption].
Qed.

Lemma native_jumps_spec lnc lns tmp out :
  native_jumps lnc lns tmp = Ok out ->
  exists lns', out = tmp +:+ unlines lns' /\ Forall2 line_ok lns lns'.
Proof.
  revert tmp. induction lns as [|l lns IH]; intros tmp.
  - intros [= <-]. exists []. split; [now rewrite app_nil_r|constructor].
  - cbn [native_jumps].
    destruct (native_jump lnc l) as [l'|] eqn:Hl; [|discriminate].
    cbn [mbind result_bind]. intros (lns' & -> & Hall)%IH.
    exists (l' :: lns'). split.
    + cbn [unlines]. now rewrite !app_assoc.
    + constructor; [now apply native_jump_ok in Hl|assumption].
Qed.

End PostprocessFacts.

(** ** C8 and C9: what [postprocess] keeps *)

Module PostprocessTheorems.
Import PyStr Re StrFacts ReFacts SplitFacts Generator PostprocessFacts.

#[local] Arguments String.append : simpl never.

Lemma Forall2_line_ok_clean ls ls' :
  Forall2 line_ok ls ls' -> Forall clean ls -> Forall clean ls'.
Proof.
  induction 1 as [|l l' ls ls' (_ & _ & _ & Hc) _ IH]; [constructor|].
  intros [Hl Hls]%Forall_cons. constructor; auto.
Qed.

Lemma Forall2_line_ok_trans ls1 ls2 ls3 :
  Forall2 line_ok ls1 ls2 -> Forall2 line_ok ls2 ls3 -> Forall2 line_ok ls1 ls3.
Proof.
  intros H. revert ls3. induction H as [|a b ls1 ls2 Hab _ IH]; intros ls3 H23.
  - inversion H23; subst. constructor.
  - inversion H23 as [|? c ? ls3' Hbc H23']; subst.
    constructor; [eapply line_ok_trans; eassumption|now apply IH].
Qed.



Lemma Forall_clean_nobreaks ls : Forall clean ls -> nobreaks ls.
Proof. intros H. eapply Forall_impl; [exact H|]. now intros ? (_ & _ & ?). Qed.

Lemma Forall_filter_bool {A} (P : A -> Prop) (f : A -> bool) l :
  Forall P l -> Forall P (List.filter f l).
Proof.
  induction 1 as [|x l Hx _ IH]; [constructor|].
  cbn [List.filter]. destruct (f x); [now constructor|assumption].
Qed.


(** The three loops and the last step, on a text of clean lines. *)
Lemma postprocess_lines code out :
  String.eqb (strip code) "" = false ->
  Forall clean (map undot (splitlines code)) ->
  postprocess code = Ok out ->
  exists lines l,
    resolved code = Ok (unlines (lines ++ [l]))
    /\ Forall2 line_ok (List.filter kept (map undot (splitlines code))) (lines ++ [l])
    /\ Forall clean (lines ++ [l])
    /\ splitlines out = if startswith "jump 0" l then lines else lines ++ [l].
Proof.
  intros Hne Hclean Hpost.
  set (ks := List.filter kept (map undot (splitlines code))) in *.
  assert (Hks : Forall clean ks) by now apply Forall_filter_bool.
  unfold postprocess in Hpost. rewrite Hne in Hpost.
  unfold resolved in *.
  destruct (resolve_labels (splitlines code) 0 0 "" ∅) as [[tmp labels]|] eqn:Hl1;
    [|discriminate].
  apply resolve_labels_spec in Hl1. fold ks in Hl1. rewrite app_nil_l in Hl1. subst tmp.
  cbn [mbind result_bind] in *.
  rewrite (splitlines_unlines ks (Forall_clean_nobreaks _ Hks)) in *.
  destruct (resolve_jumps labels ks "") as [tmp2|] eqn:Hl2; [|discriminate].
  apply resolve_jumps_spec in Hl2 as (l2 & -> & H2). rewrite app_nil_l in *.
  pose proof (Forall2_line_ok_clean _ _ H2 Hks) as Hc2.
  cbn [mbind result_bind] in *.
  rewrite (splitlines_unlines l2 (Forall_clean_nobreaks _ Hc2)) in *.
  destruct (native_jumps _ l2 "") as [tmp3|] eqn:Hl3; [|discriminate].
  apply native_jumps_spec in Hl3 as (l3 & -> & H3). rewrite app_nil_l in *.
  pose proof (Forall2_line_ok_clean _ _ H3 Hc2) as Hc3.
  pose proof (Forall2_line_ok_trans _ _ _ H2 H3) as H23.
  cbn [mbind result_bind] in Hpost. unfold remove_last_jump in Hpost.
  rewrite (splitlines_unlines l3 (Forall_clean_nobreaks _ Hc3)) in Hpost.
  destruct l3 as [|x l3] using rev_ind; [discriminate|]. clear IHl3.
  unfold last_item in Hpost. rewrite last_snoc in Hpost.
  cbn [mbind result_bind] in Hpost. rewrite removelast_last in Hpost.
  exists l3, x. split; [reflexivity|]. split; [assumption|]. split; [assumption|].
  destruct (startswith "jump 0" x); injection Hpost as <-.
  - apply Forall_app in Hc3 as [Hc3 _].
    now rewrite strip_join, splitlines_join.
  - now rewrite strip_unlines, splitlines_join.
Qed.

Lemma rstrip_nonempty c s : isspace c = false -> rstrip (String c s) <> "".
Proof. intros Hc. cbn [rstrip]. destruct (rstrip s); [now rewrite Hc|discriminate]. Qed.

(** A text of clean lines is empty or not blank. *)
Lemma clean_lines_not_blank code :
  Forall clean (map undot (splitlines code)) ->
  code = "" \/ String.eqb (strip code) "" = false.
Proof.
  intros Hclean. destruct code as [|c code]; [now left|]. right.
  apply String.eqb_neq. unfold strip.
  assert (Hc : isspace c = false).
  { destruct (isspace c) eqn:Hc; [|reflexivity]. exfalso.
    cbn [splitlines] in Hclean.
    destruct (islinebreak c) eqn:Hb.
    - assert (Hfirst : exists ls, (match code with
                                    | "" => [""]
                                    | String d s'' =>
                                        if Ascii.eqb c CR && Ascii.eqb d LF
                                        then "" :: splitlines s'' else "" :: splitlines code
                                    end) = "" :: ls).
      { destruct code as [|d s'']; [now exists []|].
        destruct (Ascii.eqb c CR && Ascii.eqb d LF); eauto. }
      destruct Hfirst as [ls E]. rewrite E in Hclean.
      apply Forall_cons in Hclean as [[H _] _]. exact H.
    - assert (Hfirst : exists l ls, (match splitlines code with
                                     | l :: ls => String c l :: ls
                                     | [] => [String c ""]
                                     end) = String c l :: ls).
      { destruct (splitlines code); eauto. }
      destruct Hfirst as (l & ls & E). rewrite E in Hclean.
      apply Forall_cons in Hclean as [[H _] _].
      unfold undot in H. cbn [startswith] in H.
      destruct (Ascii.eqb_spec "." c) as [<-|_]; [discriminate Hc|].
      cbn [andb first_char notspace] in H. congruence. }
  cbn [lstrip]. rewrite Hc. now apply rstrip_nonempty.
Qed.

End PostprocessTheorems.


(** ** The words of a text *)

Module WordFacts.
Import PyStr StrFacts SplitFacts.

#[local] Arguments String.append : simpl never.

Lemma split_nonspace_cons c s : isspace c = false -> split (String c s) <> [].
Proof.
  intros Hc. cbn [split]. rewrite Hc.
  destruct s as [|d s]; [discriminate|].
  destruct (isspace d); [discriminate|].
  destruct (split (String d s)); discriminate.
Qed.

Lemma split_cons_nonspace c d s :
  isspace c = false -> isspace d = false ->
  split (String c (String d s)) =
    match split (String d s) with
    | w :: ws => String c w :: ws
    | [] => [String c ""]
    end.
Proof. intros Hc Hd. cbn [split]. now rewrite Hc, Hd. Qed.

(** White space between two texts separates their words. *)
Lemma split_app_space s c t :
  isspace c = true -> split (s +:+ String c t) = split s ++ split t.
Proof.
  intros Hc. induction s as [|d s IH].
  - rewrite app_nil_l. now apply split_cons_space.
  - rewrite app_cons. destruct (isspace d) eqn:Hd.
    + now rewrite !split_cons_space.
    + destruct s as [|e s].
      * rewrite app_nil_l. cbn [split]. rewrite Hd, Hc.
        rewrite ?split_cons_space by assumption. reflexivity.
      * rewrite app_cons in *. destruct (isspace e) eqn:He.
        -- cbn [split] in *. rewrite Hd, He in *. cbn [app]. now rewrite IH.
        -- rewrite !split_cons_nonspace by assumption. rewrite IH.
           pose proof (split_nonspace_cons e s He) as Hne.
           destruct (split (String e s)); [congruence|reflexivity].
Qed.

Lemma split_all_space w : all isspace w = true -> split w = [].
Proof.
  induction w as [|c w IH]; [reflexivity|]. simpl.
  intros [Hc Hw]%andb_true_iff. rewrite Hc. now apply IH.
Qed.

Lemma split_app_spaces s w : all isspace w = true -> split (s +:+ w) = split s.
Proof.
  intros Hw. destruct w as [|c w]; [now rewrite app_nil_r|].
  simpl in Hw. apply andb_true_iff in Hw as [Hc Hw].
  rewrite split_app_space by assumption.
  now rewrite (split_all_space w Hw), List.app_nil_r.
Qed.

Lemma split_lstrip s : split (lstrip s) = split s.
Proof.
  induction s as [|c s IH]; [reflexivity|]. cbn [lstrip].
  destruct (isspace c) eqn:Hc; [|reflexivity].
  now rewrite split_cons_space.
Qed.

Lemma rstrip_decomp s : exists w, s = rstrip s +:+ w /\ all isspace w = true.
Proof.
  induction s as [|c s (w & Hs & Hw)]; [now exists ""|].
  cbn [rstrip]. destruct (rstrip s) as [|d r] eqn:Hr.
  - rewrite app_nil_l in Hs. subst w. destruct (isspace c) eqn:Hc.
    + exists (String c s). split; [reflexivity|]. simpl. now rewrite Hc.
    + exists s. split; [reflexivity|assumption].
  - exists w. split; [|assumption]. rewrite app_cons. now rewrite <- Hs.
Qed.

Lemma split_rstrip s : split (rstrip s) = split s.
Proof.
  destruct (rstrip_decomp s) as (w & Hs & Hw).
  rewrite Hs at 2. now rewrite split_app_spaces.
Qed.

Lemma split_strip s : split (strip s) = split s.
Proof. unfold strip. now rewrite split_rstrip, split_lstrip. Qed.

Lemma split_word w : word w -> split w = [w].
Proof.
  intros [Hne Hall]. induction w as [|c w IH]; [congruence|].
  simpl in Hall. apply andb_true_iff in Hall as [Hc Hw]. apply negb_true_iff in Hc.
  destruct w as [|d w].
  - cbn [split]. now rewrite Hc.
  - assert (Hd : isspace d = false).
    { simpl in Hw. apply andb_true_iff in Hw as [Hd _]. now apply negb_true_iff. }
    rewrite split_cons_nonspace by assumption.
    rewrite IH by (discriminate || assumption). reflexivity.
Qed.

(** The words of a text joined by one white space character. *)
Lemma split_join c ls :
  isspace c = true -> split (join (String c "") ls) = concat (map split ls).
Proof.
  intros Hc. induction ls as [|l ls IH]; [reflexivity|].
  destruct ls as [|l' ls].
  - simpl. now rewrite List.app_nil_r.
  - change (join (String c "") (l :: l' :: ls))
      with (l +:+ String c "" +:+ join (String c "") (l' :: ls)).
    change (String c "" +:+ join (String c "") (l' :: ls))
      with (String c (join (String c "") (l' :: ls))).
    rewrite split_app_space by assumption. now rewrite IH.
Qed.

Lemma split_join_words ws : Forall word ws -> split (join " " ws) = ws.
Proof.
  intros Hws. rewrite (split_join " " ws) by reflexivity.
  induction Hws as [|w ws Hw _ IH]; [reflexivity|].
  cbn [map concat]. now rewrite (split_word w Hw), IH.
Qed.

End WordFacts.

(** ** [Linker.link] *)

Module LinkerFacts.
Import PyStr StrFacts SplitFacts WordFacts Linker.

#[local] Arguments String.append : simpl never.

Section Scan.
Context (exec : Exec).

Lemma scan_app a b labels macros instrs :
  scan exec (a ++ b) labels macros instrs =
    match scan exec a labels macros instrs with
    | Ok (labels', macros', instrs') => scan exec b labels' macros' instrs'
    | Raise e => Raise e
    end.
Proof.
  revert labels macros instrs. induction a as [|ins a IH]; intros labels macros instrs.
  - reflexivity.
  - cbn [app scan]. destruct ins; try (destruct (String.eqb _ ""); apply IH).
    + apply IH.
    + destruct (macro_value exec (length instrs) labels macros value); [|reflexivity].
      cbn [mbind result_bind]. apply IH.
Qed.

(** A label that no instruction defines keeps its entry. *)
Lemma scan_keeps_label name code labels macros instrs labels' macros' instrs' :
  defines_label name code = false ->
  scan exec code labels macros instrs = Ok (labels', macros', instrs') ->
  labels' !! name = labels !! name.
Proof.
  revert labels macros instrs.
  induction code as [|ins code IH]; intros labels macros instrs Hdef.
  - now intros [= <- _ _].
  - cbn [defines_label existsb] in Hdef. apply orb_false_iff in Hdef as [Hins Hdef].
    cbn [scan]. destruct ins; try (destruct (String.eqb _ ""); now apply IH).
    + intros H. rewrite (IH _ _ _ Hdef H).
      apply lookup_insert_ne. now apply String.eqb_neq.
    + destruct (macro_value exec (length instrs) labels macros value); [|discriminate].
      cbn [mbind result_bind]. now apply IH.
Qed.

(** Only a computed macro can make the scan fail. *)
Lemma scan_total code labels macros instrs :
  computes_macro code = false ->
  exists r, scan exec code labels macros instrs = Ok r.
Proof.
  revert labels macros instrs.
  induction code as [|ins code IH]; intros labels macros instrs Hc.
  - eauto.
  - cbn [computes_macro existsb] in Hc. apply orb_false_iff in Hc as [Hins Hc].
    cbn [scan]. destruct ins; try (destruct (String.eqb _ ""); now apply IH).
    + now apply IH.
    + unfold macro_value. rewrite Hins. cbn [mbind result_bind]. now apply IH.
Qed.

End Scan.

Lemma resolve_word labels w : word w -> word (resolve labels w).
Proof.
  intros Hw. unfold resolve. destruct (labels !! w); [apply str_int_word|assumption].
Qed.

(** The words of a resolved line are the resolved words of the line. *)
Lemma split_resolve_line labels line :
  split (resolve_line labels line) = map (resolve labels) (split line).
Proof.
  unfold resolve_line. apply split_join_words.
  apply Forall_map. eapply Forall_impl; [apply split_words|].
  intros w Hw. now apply resolve_word.
Qed.

Lemma split_output labels instrs :
  split (strip (join nl (map (resolve_line labels) instrs)))
  = concat (map (fun line => map (resolve labels) (split line)) instrs).
Proof.
  rewrite split_strip. unfold nl. rewrite split_join by reflexivity.
  rewrite map_map. f_equal. apply map_ext. intros line. apply split_resolve_line.
Qed.

End LinkerFacts.

(** C10. [link] starts from the label table that maps [start] to 0. The
    words of its output are the words of the expanded lines, each label
    name replaced by its line number; so, when no label of the input is
    named [start], every word [start] becomes [0], and when some are, it
    becomes the number of lines put out before the last of them. *)
Theorem C10_start_label (exec : Linker.Exec) (code : list Instruction)
    labels macros instrs :
  Linker.scan exec code {["start" := 0%nat]} ∅ [] = Ok (labels, macros, instrs) ->
  exists out,
    Linker.link exec code = Ok out
    /\ PyStr.split out
       = concat (map (fun line => map (Linker.resolve labels) (PyStr.split line)) instrs)
    /\ (Linker.defines_label "start" code = false -> Linker.resolve labels "start" = "0")
    /\ (forall before after labels1 macros1 instrs1,
          code = before ++ MppInstructionLabel "start" :: after ->
          Linker.defines_label "start" after = false ->
          Linker.scan exec before {["start" := 0%nat]} ∅ [] = Ok (labels1, macros1, instrs1) ->
          Linker.resolve labels "start" = PyStr.str_nat (length instrs1)).
Proof.
  intros Hscan. eexists. split; [|split; [|split]].
  - unfold Linker.link. rewrite Hscan. reflexivity.
  - apply LinkerFacts.split_output.
  - intros Hdef. unfold Linker.resolve.
    rewrite (LinkerFacts.scan_keeps_label exec "start" code _ _ _ _ _ _ Hdef Hscan).
    now rewrite lookup_singleton_eq.
  - intros before after labels1 macros1 instrs1 -> Hafter Hbefore.
    rewrite LinkerFacts.scan_app, Hbefore in Hscan. cbn [Linker.scan] in Hscan.
    unfold Linker.resolve.
    rewrite (LinkerFacts.scan_keeps_label exec "start" after _ _ _ _ _ _ Hafter Hscan).
    now rewrite lookup_insert_eq.
Qed.

(** ** Type compatibility *)

Lemma land_pow2 (k t : N) :
  N.land (2 ^ k) t = if N.testbit t k then (2 ^ k)%N else 0%N.
Proof.
  apply N.bits_inj. intros i. rewrite N.land_spec, N.pow2_bits_eqb.
  destruct (N.eqb_spec k i) as [->|Hne].
  - destruct (N.testbit t i) eqn:Hi; cbn [andb].
    + symmetry. apply N.pow2_bits_true.
    + symmetry. apply N.bits_0.
  - cbn [andb]. destruct (N.testbit t k); symmetry.
    + now apply N.pow2_bits_false.
    + apply N.bits_0.
Qed.

(** For a type of one member, containment and intersection coincide. *)
Lemma in_member_iff (V T : Type_) :
  In V Ty.members -> Ty.in_ V T = true <-> Ty.and V T <> 0%N.
Proof.
  intros HV.
  assert (Hk : exists k, V = (2 ^ k)%N).
  { simpl in HV.
    repeat (destruct HV as [<-|HV];
            [first [ now exists 0%N | now exists 1%N | now exists 2%N | now exists 3%N
                   | now exists 4%N | now exists 5%N | now exists 6%N | now exists 7%N
                   | now exists 8%N | now exists 9%N | now exists 10%N ] |]).
    destruct HV. }
  destruct Hk as [k ->]. unfold Ty.in_, Ty.and. rewrite land_pow2.
  assert (Hpos : (2 ^ k)%N <> 0%N) by (apply N.pow_nonzero; discriminate).
  destruct (N.testbit T k).
  - rewrite N.eqb_refl. split; auto.
  - split.
    + intros H. apply N.eqb_eq in H. congruence.
    + intros H. congruence.
Qed.

Section NodeFacts.
Context (K : Constants).

Lemma generate_DeclarationNode T name const e st st1 code v st2 :
  Scopes.lookup name (scopes st) = None ->
  Scopes.add (BVariable T name const) st = Ok (tt, st1) ->
  get K e st1 = Ok ((code, v), st2) ->
  generate K (DeclarationNode T name const (Some e)) st =
    if Ty.in_ (Value_type v) T
    then Ok (code ++ [MInstruction SET [OValue (VariableValue T name const); OValue v]], st2)
    else Raise (MlogError (incompatible_types (Value_type v) T)).
Proof.
  intros Hfree Hadd Hget. simpl.
  unfold mbind, Gen_bind, Scopes.get. rewrite Hfree. simpl.
  rewrite Hadd, Hget. simpl.
  destruct (Ty.in_ (Value_type v) T); reflexivity.
Qed.

Lemma generate_AssignmentNode T name var e st code v st' :
  Scopes.lookup var (scopes st) = Some (BVariable T name false) ->
  get K e st = Ok ((code, v), st') ->
  generate K (AssignmentNode var "=" e) st =
    if Ty.in_ (Value_type v) T
    then Ok (code ++ [MInstruction SET [OValue (VariableValue T name false); OValue v]], st')
    else Raise (MlogError (incompatible_types (Value_type v) T)).
Proof.
  intros Hvar Hget. simpl.
  unfold mbind, Gen_bind, Scopes.get. rewrite Hvar. simpl. rewrite Hget. simpl.
  destruct (Ty.in_ (Value_type v) T); reflexivity.
Qed.

Lemma generate_ReturnNode func f e st code v st' :
  get K e st = Ok ((code, v), st') ->
  Scopes.lookup func (scopes st') = Some (BFunction f) ->
  generate K (ReturnNode func (Some e)) st =
    if Ty.ne (Value_type v) (fun_return_type f)
    then Raise (MlogError (incompatible_types (Value_type v) (fun_return_type f)))
    else Ok (code ++ [MInstruction SET
                        [OValue (VariableValue (Value_type v) ("__f_" +:+ func +:+ "_retv") false);
                         OValue v]], st').
Proof.
  intros Hget Hfun. simpl.
  unfold mbind, Gen_bind, Scopes.get. rewrite Hget. simpl. rewrite Hfun. simpl.
  destruct (Ty.ne (Value_type v) (fun_return_type f)); reflexivity.
Qed.

Lemma bind_params_step name param params pname ptype fparams code0 st code v st' :
  get K param st = Ok ((code, v), st') ->
  bind_params (get K) name (param :: params) ((pname, ptype) :: fparams) code0 st =
    if Ty.ne (Value_type v) ptype
    then Raise (MlogError (incompatible_types (Value_type v) ptype))
    else bind_params (get K) name params fparams
           (code0 ++ code
            ++ [MInstruction SET [OValue (VariableValue ptype (Scopes.rename name pname) false);
                                  OValue v]]) st'.
Proof.
  intros Hget. simpl. unfold mbind, Gen_bind. rewrite Hget. simpl.
  destruct (Ty.ne (Value_type v) ptype); reflexivity.
Qed.

Lemma fold_right_operands_step tmpv op node rest code0 st code v st' :
  get K node st = Ok ((code, v), st') ->
  fold_right_operands (get K) tmpv ((op, node) :: rest) code0 st =
    if Ty.in_ (Value_type v) Ty.NUM
    then match dict_get BinaryOpNode_.OPERATORS op with
         | Some opcode =>
             fold_right_operands (get K) tmpv rest
               (code0 ++ code
                ++ [MInstruction OP [OText opcode; OValue tmpv; OValue tmpv; OValue v]]) st'
         | None => Raise KeyError
         end
    else Raise (MlogError (incompatible_types (Value_type v) Ty.NUM)).
Proof.
  intros Hget. simpl. unfold mbind, Gen_bind. rewrite Hget. simpl.
  destruct (Ty.in_ (Value_type v) Ty.NUM); simpl; [|reflexivity].
  unfold dict_item. destruct (dict_get BinaryOpNode_.OPERATORS op); reflexivity.
Qed.

Lemma fold_right_operands_app tmpv pre suf code0 st :
  fold_right_operands (get K) tmpv (pre ++ suf) code0 st =
    match fold_right_operands (get K) tmpv pre code0 st with
    | Ok (code1, st1) => fold_right_operands (get K) tmpv suf code1 st1
    | Raise e => Raise e
    end.
Proof.
  revert code0 st. induction pre as [|[op node] pre IH]; intros code0 st.
  - reflexivity.
  - simpl. unfold mbind, Gen_bind.
    destruct (get K node st) as [[[c v] st']|e]; [|reflexivity]. simpl.
    destruct (Ty.in_ (Value_type v) Ty.NUM); simpl; [|reflexivity].
    unfold dict_item. destruct (dict_get BinaryOpNode_.OPERATORS op); simpl; [|reflexivity].
    apply IH.
Qed.

End NodeFacts.

(** ** C1: the check at the assignment sites *)

(** C1 (amended). At a declaration initializer and at a plain assignment a
    value of type V is accepted for the declared type T exactly when V is
    contained in T ([V in T], that is [V & T == V]); otherwise
    IncompatibleTypes(V, T) is raised. At a parameter binding and at a
    return the value is accepted exactly when V equals T. For a V of one
    member, containment is the same as a non-empty intersection, so a
    BLOCK_TYPE value is accepted for a declared ANY and rejected for a
    declared NUM. *)
Theorem C1_assignment_sites (K : Constants) :
  (forall T name const e st st1 code v st2,
     Scopes.lookup name (scopes st) = None ->
     Scopes.add (BVariable T name const) st = Ok (tt, st1) ->
     get K e st1 = Ok ((code, v), st2) ->
     generate K (DeclarationNode T name const (Some e)) st =
       if Ty.in_ (Value_type v) T
       then Ok (code ++ [MInstruction SET [OValue (VariableValue T name const); OValue v]], st2)
       else Raise (MlogError (incompatible_types (Value_type v) T)))
  /\ (forall T name var e st code v st',
     Scopes.lookup var (scopes st) = Some (BVariable T name false) ->
     get K e st = Ok ((code, v), st') ->
     generate K (AssignmentNode var "=" e) st =
       if Ty.in_ (Value_type v) T
       then Ok (code ++ [MInstruction SET [OValue (VariableValue T name false); OValue v]], st')
       else Raise (MlogError (incompatible_types (Value_type v) T)))
  /\ (forall name param params pname ptype fparams code0 st code v st',
     get K param st = Ok ((code, v), st') ->
     bind_params (get K) name (param :: params) ((pname, ptype) :: fparams) code0 st =
       if (Value_type v =? ptype)%N
       then bind_params (get K) name params fparams
              (code0 ++ code
               ++ [MInstruction SET [OValue (VariableValue ptype (Scopes.rename name pname) false);
                                     OValue v]]) st'
       else Raise (MlogError (incompatible_types (Value_type v) ptype)))
  /\ (forall func f e st code v st',
     get K e st = Ok ((code, v), st') ->
     Scopes.lookup func (scopes st') = Some (BFunction f) ->
     generate K (ReturnNode func (Some e)) st =
       if (Value_type v =? fun_return_type f)%N
       then Ok (code ++ [MInstruction SET
                           [OValue (VariableValue (Value_type v) ("__f_" +:+ func +:+ "_retv") false);
                            OValue v]], st')
       else Raise (MlogError (incompatible_types (Value_type v) (fun_return_type f))))
  /\ (forall V T, In V Ty.members -> Ty.in_ V T = true <-> Ty.and V T <> 0%N)
  /\ Ty.in_ Ty.BLOCK_TYPE Ty.ANY = true
  /\ Ty.in_ Ty.BLOCK_TYPE Ty.NUM = false.
Proof.
  repeat split.
  - intros. eapply generate_DeclarationNode; eassumption.
  - intros. eapply generate_AssignmentNode; eassumption.
  - intros. erewrite bind_params_step by eassumption.
    unfold Ty.ne. now destruct (Value_type v =? ptype)%N.
  - intros. erewrite generate_ReturnNode by eassumption.
    unfold Ty.ne. now destruct (Value_type v =? fun_return_type f)%N.
  - now apply in_member_iff.
  - now apply in_member_iff.
Qed.

(** An instance of each part: [num x = n] and [n = 1] are accepted, the
    argument [1] is bound to the [num] parameter of [f], [return 1] is
    accepted in [f]. *)
Lemma C1_assignment_sites_witness :
  generate Examples.no_constants
    (DeclarationNode Ty.NUM "x" false (Some (VariableValueNode "n"))) Examples.state
  = Ok ([MInstruction SET [OValue (VariableValue Ty.NUM "x" false);
                           OValue (VariableValue Ty.NUM "n" false)]],
        Examples.global {[ "f" := BFunction Examples.f;
                           "n" := BVariable Ty.NUM "n" false;
                           "v" := BVariable Ty.ANY "v" false;
                           "x" := BVariable Ty.NUM "x" false ]})
  /\ generate Examples.no_constants
       (AssignmentNode "n" "=" (NumberValueNode (Int 1))) Examples.state
     = Ok ([MInstruction SET [OValue (VariableValue Ty.NUM "n" false);
                              OValue (NumberValue (Int 1))]], Examples.state)
  /\ bind_params (get Examples.no_constants) "f" [NumberValueNode (Int 1)] [("a", Ty.NUM)] []
       Examples.state
     = Ok ([MInstruction SET [OValue (VariableValue Ty.NUM "f:a" false);
                              OValue (NumberValue (Int 1))]], Examples.state)
  /\ generate Examples.no_constants
       (ReturnNode "f" (Some (NumberValueNode (Int 1)))) Examples.state
     = Ok ([MInstruction SET [OValue (VariableValue Ty.NUM "__f_f_retv" false);
                              OValue (NumberValue (Int 1))]], Examples.state)
  /\ (Ty.in_ Ty.BLOCK_TYPE Ty.ANY = true <-> Ty.and Ty.BLOCK_TYPE Ty.ANY <> 0%N).
Proof.
  destruct (C1_assignment_sites Examples.no_constants)
    as (Hdecl & Hassign & Hparam & Hret & Hmember & _ & _).
  split; [|split; [|split; [|split]]].
  - rewrite (Hdecl Ty.NUM "x" false (VariableValueNode "n") Examples.state
               (Examples.global {[ "f" := BFunction Examples.f;
                                   "n" := BVariable Ty.NUM "n" false;
                                   "v" := BVariable Ty.ANY "v" false;
                                   "x" := BVariable Ty.NUM "x" false ]})
               [] (VariableValue Ty.NUM "n" false)
               (Examples.global {[ "f" := BFunction Examples.f;
                                   "n" := BVariable Ty.NUM "n" false;
                                   "v" := BVariable Ty.ANY "v" false;
                                   "x" := BVariable Ty.NUM "x" false ]}));
      [reflexivity | vm_compute; reflexivity | vm_compute; reflexivity | vm_compute; reflexivity].
  - rewrite (Hassign Ty.NUM "n" "n" (NumberValueNode (Int 1)) Examples.state
               [] (NumberValue (Int 1)) Examples.state);
      [reflexivity | vm_compute; reflexivity | reflexivity].
  - rewrite (Hparam "f" (NumberValueNode (Int 1)) [] "a" Ty.NUM [] [] Examples.state
               [] (NumberValue (Int 1)) Examples.state); reflexivity.
  - rewrite (Hret "f" Examples.f (NumberValueNode (Int 1)) Examples.state
               [] (NumberValue (Int 1)) Examples.state);
      [reflexivity | reflexivity | vm_compute; reflexivity].
  - apply Hmember. vm_compute. tauto.
Defined.

(** C1 as stated fails: a value of type ANY meets NUM ([ANY & NUM] is
    [NUM]) and is rejected for a declared NUM, at a declaration and at an
    assignment; a NUM value meets ANY and is rejected by a function that
    returns ANY. *)
Lemma C1_counterexample :
  Ty.and Ty.ANY Ty.NUM <> 0%N
  /\ generate Examples.no_constants
       (DeclarationNode Ty.NUM "x" false (Some (VariableValueNode "v"))) Examples.state
     = Raise (MlogError (incompatible_types Ty.ANY Ty.NUM))
  /\ generate Examples.no_constants
       (AssignmentNode "n" "=" (VariableValueNode "v")) Examples.state
     = Raise (MlogError (incompatible_types Ty.ANY Ty.NUM))
  /\ Ty.and Ty.NUM Ty.ANY <> 0%N
  /\ generate Examples.no_constants
       (ReturnNode "g" (Some (NumberValueNode (Int 1))))
       (Examples.global {[ "g" := BFunction {| fun_name := "g"; fun_params := [];
                                               fun_return_type := Ty.ANY |} ]})
     = Raise (MlogError (incompatible_types Ty.NUM Ty.ANY)).
Proof.
  repeat split; try discriminate; vm_compute; reflexivity.
Qed.

(** ** C2: the operands of a binary operator chain *)

Section ChainFacts.
Context (K : Constants).

Lemma get_BinaryOpNode left_ r rs st c0 v0 st1 tmpv st2 :
  get K left_ st = Ok ((c0, v0), st1) ->
  Ty.in_ (Value_type v0) Ty.NUM = true ->
  temp_var Ty.NUM st1 = Ok (tmpv, st2) ->
  get K (BinaryOpNode left_ (Some (r :: rs))) st =
    match fold_right_operands (get K) tmpv (r :: rs)
            (c0 ++ [MInstruction SET [OValue tmpv; OValue v0]]) st2 with
    | Ok (code, st3) => Ok ((code, tmpv), st3)
    | Raise e => Raise e
    end.
Proof.
  intros Hleft Hnum Htmp.
  cbn [get]. unfold mbind, Gen_bind. rewrite Hleft. cbn [fst snd].
  rewrite Hnum. cbn [negb]. unfold mret at 1, Gen_ret at 1.
  rewrite Htmp.
  destruct (fold_right_operands (get K) tmpv (r :: rs)
              (c0 ++ [MInstruction SET [OValue tmpv; OValue v0]]) st2) as [[code st3]|e];
    reflexivity.
Qed.

End ChainFacts.

(** C2 (amended). In a chain whose first operand is a number, an operand
    after the first whose operator is not one of ==, != and === is
    accepted exactly when its type is contained in NUM ([V in NUM], that
    is [V & NUM == V]): if it is not, evaluating the chain raises
    IncompatibleTypes(V, NUM) at that operand; if it is, the operand is
    folded into the temporary and the chain goes on. *)
Theorem C2_right_operand (K : Constants)
    left_ pre op node rest st c0 v0 st1 tmpv st2 code1 st3 code v st4 :
  get K left_ st = Ok ((c0, v0), st1) ->
  Ty.in_ (Value_type v0) Ty.NUM = true ->
  temp_var Ty.NUM st1 = Ok (tmpv, st2) ->
  fold_right_operands (get K) tmpv pre
    (c0 ++ [MInstruction SET [OValue tmpv; OValue v0]]) st2 = Ok (code1, st3) ->
  get K node st3 = Ok ((code, v), st4) ->
  str_in op BinaryOpNode_.EQUALITY = false ->
  get K (BinaryOpNode left_ (Some (pre ++ (op, node) :: rest))) st =
    if Ty.in_ (Value_type v) Ty.NUM
    then match dict_get BinaryOpNode_.OPERATORS op with
         | Some opcode =>
             match fold_right_operands (get K) tmpv rest
                     (code1 ++ code
                      ++ [MInstruction OP [OText opcode; OValue tmpv; OValue tmpv; OValue v]])
                     st4 with
             | Ok (code', st5) => Ok ((code', tmpv), st5)
             | Raise e => Raise e
             end
         | None => Raise KeyError
         end
    else Raise (MlogError (incompatible_types (Value_type v) Ty.NUM)).
Proof.
  intros Hleft Hnum Htmp Hpre Hnode _.
  assert (Hne : exists r rs, pre ++ (op, node) :: rest = r :: rs).
  { destruct pre; simpl; eauto. }
  destruct Hne as (r & rs & Hne).
  rewrite Hne, (get_BinaryOpNode K left_ r rs st c0 v0 st1 tmpv st2 Hleft Hnum Htmp), <- Hne.
  rewrite fold_right_operands_app, Hpre.
  rewrite (fold_right_operands_step K tmpv op node rest code1 st3 code v st4 Hnode).
  destruct (Ty.in_ (Value_type v) Ty.NUM); [|reflexivity].
  destruct (dict_get BinaryOpNode_.OPERATORS op); reflexivity.
Qed.

(** [1 + n] with the [num] variable [n]: the operand is accepted. *)
Lemma C2_right_operand_witness :
  get Examples.no_constants
    (BinaryOpNode (NumberValueNode (Int 1)) (Some ([] ++ ("+", VariableValueNode "n") :: [])))
    Examples.state
  = Ok ([MInstruction SET [OValue (VariableValue Ty.NUM "__tmp1" false);
                           OValue (NumberValue (Int 1))];
         MInstruction OP [OText "add"; OValue (VariableValue Ty.NUM "__tmp1" false);
                          OValue (VariableValue Ty.NUM "__tmp1" false);
                          OValue (VariableValue Ty.NUM "n" false)]],
        VariableValue Ty.NUM "__tmp1" false,
        {| scopes := scopes Examples.state; tmpv := 1 |}).
Proof.
  rewrite (C2_right_operand Examples.no_constants
             (NumberValueNode (Int 1)) [] "+" (VariableValueNode "n") []
             Examples.state [] (NumberValue (Int 1)) Examples.state
             (VariableValue Ty.NUM "__tmp1" false)
             {| scopes := scopes Examples.state; tmpv := 1 |}
             [MInstruction SET [OValue (VariableValue Ty.NUM "__tmp1" false);
                                OValue (NumberValue (Int 1))]]
             {| scopes := scopes Examples.state; tmpv := 1 |}
             [] (VariableValue Ty.NUM "n" false)
             {| scopes := scopes Examples.state; tmpv := 1 |});
    vm_compute; reflexivity.
Defined.

(** C2 as stated fails both ways: in [1 + v] the operand [v] of type ANY
    meets NUM, its operator is not of the equality class, and the chain
    raises IncompatibleTypes; in [1 == "a"] the operator is of the
    equality class and the chain raises IncompatibleTypes all the same,
    while ["a" == 1] is accepted. *)
Lemma C2_counterexample :
  Ty.and Ty.ANY Ty.NUM <> 0%N
  /\ str_in "+" BinaryOpNode_.EQUALITY = false
  /\ get Examples.no_constants
       (BinaryOpNode (NumberValueNode (Int 1)) (Some [("+", VariableValueNode "v")]))
       Examples.state
     = Raise (MlogError (incompatible_types Ty.ANY Ty.NUM))
  /\ str_in "==" BinaryOpNode_.EQUALITY = true
  /\ get Examples.no_constants
       (BinaryOpNode (NumberValueNode (Int 1)) (Some [("==", StringValueNode "a")]))
       Examples.state
     = Raise (MlogError (incompatible_types Ty.STR Ty.NUM))
  /\ get Examples.no_constants
       (BinaryOpNode (StringValueNode "a") (Some [("==", NumberValueNode (Int 1))]))
       Examples.state
     = Ok ([MInstruction SET [OValue (VariableValue Ty.NUM "__tmp1" false);
                              OValue (StringValue "a")];
            MInstruction OP [OText "equal"; OValue (VariableValue Ty.NUM "__tmp1" false);
                             OValue (VariableValue Ty.NUM "__tmp1" false);
                             OValue (NumberValue (Int 1))]],
           VariableValue Ty.NUM "__tmp1" false,
           {| scopes := scopes Examples.state; tmpv := 1 |}).
Proof.
  repeat split; try discriminate; vm_compute; reflexivity.
Qed.

(** ** C3: unary operators *)

Section UnaryFacts.
Context (K : Constants).

(** Whatever the operator, [get] hands back the value of the operand,
    and the instruction it adds works on the fresh temporary alone. *)
Lemma get_UnaryOpNode op e st code v st1 tmpv st2 :
  get K e st = Ok ((code, v), st1) ->
  Ty.in_ (Value_type v) Ty.NUM = true ->
  temp_var Ty.NUM st1 = Ok (tmpv, st2) ->
  get K (UnaryOpNode op e) st =
    Ok (code ++ (if String.eqb op "-" then
                   [MInstruction OP [OText "sub"; OValue tmpv; ONumber 0; OValue tmpv]]
                 else if String.eqb op "!" then
                   [MInstruction OP [OText "notEqual"; OValue tmpv; OValue tmpv; OText "true"]]
                 else if String.eqb op "~" then
                   [MInstruction OP [OText "not"; OValue tmpv; OValue tmpv; OText "_"]]
                 else []),
        v, st2).
Proof.
  intros Hget Hnum Htmp.
  cbn [get]. unfold mbind, Gen_bind. rewrite Hget. cbn [fst snd].
  rewrite Hnum. cbn [negb]. rewrite Htmp.
  destruct (String.eqb op "-"); [reflexivity|].
  destruct (String.eqb op "!"); [reflexivity|].
  destruct (String.eqb op "~"); [reflexivity|].
  unfold mret, Gen_ret. now rewrite app_nil_r.
Qed.

End UnaryFacts.

(** C3 fails on the code. For [-5], [!5] and [~5] the instruction emitted
    reads and writes the fresh temporary [__tmp1], which nothing has set,
    and never mentions the operand; the value handed back is the operand
    5 itself, not the result of the instruction. *)
Theorem C3_unary_returns_operand :
  get Examples.no_constants (UnaryOpNode "-" (NumberValueNode (Int 5))) Examples.state
  = Ok ([MInstruction OP [OText "sub"; OValue (VariableValue Ty.NUM "__tmp1" false);
                          ONumber 0; OValue (VariableValue Ty.NUM "__tmp1" false)]],
        NumberValue (Int 5),
        {| scopes := scopes Examples.state; tmpv := 1 |})
  /\ get Examples.no_constants (UnaryOpNode "!" (NumberValueNode (Int 5))) Examples.state
     = Ok ([MInstruction OP [OText "notEqual"; OValue (VariableValue Ty.NUM "__tmp1" false);
                             OValue (VariableValue Ty.NUM "__tmp1" false); OText "true"]],
           NumberValue (Int 5),
           {| scopes := scopes Examples.state; tmpv := 1 |})
  /\ get Examples.no_constants (UnaryOpNode "~" (NumberValueNode (Int 5))) Examples.state
     = Ok ([MInstruction OP [OText "not"; OValue (VariableValue Ty.NUM "__tmp1" false);
                             OValue (VariableValue Ty.NUM "__tmp1" false); OText "_"]],
           NumberValue (Int 5),
           {| scopes := scopes Examples.state; tmpv := 1 |}).
Proof.
  repeat split; vm_compute; reflexivity.
Qed.

(** ** C7: return *)



(** The same holds for every returned expression: the code of the return
    is the code of the expression and one [set] of the return slot. *)
Lemma ReturnNode_adds_one_set (K : Constants) func f e st code v st' :
  get K e st = Ok ((code, v), st') ->
  Scopes.lookup func (scopes st') = Some (BFunction f) ->
  Value_type v = fun_return_type f ->
  exists ins,
    generate K (ReturnNode func (Some e)) st = Ok (code ++ [ins], st')
    /\ writes_counter ins = false.
Proof.
  intros Hget Hfun Hty.
  rewrite (generate_ReturnNode K func f e st code v st' Hget Hfun).
  unfold Ty.ne. rewrite Hty, N.eqb_refl. cbn [negb].
  eexists. split; [reflexivity|].
  unfold writes_counter.
  assert (H : ("__f_" +:+ func +:+ "_retv") <> "@counter") by (unfold String.app; simpl; discriminate).
  now apply String.eqb_neq in H.
Qed.

(** The generator of [generator.py] does set the counter after the return
    slot. *)
Lemma _generate_ReturnNode_sets_counter fname stack tmp var :
  Generator._generate_ReturnNode (stack ++ [fname]) (Some (tmp, var)) =
    Ok (tmp +:+ PyStr.nl +:+ "set " +:+ ("__f_" +:+ fname +:+ "_retv") +:+ " " +:+ var
        +:+ PyStr.nl +:+ "set @counter __f_" +:+ fname +:+ "_ret",
        "__f_" +:+ fname +:+ "_retv").
Proof.
  unfold Generator._generate_ReturnNode. now rewrite last_snoc.
Qed.

(** ** C4 and C5: constant folding *)

Module PrecalcFacts.
Import PyStr Generator.

(** Two opcodes are not in the table. *)
Lemma equality_not_in_PRECALC m :
  dict_get (PRECALC m) "equal" = None /\ dict_get (PRECALC m) "notEqual" = None.
Proof. split; reflexivity. Qed.

(** A line that is folded has an opcode of the table, so [equal] and
    [notEqual] are never folded; a line that is not folded is not changed. *)
Lemma precalc_line_folded m ln ln' :
  precalc_line m ln = Ok (ln', true) ->
  exists op f, item (split_on " " 4 ln) 1 = Ok op /\ dict_get (PRECALC m) op = Some f.
Proof.
  unfold precalc_line. destruct (Re.fullmatch GEN_REGEXES.MCALC ln); [|discriminate].
  destruct (item (split_on " " 4 ln) 1) as [op|] eqn:Hop; [|discriminate].
  destruct (item (split_on " " 4 ln) 2) as [name|]; [|discriminate].
  cbn [mbind result_bind].
  destruct (item (split_on " " 4 ln) 3 ≫= float_) as [n1|]; [|discriminate].
  destruct (item (split_on " " 4 ln) 4 ≫= float_) as [n2|]; [|discriminate].
  cbn [mbind result_bind].
  destruct (dict_get (PRECALC m) op) as [f|] eqn:Hf; [|discriminate].
  intros _. now exists op, f.
Qed.

Lemma precalc_line_unfolded m ln ln' :
  precalc_line m ln = Ok (ln', false) -> ln' = ln.
Proof.
  unfold precalc_line. destruct (Re.fullmatch GEN_REGEXES.MCALC ln); [|now intros [= <-]].
  destruct (item (split_on " " 4 ln) 1) as [op|]; [|discriminate].
  destruct (item (split_on " " 4 ln) 2) as [name|]; [|discriminate].
  cbn [mbind result_bind].
  destruct (item (split_on " " 4 ln) 3 ≫= float_) as [n1|]; [|discriminate].
  destruct (item (split_on " " 4 ln) 4 ≫= float_) as [n2|]; [|discriminate].
  cbn [mbind result_bind].
  destruct (dict_get (PRECALC m) op) as [f|]; [|now intros [= <-]].
  destruct (f n1 n2) as [r|]; [|discriminate]. cbn [mbind result_bind].
  destruct (int_ r); discriminate.
Qed.

(** The two folds of the specification, and the opcodes left alone. *)
Lemma precalc_examples m :
  _precalc_optimize m "op add t 2 3" = Ok ("set t 5" +:+ nl, true)
  /\ _precalc_optimize m "op mul t 2.5 2" = Ok ("set t 5" +:+ nl, true)
  /\ _precalc_optimize m "op div t 1 3" = Ok ("set t 0.3333333333333333" +:+ nl, true)
  /\ _precalc_optimize m "op equal t 2 2" = Ok ("op equal t 2 2" +:+ nl, false)
  /\ _precalc_optimize m "op notEqual t 2 3" = Ok ("op notEqual t 2 3" +:+ nl, false).
Proof. repeat split; vm_compute; reflexivity. Qed.

End PrecalcFacts.

(** C4 fails on the code. The opcodes shl, shr, or, and, xor and not are
    in the table of foldable opcodes, and the operands are always passed
    as floats, on which Python defines none of the six: a line such as
    [op or t 1 0], which [1 || 0] compiles to, is not replaced by a [set]
    but ends the optimizer with a TypeError. *)
Theorem C4_bitwise_fold_raises (m : Libm) :
  Generator._precalc_optimize m "op or t 1 0" = Raise TypeError
  /\ Generator._precalc_optimize m "op and t 1 0" = Raise TypeError
  /\ Generator._precalc_optimize m "op xor t 1 0" = Raise TypeError
  /\ Generator._precalc_optimize m "op shl t 1 2" = Raise TypeError
  /\ Generator._precalc_optimize m "op shr t 8 2" = Raise TypeError
  /\ Generator._precalc_optimize m "op not t 1 0" = Raise TypeError
  /\ is_compile_error TypeError = false.
Proof. repeat split; vm_compute; reflexivity. Qed.

(** C5 fails on the code. A division, floor division or modulo by the
    literal 0 is folded by the host operation, which raises
    ZeroDivisionError; the pass neither leaves the line alone nor reports
    a compile error. *)
Theorem C5_division_by_zero_raises (m : Libm) :
  Generator._precalc_optimize m "op div t 1 0" = Raise ZeroDivisionError
  /\ Generator._precalc_optimize m "op idiv t 1 0" = Raise ZeroDivisionError
  /\ Generator._precalc_optimize m "op mod t 1 0" = Raise ZeroDivisionError
  /\ is_compile_error ZeroDivisionError = false.
Proof. repeat split; vm_compute; reflexivity. Qed.

(** ** C6: labels that nothing defines *)

(** C6 fails on the code of [linker.py]. [link] looks every word up with
    [labels.get(word, word)], so the name of a label that no instruction
    defines goes into the output as it is, and no error is raised. *)
Theorem C6_unknown_label_is_emitted (exec : Linker.Exec) :
  Linker.defines_label "nowhere" Examples.jump_nowhere = false
  /\ Linker.link exec Examples.jump_nowhere
     = Ok (Examples.text ["set x 1"; "jump nowhere always _ _"]).
Proof. split; vm_compute; reflexivity. Qed.

(** Without a computed macro [link] never fails at all. *)
Lemma link_total (exec : Linker.Exec) (code : list Instruction) :
  Linker.computes_macro code = false -> exists out, Linker.link exec code = Ok out.
Proof.
  intros Hc. unfold Linker.link.
  destruct (LinkerFacts.scan_total exec code {["start" := 0%nat]} ∅ [] Hc) as [r ->].
  cbn [mbind result_bind]. eauto.
Qed.

(** [postprocess] of [generator.py] does stop on such a jump. *)
Lemma postprocess_unknown_label :
  Generator.postprocess (Examples.text ["set x 1"; ">nowhere"])
  = Raise (gen_error ("Unknown label " +:+ PyStr.quoted "nowhere")).
Proof. vm_compute. reflexivity. Qed.

(** ** C8, C9, C10: instances *)

(** C8 as stated fails. The resolved text of [while (c) { print 1; break }]
    ends with two unconditional jumps to line 0, of which [postprocess]
    removes one: the output ends with [jump 0 always _ true]. The resolved
    text of the second program ends with a conditional jump to line 0,
    and [postprocess] removes it. *)
Lemma C8_counterexample :
  Generator.resolved Examples.loop_with_break
  = Ok (PyStr.unlines ["sensor c switch1 @enabled"; "jump 0 notEqual c true"; "print 1";
                       "jump 0 always _ true"; "jump 0 always _ true"])
  /\ Generator.postprocess Examples.loop_with_break
     = Ok (Examples.text ["sensor c switch1 @enabled"; "jump 0 notEqual c true"; "print 1";
                          "jump 0 always _ true"])
  /\ Generator.resolved Examples.repeat_while
     = Ok (PyStr.unlines ["print 1"; "jump 0 equal x true"])
  /\ Generator.postprocess Examples.repeat_while = Ok "print 1".
Proof. repeat split; vm_compute; reflexivity. Qed.

Lemma clean_lines_mixed :
  Forall PyStr.clean (map Generator.undot (PyStr.splitlines Examples.mixed)).
Proof.
  change (map Generator.undot (PyStr.splitlines Examples.mixed))
    with ["set y 1"; "set x x"; "<a"; "print y"; ">a"].
  repeat (constructor; [repeat split|]). constructor.
Defined.

Lemma C10_start_label_witness :
  exists out,
    Linker.link Linker.no_exec Examples.jump_start = Ok out
    /\ PyStr.split out
       = concat (map (fun line => map (Linker.resolve {["start" := 0%nat]}) (PyStr.split line))
                   ["set x 1"; "jump start always _ _"])
    /\ (Linker.defines_label "start" Examples.jump_start = false ->
        Linker.resolve {["start" := 0%nat]} "start" = "0")
    /\ (forall before after labels1 macros1 instrs1,
          Examples.jump_start = before ++ MppInstructionLabel "start" :: after ->
          Linker.defines_label "start" after = false ->
          Linker.scan Linker.no_exec before {["start" := 0%nat]} ∅ []
          = Ok (labels1, macros1, instrs1) ->
          Linker.resolve {["start" := 0%nat]} "start" = PyStr.str_nat (length instrs1)).
Proof.
  apply (C10_start_label Linker.no_exec Examples.jump_start {["start" := 0%nat]} ∅
           ["set x 1"; "jump start always _ _"]).
  reflexivity.
Defined.

(** [link] removes no trailing jump: the jump to [start], line 0, stays
    the last line. *)
Lemma link_keeps_trailing_jump (exec : Linker.Exec) :
  Linker.link exec Examples.jump_start = Ok (Examples.text ["set x 1"; "jump 0 always _ _"]).
Proof. vm_compute. reflexivity. Qed.


(* ===================================================================== *)
(** * Further properties *)
(* ===================================================================== *)

(** ** [util.py] *)

Module UtilFacts.
Import PyStr StrFacts Util.

Lemma replace_char_app old new s t :
  replace_char old new (s +:+ t) = replace_char old new s +:+ replace_char old new t.
Proof.
  induction s as [|c s IH]; [reflexivity|].
  rewrite app_cons. cbn [replace_char]. now rewrite IH, app_assoc.
Qed.

Lemma replace_char_absent old new s :
  all (fun c => negb (Ascii.eqb c old)) s = true -> replace_char old new s = s.
Proof.
  induction s as [|c s IH]; [reflexivity|].
  cbn [all replace_char]. intros [Hc Hs]%andb_prop.
  apply negb_true_iff in Hc. rewrite Hc, (IH Hs). reflexivity.
Qed.

Lemma replace_char_all p old new s :
  all p new = true ->
  all (fun c => p c || Ascii.eqb c old) s = true ->
  all p (replace_char old new s) = true.
Proof.
  intros Hnew. induction s as [|c s IH]; [reflexivity|].
  cbn [all replace_char]. intros [Hc Hs]%andb_prop.
  rewrite all_app, (IH Hs), andb_true_r.
  destruct (Ascii.eqb c old) eqn:E; [exact Hnew|].
  rewrite orb_false_r in Hc. cbn. now rewrite Hc.
Qed.

Lemma all_true (p : ascii -> bool) s : (forall c, p c = true) -> all p s = true.
Proof. intros H. induction s as [|c s IH]; [reflexivity|]. cbn. now rewrite H, IH. Qed.

Lemma sanitize_plain s : all plain (sanitize s) = true.
Proof.
  unfold sanitize.
  apply replace_char_all; [reflexivity|].
  eapply all_impl; [|apply (replace_char_all
    (fun c => negb (Ascii.eqb c LF || Ascii.eqb c TAB)) TAB); [reflexivity|]].
  - intros c. unfold plain. destruct (Ascii.eqb c LF), (Ascii.eqb c TAB), (Ascii.eqb c CR); auto.
  - eapply all_impl; [|apply (replace_char_all (fun c => negb (Ascii.eqb c LF)) LF);
      [reflexivity|apply all_true; intros c; now destruct (Ascii.eqb c LF)]].
    intros c. cbv beta. destruct (Ascii.eqb c LF), (Ascii.eqb c TAB); auto.
Qed.

Lemma sanitize_id s : all plain s = true -> sanitize s = s.
Proof.
  intros H. unfold sanitize.
  rewrite (replace_char_absent LF), (replace_char_absent TAB), (replace_char_absent CR);
    [reflexivity|..]; (eapply all_impl; [|exact H]); intros c; unfold plain;
    destruct (Ascii.eqb c LF), (Ascii.eqb c TAB), (Ascii.eqb c CR); auto.
Qed.

Lemma length_app s t : String.length (s +:+ t) = (String.length s + String.length t)%nat.
Proof. induction s as [|c s IH]; [reflexivity|]. rewrite app_cons. cbn. now rewrite IH. Qed.

Lemma length_mul_str c n : String.length (mul_str (String c "") n) = Z.to_nat n.
Proof.
  unfold mul_str. induction (Z.to_nat n) as [|k IH]; [reflexivity|].
  rewrite Nat.iter_succ, app_cons, app_nil_l. cbn. now rewrite IH.
Qed.

Lemma length_substring n m s :
  (n + m <= String.length s)%nat -> String.length (String.substring n m s) = m.
Proof.
  revert n m. induction s as [|c s IH]; intros n m H; cbn in H.
  - assert (n = 0%nat /\ m = 0%nat) as [-> ->] by lia. reflexivity.
  - destruct n as [|n]; cbn.
    + destruct m as [|m]; [reflexivity|]. cbn. rewrite (IH 0%nat m); [reflexivity|lia].
    + apply IH. lia.
Qed.

End UtilFacts.

(** X1. [sanitize] leaves no line feed, tab or carriage return in a
    text, changes nothing in a text that has none, and so changes nothing
    when it is applied a second time. *)
Theorem sanitize_idempotent (s : string) :
  PyStr.all Util.plain (Util.sanitize s) = true
  /\ (PyStr.all Util.plain s = true <-> Util.sanitize s = s)
  /\ Util.sanitize (Util.sanitize s) = Util.sanitize s.
Proof.
  split; [apply UtilFacts.sanitize_plain|]. split.
  - split; [apply UtilFacts.sanitize_id|].
    intros <-. apply UtilFacts.sanitize_plain.
  - apply UtilFacts.sanitize_id, UtilFacts.sanitize_plain.
Qed.

(** X2. [Position.__add__] keeps a range inside its line: the sum of two
    valid positions is valid, provided two positions on the same line
    carry the same line of code. *)
Theorem Position_add_valid (p q : Position.t) :
  Position.valid p -> Position.valid q ->
  (Position.line p = Position.line q -> Position.code p = Position.code q) ->
  Position.valid (Position.__add__ p q).
Proof.
  intros (Hp1 & Hp2 & Hp3) (Hq1 & Hq2 & Hq3) Hsame.
  unfold Position.__add__.
  destruct (Z.eqb_spec (Position.line p) (Position.line q)) as [E|E].
  - specialize (Hsame E). rewrite <- Hsame in Hq2.
    unfold Position.valid, Position.init.
    cbn [Position.start Position.end_ Position.code].
    rewrite !Hp3. repeat split; lia.
  - destruct (Position.line p <? Position.line q);
      unfold Position.valid, Position.init;
      cbn [Position.start Position.end_ Position.code].
    + rewrite !Hp3. repeat split; lia.
    + rewrite !Hq3. repeat split; lia.
Qed.

Lemma Position_add_valid_witness :
  Position.valid (Position.__add__ (Position.init 3 0 2 "set x 1" "a.mpp")
                                   (Position.init 3 4 5 "set x 1" "a.mpp")).
Proof.
  apply Position_add_valid.
  - repeat split; vm_compute; congruence.
  - repeat split; vm_compute; congruence.
  - reflexivity.
Defined.

(** X3. [Position.__iadd__] leaves in the object the position that
    [Position.__add__] returns for the same operands. *)
Theorem Position_iadd_as_add (l1 s1 e1 l2 s2 e2 : Z) (c1 f1 c2 f2 : string) :
  (Position.__iadd__ (Position.init l1 s1 e1 c1 f1) (Position.init l2 s2 e2 c2 f2)).1
  = Position.__add__ (Position.init l1 s1 e1 c1 f1) (Position.init l2 s2 e2 c2 f2).
Proof.
  unfold Position.__iadd__, Position.__add__, Position.init;
    cbn [Position.start Position.end_ Position.code Position.line Position.file].
  destruct (l1 =? l2); [|destruct (l1 <? l2)]; cbn [fst];
    now rewrite (UtilFacts.sanitize_id _ (UtilFacts.sanitize_plain _)).
Qed.


(** X4. For a range inside its line [code_section] has as many
    characters as the range is long, and [arrows] puts exactly that many
    carets after [start] blanks. *)
Theorem Position_arrows_mark_section (p : Position.t) :
  0 <= Position.start p <= Position.end_ p ->
  Position.end_ p <= Position.len (Position.code p) ->
  Position.len (Position.code_section p) = Position.end_ p - Position.start p
  /\ Position.arrows p
     = Util.mul_str " " (Position.start p)
       +:+ Util.mul_str "^" (Position.len (Position.code_section p))
  /\ Position.len (Position.arrows p) = Position.end_ p.
Proof.
  intros H1 H2. unfold Position.len in *.
  assert (Hlen : Z.of_nat (String.length (Position.code_section p))
                 = Position.end_ p - Position.start p).
  { unfold Position.code_section, Util.slice, Util.slice_bound.
    destruct (Z.ltb_spec (Position.start p) 0); [lia|].
    destruct (Z.ltb_spec (Position.end_ p) 0); [lia|].
    rewrite !Z.min_l by lia.
    rewrite UtilFacts.length_substring; lia. }
  split; [exact Hlen|]. split.
  - unfold Position.arrows. now rewrite Hlen.
  - unfold Position.arrows.
    rewrite UtilFacts.length_app, !UtilFacts.length_mul_str. lia.
Qed.

Lemma Position_arrows_mark_section_witness :
  Position.len (Position.code_section (Position.init 1 4 5 "set x 1" "a.mpp")) = 5 - 4
  /\ Position.arrows (Position.init 1 4 5 "set x 1" "a.mpp")
     = Util.mul_str " " 4
       +:+ Util.mul_str "^" (Position.len
             (Position.code_section (Position.init 1 4 5 "set x 1" "a.mpp")))
  /\ Position.len (Position.arrows (Position.init 1 4 5 "set x 1" "a.mpp")) = 5.
Proof.
  apply (Position_arrows_mark_section (Position.init 1 4 5 "set x 1" "a.mpp"));
    [split|]; vm_compute; congruence.
Defined.

(** ** [value.py]: [Type.from_code] *)

Module TyCodeFacts.
Import TyCode.

Lemma upper_app s t : upper (s +:+ t) = upper s ++ upper t.
Proof.
  induction s as [|c s IH]; [reflexivity|].
  rewrite StrFacts.app_cons. cbn [upper]. now rewrite IH, app_assoc.
Qed.

Lemma upper_tok_loop c var last :
  upper (tok_loop (String c var) last) = step c last ++ upper (tok_loop var true).
Proof.
  cbn [tok_loop]. rewrite upper_app. unfold step.
  destruct (is_upper c && last); cbn [upper]; now rewrite <- ?app_assoc.
Qed.

Lemma strip_prefix_app p l : strip_prefix p (p ++ l) = Some l.
Proof. induction p as [|a p IH]; [reflexivity|]. cbn. now rewrite N.eqb_refl. Qed.

Lemma in_all_chars c : In c all_chars.
Proof.
  unfold all_chars. apply in_map_iff. exists (nat_of_ascii c). split.
  - apply ascii_nat_embedding.
  - apply in_seq. pose proof (nat_ascii_bounded c). lia.
Qed.

Lemma step_nonempty c last : (0 < length (step c last))%nat.
Proof.
  unfold step. rewrite length_app.
  assert (0 < length (upper_char c))%nat; [|lia].
  unfold upper_char. repeat (case_match; cbn; try lia).
Qed.

Lemma preimages_complete var : forall last target fuel,
  (length target <= fuel)%nat ->
  upper (tok_loop var last) = target -> In var (preimages fuel last target).
Proof.
  induction var as [|c var IH]; intros last target fuel Hfuel H.
  - cbn in H. subst target. destruct fuel; now left.
  - rewrite upper_tok_loop in H.
    pose proof (step_nonempty c last) as Hs.
    destruct target as [|a target]; [destruct (step c last); cbn in *; [lia|discriminate]|].
    destruct fuel as [|fuel]; [cbn in Hfuel; lia|].
    cbn [preimages]. apply in_flat_map. exists c. split; [apply in_all_chars|].
    rewrite <- H, strip_prefix_app. apply in_map. apply IH; [|reflexivity].
    assert (length (a :: target) = length (step c last ++ upper (tok_loop var true)))
      as Hl by now rewrite H.
    rewrite length_app in Hl. cbn in Hl, Hfuel. lia.
Qed.

Lemma getitem_Ok d name t :
  getitem d name = Ok t -> exists k, In (k, t) d /\ points k = name.
Proof.
  induction d as [|[k v] d IH]; [discriminate|]. cbn.
  case_bool_decide as E.
  - intros [= <-]. exists k. split; [now left|exact E].
  - intros H. destruct (IH H) as (k' & Hin & Hk). exists k'. split; [now right|exact Hk].
Qed.

Lemma getitem_Raise d name e : getitem d name = Raise e -> e = KeyError.
Proof.
  induction d as [|[k v] d IH]; cbn; [now intros [= <-]|].
  case_bool_decide; [discriminate|exact IH].
Qed.

Lemma dict_get_In {A} (d : list (string * A)) k v : dict_get d k = Some v -> In (k, v) d.
Proof.
  induction d as [|[k' v'] d IH]; [discriminate|].
  change (dict_get ((k', v') :: d) k) with (if String.eqb k' k then Some v' else dict_get d k).
  destruct (String.eqb_spec k' k) as [->|]; [intros [= ->]; now left|].
  intros H. right. now apply IH.
Qed.

Lemma In_dict_get {A} (d : list (string * A)) k v : In (k, v) d -> dict_get d k <> None.
Proof.
  induction d as [|[k' v'] d IH]; [intros []|].
  change (dict_get ((k', v') :: d) k) with (if String.eqb k' k then Some v' else dict_get d k).
  intros [[= -> ->]|H]; [now rewrite String.eqb_refl|].
  destruct (String.eqb k' k); [discriminate|now apply IH].
Qed.

Lemma found_codes : Forall (fun x => In x codes) found.
Proof.
  assert (H : forallb (fun x => existsb (fun y => bool_decide (x = y)) codes) found = true)
    by (vm_compute; reflexivity).
  apply List.Forall_forall. intros x Hx.
  rewrite forallb_forall in H. specialize (H x Hx).
  apply existsb_exists in H as (y & Hy & E). apply bool_decide_eq_true in E. now subst.
Qed.

Lemma codes_accepted : Forall (fun x => from_code x.1 = Ok x.2) codes.
Proof. repeat constructor. Qed.

End TyCodeFacts.

(** X5. [Type.from_code] is the lookup in a table of twenty-four
    spellings: the name of a member or of [ANY] in camel case, the first
    letter small or capital. Every other text, the upper-case names among
    them, raises [KeyError]. *)
Theorem from_code_spellings (var : string) :
  TyCode.from_code var
  = match dict_get TyCode.codes var with
    | Some t => Ok t
    | None => Raise KeyError
    end.
Proof.
  destruct (dict_get TyCode.codes var) as [t|] eqn:E.
  - apply TyCodeFacts.dict_get_In in E.
    pose proof TyCodeFacts.codes_accepted as Hc.
    rewrite List.Forall_forall in Hc. apply (Hc (var, t) E).
  - destruct (TyCode.from_code var) as [t0|e] eqn:F.
    + exfalso. apply TyCodeFacts.getitem_Ok in F as (k & Hin & Hk).
      apply (TyCodeFacts.In_dict_get TyCode.codes var t0); [|exact E].
      pose proof TyCodeFacts.found_codes as Hf. rewrite List.Forall_forall in Hf. apply Hf.
      unfold TyCode.found. apply in_flat_map. exists (k, t0). split; [exact Hin|].
      apply (in_map (fun c => (c, t0))). cbn [fst].
      apply TyCodeFacts.preimages_complete; [|symmetry; exact Hk].
      revert Hin. clear. cbn. intros H.
      repeat (destruct H as [[= <- <-]|H]; [cbn; lia|]). destruct H.
    + f_equal. eapply TyCodeFacts.getitem_Raise, F.
Qed.


(** ** Lines and patterns *)

Module LineFacts.
Import PyStr Re StrFacts ReFacts SplitFacts.

Lemma app_inv_head (p s t : string) : p +:+ s = p +:+ t -> s = t.
Proof.
  induction p as [|c p IH]; [now rewrite !app_nil_l|].
  rewrite !app_cons. intros [= H]. now apply IH.
Qed.

Lemma matches_Star_Cls p s : matches (Star (Cls p)) s <-> all p s = true.
Proof.
  split.
  - intros H. remember (Star (Cls p)) as r eqn:Er.
    induction H as [| | | | | |r0 s1 s2 H1 _ H2 IH2]; try discriminate; [reflexivity|].
    injection Er as ->. apply matches_Cls_inv in H1 as (c & -> & Hc).
    rewrite app_cons, app_nil_l. cbn [all]. now rewrite Hc, IH2.
  - induction s as [|c s IH]; [intros _; constructor|].
    cbn [all]. intros [Hc Hs]%andb_prop.
    change (String c s) with (String c "" +:+ s).
    apply matches_Star_app; [now constructor|now apply IH].
Qed.

Lemma matches_Plus_Cls p s : matches (Plus (Cls p)) s <-> s <> "" /\ all p s = true.
Proof.
  unfold Plus. split.
  - intros (s1 & s2 & -> & H1 & H2)%matches_Seq_inv.
    apply matches_Cls_inv in H1 as (c & -> & Hc). apply matches_Star_Cls in H2.
    rewrite app_cons, app_nil_l. split; [discriminate|]. cbn [all]. now rewrite Hc, H2.
  - intros [Hne H]. destruct s as [|c s]; [contradiction|].
    cbn [all] in H. apply andb_prop in H as [Hc Hs].
    change (String c s) with (String c "" +:+ s).
    constructor; [now constructor|now apply matches_Star_Cls].
Qed.

Lemma matches_Lit_iff p s : matches (Lit p) s <-> s = p.
Proof.
  split; [apply matches_Lit|]. intros ->.
  induction p as [|c p IH]; [constructor|].
  cbn [Lit]. change (String c p) with (String c "" +:+ p).
  constructor; [|exact IH]. constructor. apply Ascii.eqb_refl.
Qed.

Lemma matches_identifier s :
  matches Generator.GEN_REGEXES.identifier s
  <-> exists c r, s = String c r /\ Generator.GEN_REGEXES.name_start c = true
                  /\ all Generator.GEN_REGEXES.name_char r = true.
Proof.
  unfold Generator.GEN_REGEXES.identifier. split.
  - intros (s1 & s2 & -> & H1 & H2)%matches_Seq_inv.
    apply matches_Cls_inv in H1 as (c & -> & Hc). apply matches_Star_Cls in H2.
    exists c, s2. now rewrite app_cons, app_nil_l.
  - intros (c & r & -> & Hc & Hr).
    change (String c r) with (String c "" +:+ r).
    constructor; [now constructor|now apply matches_Star_Cls].
Qed.

(** [split(sep, n)] cuts at the first separator. *)
Lemma split_on_piece sep n w rest :
  all (fun c => negb (Ascii.eqb c sep)) w = true ->
  split_on sep (S n) (w +:+ String sep rest) = w :: split_on sep n rest.
Proof.
  induction w as [|c w IH]; intros H.
  - rewrite app_nil_l. cbn [split_on]. now rewrite Ascii.eqb_refl.
  - cbn [all] in H. apply andb_prop in H as [Hc Hw].
    rewrite app_cons. cbn [split_on].
    apply negb_true_iff in Hc. rewrite Hc, (IH Hw). reflexivity.
Qed.

Lemma split_on_last sep n w :
  all (fun c => negb (Ascii.eqb c sep)) w = true -> split_on sep n w = [w].
Proof.
  destruct n as [|n]; [intros _; now destruct w|].
  induction w as [|c w IH]; intros H; [reflexivity|].
  cbn [all] in H. apply andb_prop in H as [Hc Hw].
  cbn [split_on]. apply negb_true_iff in Hc. now rewrite Hc, (IH Hw).
Qed.

Lemma isdigit_not_blank c : isdigit c = true -> negb (Ascii.eqb c " ") = true.
Proof. destruct c as [[] [] [] [] [] [] [] []]; vm_compute; congruence. Qed.

Lemma isalpha_not_blank c : isalpha c = true -> negb (Ascii.eqb c " ") = true.
Proof. destruct c as [[] [] [] [] [] [] [] []]; vm_compute; congruence. Qed.

Lemma name_start_not_blank c :
  Generator.GEN_REGEXES.name_start c = true -> negb (Ascii.eqb c " ") = true.
Proof. destruct c as [[] [] [] [] [] [] [] []]; vm_compute; congruence. Qed.

Lemma name_char_not_blank c :
  Generator.GEN_REGEXES.name_char c = true -> negb (Ascii.eqb c " ") = true.
Proof. destruct c as [[] [] [] [] [] [] [] []]; vm_compute; congruence. Qed.

Lemma operand_char_not_blank c :
  Generator.GEN_REGEXES.operand_char c = true -> negb (Ascii.eqb c " ") = true.
Proof. destruct c as [[] [] [] [] [] [] [] []]; vm_compute; congruence. Qed.

Lemma identifier_no_blank s :
  matches Generator.GEN_REGEXES.identifier s ->
  all (fun c => negb (Ascii.eqb c " ")) s = true.
Proof.
  intros (c & r & -> & Hc & Hr)%matches_identifier. cbn [all].
  rewrite (name_start_not_blank _ Hc). cbn [andb].
  eapply all_impl; [|exact Hr]. apply name_char_not_blank.
Qed.

(** [str(n)] tells the numbers apart. *)
Lemma str_int_inj a b : str_int a = str_int b -> a = b.
Proof.
  unfold str_int. intros H.
  assert (Hnil : forall z, Z.to_int z <> Decimal.Pos Decimal.Nil
                           /\ Z.to_int z <> Decimal.Neg Decimal.Nil).
  { intros z. split; intros E; pose proof (f_equal Z.of_int E) as E';
      rewrite DecimalZ.of_to in E'; cbn in E'; subst z; discriminate E. }
  apply DecimalZ.to_int_inj.
  apply (f_equal NilZero.int_of_string) in H.
  rewrite !NilZero.isi in H by apply Hnil. congruence.
Qed.

Lemma str_nat_inj a b : str_nat a = str_nat b -> a = b.
Proof. unfold str_nat. intros H%str_int_inj. lia. Qed.

End LineFacts.

(** ** [generator.py]: temporaries *)

Module TemporaryFacts.
Import PyStr StrFacts LineFacts Optimize.

Lemma fresh_names_later calls : forall self name,
  name ∈ fresh_names calls self ->
  (exists n, (tmpv self < n)%nat /\ name = "__tmp" +:+ str_nat n)
  \/ (exists n, (tmpl self < n)%nat /\ name = "__mpp" +:+ str_nat n).
Proof.
  induction calls as [|b calls IH]; intros self name H; [now apply elem_of_nil in H|].
  cbn [fresh_names] in H. apply elem_of_cons in H as [->|H].
  - destruct b; cbn; [left|right]; eexists; (split; [|reflexivity]); lia.
  - apply IH in H. destruct b; cbn in H;
      destruct H as [(n & Hn & ->)|(n & Hn & ->)]; [left|right|left|right];
      exists n; (split; [lia|reflexivity]).
Qed.

End TemporaryFacts.

(** X6. The names that [get_tmp_var] and [get_tmp_label] give never
    repeat: in any run of calls, from any state of the counters, all the
    names are different, those of variables from those of labels too. *)
Theorem fresh_names_NoDup (calls : list bool) (self : Optimize.Counters) :
  NoDup (Optimize.fresh_names calls self).
Proof.
  revert self. induction calls as [|b calls IH]; intros self; [constructor|].
  cbn [Optimize.fresh_names]. apply NoDup_cons. split; [|apply IH].
  intros H. apply TemporaryFacts.fresh_names_later in H.
  destruct b; cbn in H; destruct H as [(n & Hn & E)|(n & Hn & E)].
  - apply LineFacts.app_inv_head, LineFacts.str_nat_inj in E. lia.
  - rewrite !StrFacts.app_cons in E. discriminate.
  - rewrite !StrFacts.app_cons in E. discriminate.
  - apply LineFacts.app_inv_head, LineFacts.str_nat_inj in E. lia.
Qed.


(** ** [generator.py]: [_negative_optimize] and [_forward_use_optimize] *)

Module PassFacts.
Import PyStr Re StrFacts ReFacts SplitFacts LineFacts Optimize.

#[local] Arguments String.append : simpl never.

Lemma fullmatch_Nul s : fullmatch Nul s = false.
Proof. induction s as [|c s IH]; [reflexivity|exact IH]. Qed.

Lemma split_on_zero sep s : split_on sep 0 s = [s].
Proof. now destruct s. Qed.

Lemma TMPS_iff ln :
  fullmatch TMPS ln = true
  <-> exists d v, ln = "set __tmp" +:+ d +:+ " " +:+ v
                  /\ (d <> "" /\ all isdigit d = true)
                  /\ (v <> "" /\ all dot_char v = true).
Proof.
  rewrite fullmatch_matches. unfold TMPS. cbn [Seqs]. split.
  - intros (s1 & r1 & -> & H1 & H)%matches_Seq_inv.
    apply matches_Seq_inv in H as (d & r2 & -> & Hd & H).
    apply matches_Seq_inv in H as (s3 & v & -> & H3 & Hv).
    apply matches_Lit in H1 as ->. apply matches_Lit in H3 as ->.
    apply matches_Plus_Cls in Hd. apply matches_Plus_Cls in Hv.
    now exists d, v.
  - intros (d & v & -> & Hd & Hv).
    repeat (constructor; try now apply matches_Plus_Cls); now apply matches_Lit_iff.
Qed.

Lemma temporary_no_blank d :
  all isdigit d = true -> all (fun c => negb (Ascii.eqb c " ")) ("__tmp" +:+ d) = true.
Proof.
  intros H. rewrite all_app. cbn [andb all]. cbn.
  eapply all_impl; [|exact H]. apply isdigit_not_blank.
Qed.

Lemma TMPS_split d v :
  all isdigit d = true ->
  split_on " " 2 ("set __tmp" +:+ d +:+ " " +:+ v) = ["set"; "__tmp" +:+ d; v].
Proof.
  intros Hd.
  change ("set __tmp" +:+ d +:+ " " +:+ v)
    with ("set" +:+ String " " (("__tmp" +:+ d) +:+ String " " v)).
  rewrite split_on_piece by reflexivity.
  rewrite split_on_piece by now apply temporary_no_blank.
  now rewrite split_on_zero.
Qed.

Lemma item_lookup {A} (l : list A) i x : l !! i = Some x -> item l i = Ok x.
Proof. unfold item. now intros ->. Qed.

Lemma item_middle {A} (pre : list A) x rest : item (pre ++ x :: rest) (length pre) = Ok x.
Proof. apply item_lookup. now apply list_lookup_middle. Qed.

Lemma enumerate_S body rounds i st :
  enumerate body (S rounds) i st
  = item (lns st) i ≫= (fun ln => body i ln st ≫= enumerate body rounds (S i)).
Proof. reflexivity. Qed.

(** *** [_negative_optimize] *)

Lemma negative_body_next i ln next st :
  lns st !! (i + 1)%nat = Some next ->
  negative_body i ln st
  = Ok (match negative_fold ln next with
        | Some folded =>
            {| lns := <[(i + 1)%nat := folded]> (lns st); tmp := tmp st; found := found st |}
        | None => emit ln st
        end).
Proof.
  intros Hnext. unfold negative_body, negative_fold.
  destruct (fullmatch TMPS ln) eqn:Hm; [|reflexivity].
  apply TMPS_iff in Hm as (d & v & -> & [_ Hd] & _).
  pose proof (lookup_lt_Some _ _ _ Hnext) as Hlt.
  destruct (Z.ltb_spec (Z.of_nat i) (Z.of_nat (length (lns st)) - 1)) as [_|]; [|lia].
  rewrite (TMPS_split d v Hd). cbn [item lookup list_lookup mbind result_bind].
  rewrite (item_lookup _ _ _ Hnext). cbn [mbind result_bind].
  destruct (String.eqb next _); [|reflexivity].
  now destruct (fullmatch Generator.GEN_REGEXES.NUM v).
Qed.

Lemma negative_body_last i ln st :
  length (lns st) = S i -> negative_body i ln st = Ok (emit ln st).
Proof.
  intros Hlen. unfold negative_body.
  destruct (fullmatch TMPS ln); [|reflexivity].
  destruct (Z.ltb_spec (Z.of_nat i) (Z.of_nat (length (lns st)) - 1)); [lia|reflexivity].
Qed.

Lemma negative_enumerate rest : forall cur pre text f,
  exists lns',
    enumerate negative_body (S (length rest)) (length pre)
      {| lns := pre ++ cur :: rest; tmp := text; found := f |}
    = Ok {| lns := lns'; tmp := text +:+ unlines (negative_lines cur rest); found := f |}.
Proof.
  induction rest as [|next rest IH]; intros cur pre text f.
  - eexists. rewrite enumerate_S. cbn [length lns enumerate].
    rewrite item_middle. cbn [mbind result_bind].
    rewrite negative_body_last by (cbn [lns]; rewrite length_app; cbn; lia).
    cbn [mbind result_bind emit lns tmp found negative_lines unlines].
    now rewrite app_nil_r.
  - cbn [length]. rewrite enumerate_S. cbn [lns].
    rewrite item_middle. cbn [mbind result_bind].
    assert (Hnext : (pre ++ cur :: next :: rest) !! (length pre + 1)%nat = Some next).
    { rewrite (cons_middle cur), (assoc app).
      replace (length pre + 1)%nat with (length (pre ++ [cur])) by (rewrite length_app; cbn; lia).
      apply list_lookup_middle. reflexivity. }
    rewrite (negative_body_next _ _ next) by exact Hnext.
    cbn [mbind result_bind negative_lines lns tmp found].
    destruct (negative_fold cur next) as [folded|].
    + destruct (IH folded (pre ++ [cur]) text f) as [lns' E].
      exists lns'. rewrite <- E.
      assert (Hi : S (length pre) = length (pre ++ [cur])) by (rewrite length_app; cbn; lia).
      assert (Hl : <[(length pre + 1)%nat := folded]> (pre ++ cur :: next :: rest)
                   = (pre ++ [cur]) ++ folded :: rest).
      { rewrite (cons_middle cur), (assoc app).
        rewrite insert_app_r_alt by (rewrite length_app; cbn; lia).
        replace (length pre + 1 - length (pre ++ [cur]))%nat with 0%nat
          by (rewrite length_app; cbn; lia).
        reflexivity. }
      now rewrite Hi, Hl.
    + destruct (IH next (pre ++ [cur]) (text +:+ cur +:+ nl) f) as [lns' E].
      exists lns'. cbn [unlines]. unfold emit. cbn [lns tmp found].
      assert (Hi : S (length pre) = length (pre ++ [cur])) by (rewrite length_app; cbn; lia).
      assert (Hl : pre ++ cur :: next :: rest = (pre ++ [cur]) ++ next :: rest)
        by now rewrite (cons_middle cur), (assoc app).
      rewrite Hi, Hl, E. now rewrite !app_assoc.
Qed.

Lemma negative_optimize_spec code :
  _negative_optimize code = Ok (unlines (negative_out (splitlines code)), false).
Proof.
  unfold _negative_optimize. destruct (splitlines code) as [|cur rest]; [reflexivity|].
  destruct (negative_enumerate rest cur [] "" false) as [lns' E].
  cbn [length app] in E. cbn [length]. rewrite E. cbn [mbind result_bind tmp found].
  now rewrite app_nil_l.
Qed.

Lemma NUM_chars v :
  fullmatch Generator.GEN_REGEXES.NUM v = true ->
  v <> "" /\ all (fun c => isdigit c || Ascii.eqb c ".") v = true.
Proof.
  rewrite fullmatch_matches.
  unfold Generator.GEN_REGEXES.NUM, Generator.GEN_REGEXES.number, Opt.
  intros (a & b & -> & [Ha1 Ha2]%matches_Plus_Cls & Hb)%matches_Seq_inv.
  split; [intros [? _]%app_eq_nil; contradiction|].
  rewrite all_app. apply andb_true_intro. split.
  - eapply all_impl; [|exact Ha2]. intros c ->. reflexivity.
  - apply matches_Alt_inv in Hb as [Hb|Hb]; [|apply matches_Eps_inv in Hb as ->; reflexivity].
    apply matches_Seq_inv in Hb as (p & q & -> & Hp & [_ Hq]%matches_Plus_Cls).
    apply matches_Cls_inv in Hp as (c & -> & Hc).
    rewrite app_cons, app_nil_l. cbn [all].
    unfold Generator.GEN_REGEXES.dot in Hc. rewrite Ascii.eqb_sym in Hc.
    rewrite Hc, orb_true_r. cbn [andb].
    eapply all_impl; [|exact Hq]. intros d ->. reflexivity.
Qed.

Lemma NUM_dot_chars v :
  fullmatch Generator.GEN_REGEXES.NUM v = true -> v <> "" /\ all dot_char v = true.
Proof.
  intros [Hne H]%NUM_chars. split; [exact Hne|].
  eapply all_impl; [|exact H]. intros c.
  destruct c as [[] [] [] [] [] [] [] []]; vm_compute; congruence.
Qed.

Lemma NUM_minus v : fullmatch Generator.GEN_REGEXES.NUM (String "-" v) = false.
Proof.
  change (fullmatch Generator.GEN_REGEXES.NUM (String "-" v))
    with (fullmatch (deriv "-" Generator.GEN_REGEXES.NUM) v).
  replace (deriv "-" Generator.GEN_REGEXES.NUM) with Nul by (vm_compute; reflexivity).
  apply fullmatch_Nul.
Qed.

Lemma negative_fold_other cur next :
  fullmatch TMPS cur = false -> negative_fold cur next = None.
Proof. unfold negative_fold. now intros ->. Qed.

Lemma negative_lines_other cur rest :
  fullmatch TMPS cur = false -> negative_lines cur rest = cur :: negative_out rest.
Proof.
  intros H. destruct rest as [|next rest]; [reflexivity|].
  cbn [negative_lines negative_out]. now rewrite negative_fold_other.
Qed.

Lemma negative_out_app pre l :
  Forall (fun ln => fullmatch TMPS ln = false) pre ->
  negative_out (pre ++ l) = pre ++ negative_out l.
Proof.
  induction 1 as [|cur pre Hc _ IH]; [reflexivity|].
  cbn [app negative_out]. rewrite negative_lines_other by exact Hc. now rewrite IH.
Qed.

Lemma negative_fold_folds name val :
  temporary name -> fullmatch Generator.GEN_REGEXES.NUM val = true ->
  negative_fold ("set " +:+ name +:+ " " +:+ val) ("op sub " +:+ name +:+ " 0 " +:+ name)
  = Some ("set " +:+ name +:+ " -" +:+ val).
Proof.
  intros (d & -> & Hne & Hd) Hval. unfold negative_fold.
  assert (Hm : fullmatch TMPS ("set " +:+ ("__tmp" +:+ d) +:+ " " +:+ val) = true).
  { apply TMPS_iff. exists d, val. split; [reflexivity|]. split; [now split|].
    now apply NUM_dot_chars. }
  rewrite Hm.
  change ("set " +:+ ("__tmp" +:+ d) +:+ " " +:+ val)
    with ("set __tmp" +:+ d +:+ " " +:+ val).
  rewrite (TMPS_split d val Hd). now rewrite String.eqb_refl, Hval.
Qed.

Lemma negative_fold_folded name val next :
  temporary name -> negative_fold ("set " +:+ name +:+ " -" +:+ val) next = None.
Proof.
  intros (d & -> & Hne & Hd). unfold negative_fold.
  destruct (fullmatch TMPS _); [|reflexivity].
  change ("set " +:+ ("__tmp" +:+ d) +:+ " -" +:+ val)
    with ("set __tmp" +:+ d +:+ " " +:+ String "-" val).
  rewrite (TMPS_split d _ Hd). now rewrite NUM_minus, andb_false_r.
Qed.

Lemma nobreaks_app a b : nobreaks (a ++ b) <-> nobreaks a /\ nobreaks b.
Proof. apply Forall_app. Qed.

End PassFacts.

(** X7. [_negative_optimize] never raises, and it always returns
    [False] for [found], also when it has folded lines. *)
Theorem negative_optimize_found_false (code : string) :
  exists text, Optimize._negative_optimize code = Ok (text, false).
Proof. eexists. apply PassFacts.negative_optimize_spec. Qed.

(** X8. [_negative_optimize] folds a number [val] set to a temporary and
    the negation [op sub name 0 name] on the next line into
    [set name -val]. The lines before, none of which sets a temporary,
    stay; the lines after are treated as if the text began with them. *)
Theorem negative_optimize_folds (code : string) (pre post : list string)
    (name val : string) :
  Optimize.temporary name ->
  Re.fullmatch Generator.GEN_REGEXES.NUM val = true ->
  Forall (fun ln => Re.fullmatch Optimize.TMPS ln = false) pre ->
  PyStr.splitlines code
  = pre ++ ["set " +:+ name +:+ " " +:+ val; "op sub " +:+ name +:+ " 0 " +:+ name] ++ post ->
  exists rest,
    Optimize._negative_optimize (PyStr.unlines post) = Ok (rest, false)
    /\ Optimize._negative_optimize code
       = Ok (PyStr.unlines (pre ++ ["set " +:+ name +:+ " -" +:+ val]) +:+ rest, false).
Proof.
  intros Hname Hval Hpre Hcode.
  exists (PyStr.unlines (Optimize.negative_out post)).
  assert (Hpost : PyStr.splitlines (PyStr.unlines post) = post).
  { apply StrFacts.splitlines_unlines.
    pose proof (StrFacts.splitlines_nobreaks code) as Hb. rewrite Hcode in Hb.
    apply PassFacts.nobreaks_app in Hb as [_ Hb].
    now apply PassFacts.nobreaks_app in Hb as [_ Hb]. }
  split.
  - rewrite PassFacts.negative_optimize_spec. now rewrite Hpost.
  - rewrite PassFacts.negative_optimize_spec, Hcode.
    rewrite PassFacts.negative_out_app by exact Hpre.
    cbn [app Optimize.negative_out Optimize.negative_lines].
    rewrite PassFacts.negative_fold_folds by assumption.
    assert (Hrest : Optimize.negative_lines ("set " +:+ name +:+ " -" +:+ val) post
                    = ("set " +:+ name +:+ " -" +:+ val) :: Optimize.negative_out post).
    { destruct post as [|next post]; [reflexivity|].
      cbn [Optimize.negative_lines Optimize.negative_out].
      now rewrite PassFacts.negative_fold_folded. }
    rewrite Hrest, !StrFacts.unlines_app. cbn [PyStr.unlines].
    now rewrite !StrFacts.app_assoc, StrFacts.app_nil_l.
Qed.

Lemma negative_optimize_folds_witness :
  exists rest,
    Optimize._negative_optimize (PyStr.unlines ["print __tmp1"]) = Ok (rest, false)
    /\ Optimize._negative_optimize
         (PyStr.unlines ["set x 1"; "set __tmp1 5"; "op sub __tmp1 0 __tmp1"; "print __tmp1"])
       = Ok (PyStr.unlines (["set x 1"] ++ ["set __tmp1 -5"]) +:+ rest, false).
Proof.
  apply (negative_optimize_folds _ ["set x 1"] ["print __tmp1"] "__tmp1" "5").
  - exists "1". repeat split. discriminate.
  - reflexivity.
  - repeat constructor.
  - reflexivity.
Defined.


Module ForwardFacts.
Import PyStr Re StrFacts ReFacts SplitFacts LineFacts Optimize PassFacts.

#[local] Arguments String.append : simpl never.

Lemma enumerate_inv body (Inv : nat -> pass -> Prop) :
  (forall i ln st st', Inv i st -> lns st !! i = Some ln -> body i ln st = Ok st' ->
                       Inv (S i) st') ->
  forall rounds i st st',
    Inv i st -> enumerate body rounds i st = Ok st' -> Inv (rounds + i)%nat st'.
Proof.
  intros Hstep. induction rounds as [|rounds IH]; intros i st st' Hi.
  - now intros [= <-].
  - rewrite enumerate_S.
    destruct (item (lns st) i) as [ln|] eqn:Hln; [|discriminate].
    apply item_Ok in Hln. cbn [mbind result_bind].
    destruct (body i ln st) as [st1|] eqn:Hb; [|discriminate].
    cbn [mbind result_bind]. intros H.
    replace (S rounds + i)%nat with (rounds + S i)%nat by lia.
    eapply IH; [|exact H]. eapply Hstep; eassumption.
Qed.

Lemma item_nobreak sep n s i x : nobreak s -> item (split_on sep n s) i = Ok x -> nobreak x.
Proof.
  intros Hs Hx%item_Ok.
  exact (Forall_lookup_1 _ _ _ _ (split_on_all _ sep n s Hs) Hx).
Qed.

Lemma nobreaks_lookup l i x : nobreaks l -> l !! i = Some x -> nobreak x.
Proof.
  intros Hl Hx. exact (Forall_lookup_1 _ _ _ _ Hl Hx).
Qed.

Lemma nobreaks_insert l i x : nobreaks l -> nobreak x -> nobreaks (<[i := x]> l).
Proof. intros Hl Hx. now apply Forall_insert. Qed.

(** One round either writes the line or overwrites a line further on. *)
Lemma forward_body_cases n i ln st st' :
  nobreaks (lns st) -> nobreak ln ->
  forward_body n i ln st = Ok st' ->
  st' = emit ln st
  \/ exists j l', nobreak l'
       /\ st' = {| lns := <[j := l']> (lns st); tmp := tmp st; found := true |}.
Proof.
  intros Hlns Hln. unfold forward_body.
  destruct (fullmatch TMPS ln); [|intros [= <-]; now left].
  destruct (item (split_on " " 2 ln) 1) as [name|] eqn:Hname; [|discriminate].
  destruct (item (split_on " " 2 ln) 2) as [val|] eqn:Hval; [|discriminate].
  cbn [mbind result_bind].
  destruct (Z.of_nat i <? Z.of_nat (length (lns st)) - n); [|intros [= <-]; now left].
  destruct (index (lns st) (Z.of_nat i + n)) as [j|]; [|discriminate].
  cbn [mbind result_bind].
  destruct (item (lns st) j) as [target|] eqn:Ht; [|discriminate].
  cbn [mbind result_bind].
  destruct (fullmatch TMPOP target); [|intros [= <-]; now left].
  destruct (item (split_on " " 4 target) 2) as [s2|] eqn:H2; [|discriminate].
  cbn [mbind result_bind].
  destruct (String.eqb s2 name); [|intros [= <-]; now left].
  destruct (item (split_on " " 4 target) 0) as [s0|] eqn:H0; [|discriminate].
  destruct (item (split_on " " 4 target) 1) as [s1|] eqn:H1; [|discriminate].
  destruct (item (split_on " " 4 target) 4) as [s4|] eqn:H4; [|discriminate].
  cbn [mbind result_bind]. intros [= <-]. right. eexists _, _. split; [|reflexivity].
  pose proof (nobreaks_lookup _ _ _ Hlns (item_Ok _ _ _ Ht)) as Htarget.
  unfold nobreak. rewrite !all_app.
  rewrite (item_nobreak _ _ _ _ _ Htarget H0), (item_nobreak _ _ _ _ _ Htarget H1),
    (item_nobreak _ _ _ _ _ Htarget H2), (item_nobreak _ _ _ _ _ Htarget H4),
    (item_nobreak _ _ _ _ _ Hln Hval).
  reflexivity.
Qed.

Lemma forward_inv_step lns0 n i ln st st' :
  forward_inv lns0 i st -> lns st !! i = Some ln -> forward_body n i ln st = Ok st' ->
  forward_inv lns0 (S i) st'.
Proof.
  intros (Hlen & Hnb & out & Htmp & Hout & Hf) Hln Hb.
  pose proof (nobreaks_lookup _ _ _ Hnb Hln) as Hnl.
  pose proof (lookup_lt_Some _ _ _ Hln) as Hlt.
  destruct (forward_body_cases _ _ _ _ _ Hnb Hnl Hb) as [->|(j & l' & Hl' & ->)].
  - unfold forward_inv, emit. cbn [lns tmp found].
    split; [exact Hlen|]. split; [exact Hnb|].
    exists (out ++ [ln]). split; [now rewrite Htmp, unlines_snoc|].
    split; [apply Forall_app; split; [exact Hout|now constructor]|].
    destruct (found st).
    + rewrite length_app. cbn. lia.
    + destruct Hf as [-> E]. split; [|exact E].
      rewrite E in Hln. now rewrite (take_S_r _ _ _ Hln).
  - unfold forward_inv. cbn [lns tmp found].
    split; [now rewrite length_insert|]. split; [now apply nobreaks_insert|].
    exists out. split; [exact Htmp|]. split; [exact Hout|].
    destruct (found st); [lia|].
    destruct Hf as [-> E]. rewrite length_take. lia.
Qed.

Lemma TMPOP_iff ln :
  fullmatch TMPOP ln = true
  <-> exists o a b r,
        ln = "op " +:+ o +:+ " " +:+ a +:+ " " +:+ b +:+ " " +:+ r
        /\ (o <> "" /\ all isalpha o = true)
        /\ matches Generator.GEN_REGEXES.identifier a
        /\ matches Generator.GEN_REGEXES.identifier b
        /\ (r <> "" /\ all dot_char r = true).
Proof.
  rewrite fullmatch_matches. unfold TMPOP. cbn [Seqs]. split.
  - intros (s1 & r1 & -> & H1 & H)%matches_Seq_inv.
    apply matches_Seq_inv in H as (o & r2 & -> & Ho & H).
    apply matches_Seq_inv in H as (sa & r3 & -> & Ha & H).
    apply matches_Seq_inv in H as (sb & r4 & -> & Hb & H).
    apply matches_Seq_inv in H as (s5 & r & -> & H5 & Hr).
    apply matches_Seq_inv in Ha as (s2 & a & -> & H2 & Ha).
    apply matches_Seq_inv in Hb as (s3 & b & -> & H3 & Hb).
    apply matches_Lit in H1 as ->. apply matches_Lit in H2 as ->.
    apply matches_Lit in H3 as ->. apply matches_Lit in H5 as ->.
    apply matches_Plus_Cls in Ho. apply matches_Plus_Cls in Hr.
    exists o, a, b, r. now rewrite !app_assoc.
  - intros (o & a & b & r & -> & Ho & Ha & Hb & Hr).
    replace ("op " +:+ o +:+ " " +:+ a +:+ " " +:+ b +:+ " " +:+ r)
      with ("op " +:+ o +:+ (" " +:+ a) +:+ (" " +:+ b) +:+ " " +:+ r)
      by now rewrite !app_assoc.
    apply matches_Seq; [now apply matches_Lit_iff|].
    apply matches_Seq; [now apply matches_Plus_Cls|].
    apply matches_Seq; [apply matches_Seq; [now apply matches_Lit_iff|exact Ha]|].
    apply matches_Seq; [apply matches_Seq; [now apply matches_Lit_iff|exact Hb]|].
    apply matches_Seq; [now apply matches_Lit_iff|now apply matches_Plus_Cls].
Qed.

Lemma TMPOP_split o a b r :
  all isalpha o = true ->
  matches Generator.GEN_REGEXES.identifier a ->
  matches Generator.GEN_REGEXES.identifier b ->
  split_on " " 4 ("op " +:+ o +:+ " " +:+ a +:+ " " +:+ b +:+ " " +:+ r)
  = ["op"; o; a; b; r].
Proof.
  intros Ho Ha Hb.
  change ("op " +:+ o +:+ " " +:+ a +:+ " " +:+ b +:+ " " +:+ r)
    with ("op" +:+ String " " (o +:+ String " " (a +:+ String " " (b +:+ String " " r)))).
  rewrite split_on_piece by reflexivity.
  rewrite split_on_piece by (eapply all_impl; [|exact Ho]; apply isalpha_not_blank).
  rewrite split_on_piece by now apply identifier_no_blank.
  rewrite split_on_piece by now apply identifier_no_blank.
  now rewrite split_on_zero.
Qed.

Lemma forward_body_other n i ln st :
  fullmatch TMPS ln = false -> forward_body n i ln st = Ok (emit ln st).
Proof. unfold forward_body. now intros ->. Qed.

(** Lines that set no temporary are written as they are. *)
Lemma enumerate_other n block : forall k pre suf text f,
  Forall (fun ln => fullmatch TMPS ln = false) block ->
  enumerate (forward_body n) (length block + k) (length pre)
    {| lns := pre ++ block ++ suf; tmp := text; found := f |}
  = enumerate (forward_body n) k (length pre + length block)
      {| lns := pre ++ block ++ suf; tmp := text +:+ unlines block; found := f |}.
Proof.
  induction block as [|ln block IH]; intros k pre suf text f Hb.
  - cbn [length app unlines Nat.add]. now rewrite app_nil_r, Nat.add_0_r.
  - apply Forall_cons in Hb as [Hln Hb].
    cbn [length Nat.add]. rewrite enumerate_S. cbn [lns app].
    rewrite item_middle. cbn [mbind result_bind].
    rewrite forward_body_other by exact Hln. cbn [mbind result_bind].
    unfold emit. cbn [lns tmp found].
    specialize (IH k (pre ++ [ln]) suf (text +:+ ln +:+ nl) f Hb).
    rewrite length_app in IH. cbn [length] in IH.
    rewrite <- (assoc app pre [ln]) in IH. cbn [app] in IH.
    replace (length pre + 1)%nat with (S (length pre)) in IH by lia.
    rewrite IH. cbn [unlines]. rewrite !app_assoc.
    now replace (S (length pre) + length block)%nat with (length pre + S (length block))%nat by lia.
Qed.

Lemma enumerate_first n block k suf text f rounds :
  Forall (fun ln => fullmatch TMPS ln = false) block ->
  rounds = (length block + k)%nat ->
  enumerate (forward_body n) rounds 0 {| lns := block ++ suf; tmp := text; found := f |}
  = enumerate (forward_body n) k (length block)
      {| lns := block ++ suf; tmp := text +:+ unlines block; found := f |}.
Proof. intros Hb ->. exact (enumerate_other n block k [] suf text f Hb). Qed.

Lemma enumerate_rest n block pre text f rounds i :
  Forall (fun ln => fullmatch TMPS ln = false) block ->
  rounds = length block -> i = length pre ->
  enumerate (forward_body n) rounds i {| lns := pre ++ block; tmp := text; found := f |}
  = Ok {| lns := pre ++ block; tmp := text +:+ unlines block; found := f |}.
Proof.
  intros Hb -> ->. pose proof (enumerate_other n block 0 pre [] text f Hb) as E.
  rewrite List.app_nil_r, Nat.add_0_r in E. now rewrite E.
Qed.

Lemma TMPS_op s : fullmatch TMPS ("op " +:+ s) = false.
Proof.
  change (fullmatch TMPS ("op " +:+ s)) with (fullmatch (deriv "o" TMPS) (String "p" (String " " s))).
  replace (deriv "o" TMPS) with Nul by (vm_compute; reflexivity).
  apply fullmatch_Nul.
Qed.

Lemma temporary_identifier d :
  all isdigit d = true -> matches Generator.GEN_REGEXES.identifier ("__tmp" +:+ d).
Proof.
  intros Hd. apply matches_identifier. exists "_"%char, ("_tmp" +:+ d).
  split; [reflexivity|]. split; [reflexivity|].
  rewrite all_app. apply andb_true_intro. split; [reflexivity|].
  eapply all_impl; [|exact Hd]. intros c.
  destruct c as [[] [] [] [] [] [] [] []]; vm_compute; congruence.
Qed.

Lemma nobreak_dot_char s : nobreak s -> all dot_char s = true.
Proof.
  apply all_impl. intros c.
  destruct c as [[] [] [] [] [] [] [] []]; vm_compute; congruence.
Qed.

End ForwardFacts.

(** What [_forward_use_optimize] returns for [found] tells whether the
    text changed. *)
Lemma forward_use_optimize_returned (code : string) (n_lines : Z) (text : string)
    (found : bool) :
  Optimize._forward_use_optimize code n_lines = Ok (text, found) ->
  if found then (length (PyStr.splitlines text) < length (PyStr.splitlines code))%nat
  else text = PyStr.unlines (PyStr.splitlines code).
Proof.
  unfold Optimize._forward_use_optimize.
  destruct (Optimize.enumerate _ _ _ _) as [st|] eqn:E; [|discriminate].
  cbn [mbind result_bind]. intros [= <- <-].
  apply (ForwardFacts.enumerate_inv _ (Optimize.forward_inv (PyStr.splitlines code)))
    in E.
  - destruct E as (_ & _ & out & -> & Hout & Hf).
    rewrite Nat.add_0_r in Hf.
    rewrite (StrFacts.splitlines_unlines _ Hout).
    destruct (Optimize.found st); [exact Hf|].
    destruct Hf as [-> _]. now rewrite take_ge.
  - intros i ln st0 st1. apply ForwardFacts.forward_inv_step.
  - split; [reflexivity|]. split; [apply StrFacts.splitlines_nobreaks|].
    exists []. split; [reflexivity|]. split; [constructor|]. now cbn.
Qed.


Module ForwardMoves.
Import PyStr Re StrFacts ReFacts SplitFacts LineFacts Optimize PassFacts ForwardFacts.

#[local] Arguments String.append : simpl never.

Lemma forward_body_moves pre mid post d val o a b text f :
  all isdigit d = true -> d <> "" -> val <> "" -> nobreak val ->
  o <> "" -> all isalpha o = true ->
  matches Generator.GEN_REGEXES.identifier a ->
  b <> "" -> nobreak b ->
  forward_body (Z.of_nat (S (length mid))) (length pre)
    ("set __tmp" +:+ d +:+ " " +:+ val)
    {| lns := pre ++ ("set __tmp" +:+ d +:+ " " +:+ val) :: mid
                ++ ("op " +:+ o +:+ " " +:+ ("__tmp" +:+ d) +:+ " " +:+ a +:+ " " +:+ b) :: post;
       tmp := text; found := f |}
  = Ok {| lns := pre ++ ("set __tmp" +:+ d +:+ " " +:+ val) :: mid
                   ++ ("op " +:+ o +:+ " " +:+ ("__tmp" +:+ d) +:+ " " +:+ val +:+ " " +:+ b) :: post;
          tmp := text; found := true |}.
Proof.
  intros Hd Hdne Hvne Hv Hone Ho Ha Hbne Hb.
  set (l1 := "set __tmp" +:+ d +:+ " " +:+ val).
  set (l2 := "op " +:+ o +:+ " " +:+ ("__tmp" +:+ d) +:+ " " +:+ a +:+ " " +:+ b).
  unfold forward_body.
  assert (Hm1 : fullmatch TMPS l1 = true).
  { apply TMPS_iff. exists d, val. repeat split; try assumption. now apply nobreak_dot_char. }
  assert (Hs1 : split_on " " 2 l1 = ["set"; "__tmp" +:+ d; val]) by now apply TMPS_split.
  rewrite Hm1, Hs1.
  cbn [item lookup list_lookup mbind result_bind lns].
  assert (Hlen : length (pre ++ l1 :: mid ++ l2 :: post)
                 = (length pre + S (length mid) + S (length post))%nat).
  { rewrite length_app. cbn [length]. rewrite length_app. cbn [length]. lia. }
  rewrite Hlen.
  destruct (Z.ltb_spec (Z.of_nat (length pre))
              (Z.of_nat (length pre + S (length mid) + S (length post))
               - Z.of_nat (S (length mid)))) as [_|]; [|lia].
  unfold index. rewrite Hlen.
  destruct (Z.leb_spec 0 (Z.of_nat (length pre) + Z.of_nat (S (length mid)))); [|lia].
  destruct (Z.ltb_spec (Z.of_nat (length pre) + Z.of_nat (S (length mid)))
              (Z.of_nat (length pre + S (length mid) + S (length post)))); [|lia].
  cbn [andb mbind result_bind].
  replace (Z.to_nat (Z.of_nat (length pre) + Z.of_nat (S (length mid))))
    with (length ((pre ++ [l1]) ++ mid)) by (rewrite !length_app; cbn [length]; lia).
  assert (Hsplit : forall x, pre ++ l1 :: mid ++ x :: post = ((pre ++ [l1]) ++ mid) ++ x :: post)
    by (intros x; now rewrite <- !(assoc app)).
  rewrite !Hsplit. rewrite item_middle. cbn [mbind result_bind].
  assert (Hm2 : fullmatch TMPOP l2 = true).
  { apply TMPOP_iff. exists o, ("__tmp" +:+ d), a, b. repeat split; try assumption.
    - now apply temporary_identifier.
    - now apply nobreak_dot_char. }
  assert (Hs2 : split_on " " 4 l2 = ["op"; o; "__tmp" +:+ d; a; b])
    by (apply TMPOP_split; [assumption|now apply temporary_identifier|assumption]).
  rewrite Hm2, Hs2.
  cbn [item lookup list_lookup mbind result_bind].
  rewrite String.eqb_refl. cbn [mbind result_bind]. f_equal. f_equal.
  rewrite insert_app_r_alt by lia.
  now replace (length ((pre ++ [l1]) ++ mid) - length ((pre ++ [l1]) ++ mid))%nat
    with 0%nat by lia.
Qed.

End ForwardMoves.

(** X10. [_forward_use_optimize] with [n_lines] moves the value set to a
    temporary into the operation [n_lines] lines further on whose
    destination is that temporary: the [set] goes away and the value
    takes the place of the first operand of the operation, whatever that
    operand was. The other lines, none of which sets a temporary, stay. *)
Theorem forward_use_optimize_moves (code : string) (pre mid post : list string)
    (name val o a b : string) :
  Optimize.temporary name -> val <> "" ->
  o <> "" -> PyStr.all PyStr.isalpha o = true ->
  Re.fullmatch Generator.GEN_REGEXES.identifier a = true -> b <> "" ->
  Forall (fun ln => Re.fullmatch Optimize.TMPS ln = false) (pre ++ mid ++ post) ->
  PyStr.splitlines code
  = pre ++ ["set " +:+ name +:+ " " +:+ val] ++ mid
    ++ ["op " +:+ o +:+ " " +:+ name +:+ " " +:+ a +:+ " " +:+ b] ++ post ->
  Optimize._forward_use_optimize code (Z.of_nat (S (length mid)))
  = Ok (PyStr.unlines
          (pre ++ mid ++ ["op " +:+ o +:+ " " +:+ name +:+ " " +:+ val +:+ " " +:+ b] ++ post),
        true).
Proof.
  intros (d & -> & Hdne & Hd) Hvne Hone Ho Ha%ReFacts.fullmatch_matches Hbne Hother Hcode.
  apply Forall_app in Hother as [Hpre Hother]. apply Forall_app in Hother as [Hmid Hpost].
  pose proof (StrFacts.splitlines_nobreaks code) as Hnb. rewrite Hcode in Hnb.
  apply Forall_app in Hnb as [_ Hnb]. apply Forall_app in Hnb as [Hl1 Hnb].
  apply Forall_app in Hnb as [_ Hnb]. apply Forall_app in Hnb as [Hl2 _].
  apply Forall_inv in Hl1. apply Forall_inv in Hl2.
  assert (Hv : Optimize.nobreak val).
  { unfold Optimize.nobreak. rewrite !StrFacts.all_app in Hl1.
    now repeat (apply andb_prop in Hl1 as [_ Hl1]). }
  assert (Hb : Optimize.nobreak b).
  { unfold Optimize.nobreak. rewrite !StrFacts.all_app in Hl2.
    now repeat (apply andb_prop in Hl2 as [_ Hl2]). }
  unfold Optimize._forward_use_optimize. rewrite Hcode.
  set (l1 := "set " +:+ ("__tmp" +:+ d) +:+ " " +:+ val).
  set (l2 := "op " +:+ o +:+ " " +:+ ("__tmp" +:+ d) +:+ " " +:+ a +:+ " " +:+ b).
  set (l2' := "op " +:+ o +:+ " " +:+ ("__tmp" +:+ d) +:+ " " +:+ val +:+ " " +:+ b).
  cbn [app].
  rewrite (ForwardFacts.enumerate_first _ pre (S (length (mid ++ l2' :: post))))
    by (try assumption; rewrite !length_app; cbn [length]; rewrite !length_app;
        cbn [length]; lia).
  rewrite PassFacts.enumerate_S. cbn [Optimize.lns].
  rewrite PassFacts.item_middle. cbn [mbind result_bind].
  pose proof (ForwardMoves.forward_body_moves pre mid post d val o a b
                ("" +:+ PyStr.unlines pre) false Hd Hdne Hvne Hv Hone Ho Ha Hbne Hb) as E2.
  change ("set __tmp" +:+ d +:+ " " +:+ val) with l1 in E2.
  fold l2 l2' in E2. rewrite E2. clear E2. cbn [mbind result_bind].
  assert (Hblock : Forall (fun ln => Re.fullmatch Optimize.TMPS ln = false)
                     (mid ++ l2' :: post)).
  { apply Forall_app. split; [exact Hmid|]. constructor; [apply ForwardFacts.TMPS_op|exact Hpost]. }
  replace (pre ++ l1 :: mid ++ l2' :: post) with ((pre ++ [l1]) ++ (mid ++ l2' :: post))
    by now rewrite <- (assoc app).
  rewrite (ForwardFacts.enumerate_rest _ (mid ++ l2' :: post) (pre ++ [l1]))
    by (try assumption; try reflexivity; rewrite length_app; cbn [length]; lia).
  cbn [mbind result_bind Optimize.tmp Optimize.found].
  now rewrite StrFacts.app_nil_l, <- !StrFacts.unlines_app.
Qed.

Lemma forward_use_optimize_moves_witness :
  Optimize._forward_use_optimize
    (PyStr.unlines ["set __tmp1 5"; "print x"; "op add __tmp1 a b"])
    (Z.of_nat (S (length ["print x"])))
  = Ok (PyStr.unlines ([] ++ ["print x"] ++ ["op add __tmp1 5 b"] ++ []), true).
Proof.
  apply (forward_use_optimize_moves _ [] ["print x"] [] "__tmp1" "5" "add" "a" "b").
  - exists "1". repeat split. discriminate.
  - discriminate.
  - discriminate.
  - reflexivity.
  - reflexivity.
  - discriminate.
  - repeat constructor.
  - reflexivity.
Defined.


(** ** [generator.py]: [_precalc_optimize] *)

Module FoldFacts.
Import PyStr Re StrFacts ReFacts SplitFacts LineFacts Generator Optimize.

#[local] Arguments String.append : simpl never.

Lemma all_take p n s : all p s = true -> all p (PyFloat.take n s) = true.
Proof.
  revert n. induction s as [|c s IH]; intros [|n] H; try reflexivity.
  cbn [all PyFloat.take] in *. apply andb_prop in H as [-> H]. now rewrite IH.
Qed.

Lemma all_drop p n s : all p s = true -> all p (PyFloat.drop n s) = true.
Proof.
  revert n. induction s as [|c s IH]; intros [|n] H; try reflexivity; try exact H.
  cbn [all PyFloat.drop] in *. apply andb_prop in H as [_ H]. now apply IH.
Qed.

Lemma all_substring p n k s : all p s = true -> all p (String.substring n k s) = true.
Proof.
  revert n k. induction s as [|c s IH]; intros n k H.
  - now destruct n, k.
  - cbn [all] in H. apply andb_prop in H as [Hc H].
    destruct n as [|n]; [destruct k as [|k]; [reflexivity|]|]; cbn [String.substring all].
    + now rewrite Hc, IH.
    + now apply IH.
Qed.

Lemma all_zeros p n : p "0"%char = true -> all p (PyFloat.zeros n) = true.
Proof.
  intros H. induction n as [|n IH]; [reflexivity|].
  cbn [PyFloat.zeros]. rewrite all_app, IH. cbn. now rewrite H.
Qed.

Lemma number_char_nobreak c : number_char c = true -> negb (islinebreak c) = true.
Proof. destruct c as [[] [] [] [] [] [] [] []]; vm_compute; congruence. Qed.

Lemma str_int_number z : all number_char (str_int z) = true.
Proof.
  eapply all_impl; [|apply str_int_chars]. intros c H. unfold number_char. now rewrite H.
Qed.

Lemma digits_of_number x ds k : PyFloat.digits_of x = (ds, k) -> all number_char ds = true.
Proof.
  unfold PyFloat.digits_of. destruct x as [s|s| |s m e]; [intros [= <- _]; reflexivity..|].
  destruct (if 0 <=? e then _ else _) as [n d].
  destruct (PyFloat.shortest _ _ _ _ _ _) as [c dg].
  intros H. change ds with (fst (ds, k)). rewrite <- H. cbn [fst]. apply str_int_number.
Qed.

Lemma repr_number x : all number_char (PyFloat.repr x) = true.
Proof.
  unfold PyFloat.repr. destruct x as [[]|[]| |s m e]; try reflexivity.
  destruct (PyFloat.digits_of _) as [ds k] eqn:E. apply digits_of_number in E.
  rewrite all_app. apply andb_true_intro. split; [now destruct s|].
  repeat (case_match; rewrite ?all_app);
    rewrite ?(all_substring _ _ _ _ E), ?(all_drop _ _ _ E), ?(all_take _ _ _ E),
      ?str_int_number, ?all_zeros by reflexivity; rewrite ?E; reflexivity.
Qed.

Lemma str_obj_nobreak o z :
  int_ o = Ok z -> nobreak (str_obj (if eq_int o z then PInt z else o)).
Proof.
  intros Hz. unfold nobreak. apply (all_impl number_char); [apply number_char_nobreak|].
  destruct (eq_int o z) eqn:Eq; [apply str_int_number|].
  destruct o as [y|f|b|]; cbn [str_obj].
  - apply str_int_number.
  - apply repr_number.
  - cbn in Hz. injection Hz as <-. cbn in Eq. rewrite Z.eqb_refl in Eq. discriminate.
  - discriminate.
Qed.

Lemma MCALC_set s : fullmatch GEN_REGEXES.MCALC ("set " +:+ s) = false.
Proof.
  change (fullmatch GEN_REGEXES.MCALC ("set " +:+ s))
    with (fullmatch (deriv "s" GEN_REGEXES.MCALC) (String "e" (String "t" (String " " s)))).
  replace (deriv "s" GEN_REGEXES.MCALC) with Nul by (vm_compute; reflexivity).
  apply PassFacts.fullmatch_Nul.
Qed.

(** What one line becomes: itself, or a [set] when it matches [MCALC]. *)
Lemma precalc_line_shape m ln l' b :
  nobreak ln -> precalc_line m ln = Ok (l', b) ->
  nobreak l'
  /\ (if b then fullmatch GEN_REGEXES.MCALC ln = true /\ startswith "set " l' = true
      else l' = ln).
Proof.
  intros Hln H. destruct b; [|apply PrecalcFacts.precalc_line_unfolded in H as ->; now split].
  revert H. unfold precalc_line.
  destruct (fullmatch GEN_REGEXES.MCALC ln); [|discriminate].
  destruct (item (split_on " " 4 ln) 1) as [op|]; [|discriminate].
  destruct (item (split_on " " 4 ln) 2) as [name|] eqn:Hname; [|discriminate].
  cbn [mbind result_bind].
  destruct (item (split_on " " 4 ln) 3 ≫= float_) as [n1|]; [|discriminate].
  destruct (item (split_on " " 4 ln) 4 ≫= float_) as [n2|]; [|discriminate].
  cbn [mbind result_bind].
  destruct (dict_get (PRECALC m) op) as [f|]; [|discriminate].
  destruct (f n1 n2) as [r|]; [|discriminate]. cbn [mbind result_bind].
  destruct (int_ r) as [z|] eqn:Hz; [|discriminate]. cbn [mbind result_bind].
  intros [= <-]. split; [|split; [reflexivity|apply startswith_app]].
  pose proof (str_obj_nobreak _ _ Hz) as Hr.
  pose proof (ForwardFacts.item_nobreak _ _ _ _ _ Hln Hname) as Hn.
  unfold nobreak in *. rewrite !all_app, Hr, Hn. reflexivity.
Qed.

Lemma precalc_line_again m ln l' b :
  nobreak ln -> precalc_line m ln = Ok (l', b) -> precalc_line m l' = Ok (l', false).
Proof.
  intros Hln H. destruct (precalc_line_shape _ _ _ _ Hln H) as [_ Hs].
  destruct b.
  - destruct Hs as [_ [s ->]%PostprocessFacts.startswith_inv].
    unfold precalc_line. now rewrite MCALC_set.
  - subst l'. exact H.
Qed.

Lemma precalc_loop_spec m lns : forall text0 f text found,
  nobreaks lns ->
  precalc_loop m lns text0 f = Ok (text, found) ->
  exists outs,
    Forall2 (fun l r => precalc_line m l = Ok r) lns outs
    /\ text = text0 +:+ unlines (map fst outs)
    /\ found = existsb snd outs || f.
Proof.
  induction lns as [|l lns IH]; intros text0 f text found Hnb.
  - intros [= <- <-]. exists []. split; [constructor|]. now rewrite app_nil_r.
  - apply Forall_cons in Hnb as [Hl Hnb]. cbn [precalc_loop].
    destruct (precalc_line m l) as [r|] eqn:Hr; [|discriminate].
    cbn [mbind result_bind]. intros H.
    destruct (IH _ _ _ _ Hnb H) as (outs & Hall & -> & ->).
    exists (r :: outs). split; [now constructor|].
    cbn [map existsb unlines fst]. split; [now rewrite !app_assoc|].
    now rewrite orb_assoc, (orb_comm (snd r)).
Qed.

End FoldFacts.

Module FoldLoop.
Import PyStr Re StrFacts ReFacts SplitFacts LineFacts Generator Optimize FoldFacts.

Lemma outs_nobreaks m lns outs :
  nobreaks lns -> Forall2 (fun l r => precalc_line m l = Ok r) lns outs ->
  nobreaks (map fst outs).
Proof.
  intros Hnb H. induction H as [|l [l' b] lns outs Hl _ IH]; [constructor|].
  apply Forall_cons in Hnb as [Hn Hnb]. cbn [map fst]. constructor; [|now apply IH].
  now destruct (precalc_line_shape _ _ _ _ Hn Hl).
Qed.

Lemma outs_unfolded m lns outs :
  Forall2 (fun l r => precalc_line m l = Ok r) lns outs ->
  existsb snd outs = false -> map fst outs = lns.
Proof.
  induction 1 as [|l [l' b] lns outs Hl _ IH]; [reflexivity|].
  cbn [existsb snd map fst]. intros [-> He]%orb_false_elim.
  apply PrecalcFacts.precalc_line_unfolded in Hl as ->. now rewrite IH.
Qed.

Lemma outs_same m lns outs :
  nobreaks lns -> Forall2 (fun l r => precalc_line m l = Ok r) lns outs ->
  map fst outs = lns -> existsb snd outs = false.
Proof.
  intros Hnb H. induction H as [|l [l' b] lns outs Hl _ IH]; [reflexivity|].
  apply Forall_cons in Hnb as [Hn Hnb].
  cbn [existsb snd map fst]. intros [= -> E]. rewrite (IH Hnb E), orb_false_r.
  destruct b; [|reflexivity].
  destruct (precalc_line_shape _ _ _ _ Hn Hl) as [_ [Hm [s ->]%PostprocessFacts.startswith_inv]].
  now rewrite MCALC_set in Hm.
Qed.

Lemma outs_lines m lns outs :
  nobreaks lns -> Forall2 (fun l r => precalc_line m l = Ok r) lns outs ->
  Forall2 (fun l l' => l' = l \/ (fullmatch GEN_REGEXES.MCALC l = true
                                  /\ startswith "set " l' = true))
    lns (map fst outs).
Proof.
  intros Hnb H. induction H as [|l [l' b] lns outs Hl _ IH]; [constructor|].
  apply Forall_cons in Hnb as [Hn Hnb]. cbn [map fst]. constructor; [|now apply IH].
  destruct (precalc_line_shape _ _ _ _ Hn Hl) as [_ Hs].
  destruct b; [now right|now left].
Qed.

Lemma precalc_loop_fixed m lns : forall text f,
  Forall (fun l => precalc_line m l = Ok (l, false)) lns ->
  precalc_loop m lns text f = Ok (text +:+ unlines lns, f).
Proof.
  induction lns as [|l lns IH]; intros text f H.
  - cbn. now rewrite app_nil_r.
  - apply Forall_cons in H as [Hl H]. cbn [precalc_loop]. rewrite Hl.
    cbn [mbind result_bind fst snd orb]. rewrite (IH _ _ H). cbn [unlines].
    now rewrite !app_assoc.
Qed.

Lemma outs_fixed m lns outs :
  nobreaks lns -> Forall2 (fun l r => precalc_line m l = Ok r) lns outs ->
  Forall (fun l => precalc_line m l = Ok (l, false)) (map fst outs).
Proof.
  intros Hnb H. induction H as [|l [l' b] lns outs Hl _ IH]; [constructor|].
  apply Forall_cons in Hnb as [Hn Hnb]. cbn [map fst]. constructor; [|now apply IH].
  eapply precalc_line_again; eassumption.
Qed.

End FoldLoop.

(** When [_precalc_optimize] returns it has kept the number of lines. *)
Lemma precalc_optimize_returned (m : Libm) (code text : string) (found : bool) :
  Generator._precalc_optimize m code = Ok (text, found) ->
  Forall2 (fun l l' => l' = l \/ (Re.fullmatch Generator.GEN_REGEXES.MCALC l = true
                                  /\ PyStr.startswith "set " l' = true))
    (PyStr.splitlines code) (PyStr.splitlines text)
  /\ (found = false <-> text = PyStr.unlines (PyStr.splitlines code)).
Proof.
  unfold Generator._precalc_optimize. intros H.
  pose proof (StrFacts.splitlines_nobreaks code) as Hnb.
  destruct (FoldFacts.precalc_loop_spec _ _ _ _ _ _ Hnb H) as (outs & Hall & -> & ->).
  pose proof (FoldLoop.outs_nobreaks _ _ _ Hnb Hall) as Hout.
  rewrite StrFacts.app_nil_l, orb_false_r, (StrFacts.splitlines_unlines _ Hout).
  split; [now apply (FoldLoop.outs_lines m)|]. split.
  - intros E. now rewrite (FoldLoop.outs_unfolded m _ _ Hall E).
  - intros E. apply (FoldLoop.outs_same m (PyStr.splitlines code)); try assumption.
    apply (f_equal PyStr.splitlines) in E.
    now rewrite !StrFacts.splitlines_unlines in E.
Qed.


(** X12. [_precalc_optimize] is idempotent: applied to its own result it
    finds nothing and returns the same text. *)
Theorem precalc_optimize_idempotent (m : Libm) (code text : string) (found : bool) :
  Generator._precalc_optimize m code = Ok (text, found) ->
  Generator._precalc_optimize m text = Ok (text, false).
Proof.
  unfold Generator._precalc_optimize. intros H.
  pose proof (StrFacts.splitlines_nobreaks code) as Hnb.
  destruct (FoldFacts.precalc_loop_spec _ _ _ _ _ _ Hnb H) as (outs & Hall & -> & _).
  pose proof (FoldLoop.outs_nobreaks _ _ _ Hnb Hall) as Hout.
  rewrite StrFacts.app_nil_l, (StrFacts.splitlines_unlines _ Hout).
  rewrite (FoldLoop.precalc_loop_fixed _ _ _ _ (FoldLoop.outs_fixed _ _ _ Hnb Hall)).
  now rewrite StrFacts.app_nil_l.
Qed.

Lemma precalc_optimize_idempotent_witness :
  Generator._precalc_optimize Examples.libm (PyStr.unlines ["print x"; "set t 0.25"])
  = Ok (PyStr.unlines ["print x"; "set t 0.25"], false).
Proof.
  apply (precalc_optimize_idempotent Examples.libm
           (PyStr.unlines ["print x"; "op div t 1 4"]) _ true).
  vm_compute. reflexivity.
Defined.


(** ** [generator.py]: more on [postprocess] *)

Module PostFacts.
Import PyStr Re StrFacts ReFacts SplitFacts WordFacts LineFacts Generator PostprocessFacts Post.

#[local] Arguments String.append : simpl never.

Lemma name_start_notspace c : GEN_REGEXES.name_start c = true -> negb (isspace c) = true.
Proof. destruct c as [[] [] [] [] [] [] [] []]; vm_compute; congruence. Qed.

Lemma name_char_notspace c : GEN_REGEXES.name_char c = true -> negb (isspace c) = true.
Proof. destruct c as [[] [] [] [] [] [] [] []]; vm_compute; congruence. Qed.

Lemma operand_char_notspace c : GEN_REGEXES.operand_char c = true -> negb (isspace c) = true.
Proof. destruct c as [[] [] [] [] [] [] [] []]; vm_compute; congruence. Qed.

Lemma dotted_char_notspace c : GEN_REGEXES.dotted_char c = true -> negb (isspace c) = true.
Proof. destruct c as [[] [] [] [] [] [] [] []]; vm_compute; congruence. Qed.

Lemma word_gt_identifier id :
  matches GEN_REGEXES.identifier id -> id <> "" /\ word (">" +:+ id).
Proof.
  intros (c & r & -> & Hc & Hr)%matches_identifier. split; [discriminate|].
  split; [discriminate|]. rewrite all_app. cbn [all andb]. cbn.
  rewrite (name_start_notspace _ Hc). cbn [andb].
  eapply all_impl; [|exact Hr]. apply name_char_notspace.
Qed.

Lemma word_Plus p s :
  (forall c, p c = true -> negb (isspace c) = true) ->
  matches (Plus (Cls p)) s -> word s.
Proof.
  intros Hp [Hne Hs]%matches_Plus_Cls. split; [exact Hne|].
  eapply all_impl; [|exact Hs]. exact Hp.
Qed.

Lemma JUMP_inv l :
  fullmatch GEN_REGEXES.JUMP l = true ->
  exists id, l = ">" +:+ id /\ matches GEN_REGEXES.identifier id.
Proof.
  intros (s1 & id & -> & H1 & H2)%fullmatch_matches%matches_Seq_inv.
  apply matches_Lit in H1 as ->. now exists id.
Qed.

Lemma CJMP_inv l :
  fullmatch GEN_REGEXES.CJMP l = true ->
  exists id w, l = join " " [">" +:+ id; w] /\ matches GEN_REGEXES.identifier id /\ word w.
Proof.
  rewrite fullmatch_matches. unfold GEN_REGEXES.CJMP. cbn [Seqs].
  intros (s1 & r1 & -> & H1 & H)%matches_Seq_inv.
  apply matches_Seq_inv in H as (id & r2 & -> & Hid & H).
  apply matches_Seq_inv in H as (s3 & r3 & -> & H3 & H).
  apply matches_Seq_inv in H as (bang & v & -> & Hb & Hv).
  apply matches_Lit in H1 as ->. apply matches_Lit in H3 as ->.
  apply (word_Plus _ _ operand_char_notspace) in Hv as [Hvne Hv].
  exists id, (bang +:+ v). split; [cbn [join]; now rewrite !app_assoc|].
  split; [exact Hid|]. split.
  - intros [_ E]%app_eq_nil. contradiction.
  - rewrite all_app, Hv, andb_true_r.
    apply matches_Alt_inv in Hb as [Hb|Hb].
    + apply matches_Lit in Hb as ->. reflexivity.
    + apply matches_Eps_inv in Hb as ->. reflexivity.
Qed.

(** The comparisons that [EJMP] lets through. *)
Lemma EJMP_inv l :
  fullmatch GEN_REGEXES.EJMP l = true ->
  exists id op1 c op2,
    l = join " " [">" +:+ id; op1; c; op2]
    /\ matches GEN_REGEXES.identifier id /\ word op1 /\ word op2
    /\ In c ["=="; "!="; ">="; "<="; ">"; "<"].
Proof.
  rewrite fullmatch_matches. unfold GEN_REGEXES.EJMP. cbn [Seqs].
  intros (s1 & r1 & -> & H1 & H)%matches_Seq_inv.
  apply matches_Seq_inv in H as (id & r2 & -> & Hid & H).
  apply matches_Seq_inv in H as (s3 & r3 & -> & H3 & H).
  apply matches_Seq_inv in H as (op1 & r4 & -> & Hop1 & H).
  apply matches_Seq_inv in H as (s5 & r5 & -> & H5 & H).
  apply matches_Seq_inv in H as (c & r6 & -> & Hc & H).
  apply matches_Seq_inv in H as (s7 & op2 & -> & H7 & Hop2).
  apply matches_Lit in H1 as ->. apply matches_Lit in H3 as ->.
  apply matches_Lit in H5 as ->. apply matches_Lit in H7 as ->.
  apply (word_Plus _ _ dotted_char_notspace) in Hop1.
  apply (word_Plus _ _ dotted_char_notspace) in Hop2.
  exists id, op1, c, op2. split; [cbn [join]; now rewrite !app_assoc|].
  repeat split; try assumption; try apply Hop1; try apply Hop2.
  repeat (apply matches_Alt_inv in Hc as [Hc|Hc];
          [apply matches_Lit in Hc as ->; cbn; tauto|]).
  apply matches_Lit in Hc as ->. cbn. tauto.
Qed.

Lemma word_comparison c : In c ["=="; "!="; ">="; "<="; ">"; "<"] -> word c.
Proof.
  cbn. intros H.
  repeat (destruct H as [<-|H]; [split; [discriminate|reflexivity]|]). destruct H.
Qed.

Lemma comparison_known c :
  In c ["=="; "!="; ">="; "<="; ">"; "<"] -> dict_get JUMP_CONDITION c <> None.
Proof.
  cbn. intros H. repeat (destruct H as [<-|H]; [discriminate|]). destruct H.
Qed.

Lemma item_Raise {A} (l : list A) i e : item l i = Raise e -> e = IndexError.
Proof. unfold item. destruct (l !! i); [discriminate|now intros [= <-]]. Qed.

Lemma EJMP_split l :
  fullmatch GEN_REGEXES.EJMP l = true ->
  exists id op1 c op2,
    split l = [">" +:+ id; op1; c; op2]
    /\ matches GEN_REGEXES.identifier id
    /\ In c ["=="; "!="; ">="; "<="; ">"; "<"].
Proof.
  intros (id & op1 & c & op2 & -> & Hid & H1 & H2 & Hc)%EJMP_inv.
  exists id, op1, c, op2. split; [|now split].
  apply split_join_words.
  constructor; [now apply word_gt_identifier|]. constructor; [assumption|].
  constructor; [now apply word_comparison|]. constructor; [assumption|constructor].
Qed.

Lemma CJMP_split l :
  fullmatch GEN_REGEXES.CJMP l = true ->
  exists id w, split l = [">" +:+ id; w] /\ matches GEN_REGEXES.identifier id.
Proof.
  intros (id & w & -> & Hid & Hw)%CJMP_inv. exists id, w. split; [|assumption].
  apply split_join_words.
  constructor; [now apply word_gt_identifier|]. constructor; [assumption|constructor].
Qed.

Lemma JUMP_split l :
  fullmatch GEN_REGEXES.JUMP l = true ->
  exists id, l = ">" +:+ id /\ split l = [">" +:+ id] /\ matches GEN_REGEXES.identifier id.
Proof.
  intros (id & -> & Hid)%JUMP_inv. exists id. split; [reflexivity|]. split; [|assumption].
  apply split_word. now apply word_gt_identifier.
Qed.

(** *** What [postprocess] raises *)

Lemma resolve_labels_Raise lns : forall i lc tmp labels e,
  resolve_labels lns i lc tmp labels = Raise e -> e = IndexError.
Proof.
  induction lns as [|ln lns IH]; intros i lc tmp labels e; [discriminate|].
  cbn [resolve_labels]. destruct (fullmatch GEN_REGEXES.LABEL (undot ln)); [apply IH|].
  destruct (self_set (undot ln)) as [b|e'] eqn:Hs.
  - cbn [mbind result_bind]. destruct b; apply IH.
  - cbn [mbind result_bind]. intros [= <-]. revert Hs. unfold self_set.
    destruct (split (undot ln)) as [|w ws]; [discriminate|].
    destruct (String.eqb w "set"); [|discriminate].
    destruct (item (w :: ws) 1) as [a|ea] eqn:Ha;
      [|cbn [mbind result_bind]; intros [= <-]; now apply item_Raise in Ha].
    destruct (item (w :: ws) 2) as [b|eb] eqn:Hb;
      [discriminate|cbn [mbind result_bind]; intros [= <-]; now apply item_Raise in Hb].
Qed.

Lemma jump_line_Raise labels l parts e :
  jump_line labels l parts = Raise e -> expected e.
Proof.
  destruct parts as [[[name cond] cvar] invert]. unfold jump_line.
  destruct (String.eqb name ""); [discriminate|].
  destruct (labels !! name); [discriminate|]. intros [= <-]. right. now exists name.
Qed.

Lemma resolve_jump_Raise labels l e : resolve_jump labels l = Raise e -> expected e.
Proof.
  unfold resolve_jump.
  destruct (fullmatch GEN_REGEXES.JUMP l || fullmatch GEN_REGEXES.CJMP l).
  - unfold jump_parts. destruct (fullmatch GEN_REGEXES.JUMP l).
    + cbn [mbind result_bind]. apply jump_line_Raise.
    + destruct (item (split l) 0) as [s0|e0] eqn:H0;
        [|cbn [mbind result_bind]; intros [= <-]; left; now apply item_Raise in H0].
      destruct (item (split l) 1) as [s1|e1] eqn:H1;
        [|cbn [mbind result_bind]; intros [= <-]; left; now apply item_Raise in H1].
      cbn [mbind result_bind]. apply jump_line_Raise.
  - destruct (fullmatch GEN_REGEXES.EJMP l) eqn:He; [|discriminate].
    destruct (EJMP_split l He) as (id & op1 & c & op2 & -> & _ & Hc).
    cbn [item lookup list_lookup mbind result_bind].
    destruct (dict_get JUMP_CONDITION c) eqn:Hd; [|now apply comparison_known in Hc].
    destruct (labels !! tail (">" +:+ id)); [discriminate|].
    intros [= <-]. right. eauto.
Qed.

Lemma resolve_jumps_Raise labels lns : forall tmp2 e,
  resolve_jumps labels lns tmp2 = Raise e -> expected e.
Proof.
  induction lns as [|ln lns IH]; intros tmp2 e; [discriminate|].
  cbn [resolve_jumps]. destruct (resolve_jump labels ln) as [l'|e'] eqn:Hl.
  - cbn [mbind result_bind]. apply IH.
  - cbn [mbind result_bind]. intros [= <-]. now apply resolve_jump_Raise in Hl.
Qed.

Lemma native_jump_Raise lnc l e : native_jump lnc l = Raise e -> e = IndexError.
Proof.
  unfold native_jump. destruct (fullmatch GEN_REGEXES.MJUMP l); [|discriminate].
  repeat (match goal with
          | |- context [item ?x ?i] =>
              let H := fresh in
              destruct (item x i) eqn:H;
              [|cbn [mbind result_bind]; intros [= <-]; now apply item_Raise in H]
          end; cbn [mbind result_bind]).
  destruct (_ <=? _); discriminate.
Qed.

Lemma native_jumps_Raise lnc lns : forall tmp e,
  native_jumps lnc lns tmp = Raise e -> e = IndexError.
Proof.
  induction lns as [|ln lns IH]; intros tmp e; [discriminate|].
  cbn [native_jumps]. destruct (native_jump lnc ln) as [l'|e'] eqn:Hl.
  - cbn [mbind result_bind]. apply IH.
  - cbn [mbind result_bind]. intros [= <-]. now apply native_jump_Raise in Hl.
Qed.

Lemma postprocess_Raise code e : postprocess code = Raise e -> expected e.
Proof.
  unfold postprocess. destruct (String.eqb (strip code) ""); [discriminate|].
  unfold resolved.
  destruct (resolve_labels (splitlines code) 0 0 "" ∅) as [[tmp labels]|e1] eqn:H1;
    [|cbn [mbind result_bind]; intros [= <-]; left; now apply resolve_labels_Raise in H1].
  cbn [mbind result_bind].
  destruct (resolve_jumps labels (splitlines tmp) "") as [tmp2|e2] eqn:H2;
    [|cbn [mbind result_bind]; intros [= <-]; now apply resolve_jumps_Raise in H2].
  cbn [mbind result_bind].
  destruct (native_jumps _ (splitlines tmp2) "") as [tmp3|e3] eqn:H3;
    [|cbn [mbind result_bind]; intros [= <-]; left; now apply native_jumps_Raise in H3].
  cbn [mbind result_bind]. unfold remove_last_jump, last_item.
  destruct (last (splitlines tmp3)); [discriminate|].
  cbn [mbind result_bind]. intros [= <-]. now left.
Qed.

End PostFacts.

(** X14. [postprocess] never reports an unknown jump condition: the
    pattern [EJMP] lets only the six comparisons of [JUMP_CONDITION]
    through, so the check behind the message never fails. *)
Theorem postprocess_condition_known (code cond : string) :
  Generator.postprocess code
  <> Raise (gen_error ("Unknown jump condition " +:+ PyStr.quoted cond)).
Proof.
  intros H. apply PostFacts.postprocess_Raise in H as [H|[name H]]; [discriminate|].
  unfold Generator.unknown_label in H. injection H as H.
  cbv [String.append] in H. discriminate H.
Qed.

Module PostSteps.
Import PyStr Re StrFacts ReFacts SplitFacts WordFacts LineFacts Generator PostprocessFacts
  PostprocessTheorems Post PostFacts.

#[local] Arguments String.append : simpl never.

Lemma splitlines_all p s : all p s = true -> Forall (fun l => all p l = true) (splitlines s).
Proof.
  assert (H : forall n s, (String.length s < n)%nat -> all p s = true ->
              Forall (fun l => all p l = true) (splitlines s)).
  { clear s. induction n as [|n IH]; intros s Hn Hs; [lia|].
    destruct s as [|c s]; [constructor|].
    cbn [all] in Hs. apply andb_prop in Hs as [Hc Hs]. simpl in Hn. simpl.
    destruct (islinebreak c).
    - destruct s as [|d s]; [repeat constructor|].
      destruct (Ascii.eqb c CR && Ascii.eqb d LF).
      + constructor; [reflexivity|]. apply IH; [simpl in Hn; lia|].
        cbn [all] in Hs. now apply andb_prop in Hs as [_ Hs].
      + constructor; [reflexivity|]. apply IH; [lia|exact Hs].
    - assert (Hl : Forall (fun l => all p l = true) (splitlines s)) by (apply IH; [lia|exact Hs]).
      destruct (splitlines s) as [|l ls].
      + repeat constructor. simpl. now rewrite Hc.
      + inversion Hl; subst. constructor; [|assumption]. simpl. now rewrite Hc, H1. }
  apply (H (S (String.length s))). lia.
Qed.

Lemma lstrip_blank s : lstrip s = "" -> all isspace s = true.
Proof.
  induction s as [|c s IH]; [reflexivity|]. cbn [lstrip all].
  destruct (isspace c); [exact IH|discriminate].
Qed.

Lemma lstrip_decomp s : exists w, s = w +:+ lstrip s /\ all isspace w = true.
Proof.
  induction s as [|c s (w & Hs & Hw)]; [now exists ""|]. cbn [lstrip].
  destruct (isspace c) eqn:Hc.
  - exists (String c w). split; [now rewrite app_cons, <- Hs|]. cbn [all]. now rewrite Hc.
  - now exists "".
Qed.

Lemma strip_blank s : strip s = "" -> all isspace s = true.
Proof.
  unfold strip. intros H.
  destruct (rstrip_decomp (lstrip s)) as (w & Hw & Hsp). rewrite H, app_nil_l in Hw.
  destruct (lstrip_decomp s) as (v & Hv & Hvs). rewrite Hv, all_app, Hvs, Hw. exact Hsp.
Qed.

Lemma undot_all p l : all p l = true -> all p (undot l) = true.
Proof. unfold undot. destruct (startswith "." l); [apply all_tail|auto]. Qed.

Lemma symbolic_jump_gt l : symbolic_jump l = true -> startswith ">" l = true.
Proof.
  unfold symbolic_jump. intros [[H|H]%orb_prop|H]%orb_prop;
    eapply fullmatch_Lit_Seq; exact H.
Qed.

(** A blank text holds no jump. *)
Lemma blank_no_jump code l :
  String.eqb (strip code) "" = true ->
  In l (map undot (splitlines code)) -> symbolic_jump l = false.
Proof.
  intros Hb%String.eqb_eq%strip_blank Hl.
  apply in_map_iff in Hl as (l0 & <- & Hl0).
  pose proof (splitlines_all _ _ Hb) as Hall. rewrite List.Forall_forall in Hall.
  pose proof (undot_all _ _ (Hall l0 Hl0)) as Hsp.
  destruct (symbolic_jump (undot l0)) eqn:Hs; [|reflexivity].
  apply symbolic_jump_gt, startswith_inv in Hs as [r Hr]. rewrite Hr in Hsp. discriminate.
Qed.

Lemma LABEL_inv ln : fullmatch GEN_REGEXES.LABEL ln = true -> ln = "<" +:+ tail ln.
Proof. intros [r ->]%fullmatch_Lit_Seq%startswith_inv. reflexivity. Qed.

(** A label that the first loop knows was set before or is a line. *)
Lemma resolve_labels_defined lns : forall i lc tmp labels tmp' labels' name,
  resolve_labels lns i lc tmp labels = Ok (tmp', labels') ->
  is_Some (labels' !! name) ->
  is_Some (labels !! name) \/ In ("<" +:+ name) (map undot lns).
Proof.
  induction lns as [|ln lns IH]; intros i lc tmp labels tmp' labels' name.
  - intros [= _ <-]. now left.
  - cbn [resolve_labels map].
    destruct (fullmatch GEN_REGEXES.LABEL (undot ln)) eqn:Hlab.
    + intros H Hn. destruct (IH _ _ _ _ _ _ _ H Hn) as [Hs|Hin]; [|right; now right].
      destruct (String.eqb_spec (tail (undot ln)) name) as [<-|Hne].
      * right. left. now apply LABEL_inv.
      * left. now rewrite lookup_insert_ne in Hs.
    + destruct (self_set (undot ln)) as [b|]; [|discriminate]. cbn [mbind result_bind].
      destruct b; intros H Hn; (destruct (IH _ _ _ _ _ _ _ H Hn); [now left|right; now right]).
Qed.


Lemma jump_label_split l w ws : split l = w :: ws -> jump_label l = tail w.
Proof. unfold jump_label. now intros ->. Qed.

(** The second loop turns a jump to a label that is known into a [jump]
    and leaves the other lines. *)
Lemma resolve_jump_step labels l l' :
  resolve_jump labels l = Ok l' ->
  if symbolic_jump l
  then is_Some (labels !! jump_label l) /\ startswith "jump " l' = true
  else l' = l.
Proof.
  unfold resolve_jump, symbolic_jump.
  destruct (fullmatch GEN_REGEXES.JUMP l) eqn:Hj.
  - destruct (JUMP_split l Hj) as (name & -> & Hsplit & Hname).
    rewrite (jump_label_split _ _ _ Hsplit).
    cbn [orb]. unfold jump_parts. rewrite Hj.
    cbn [mbind result_bind jump_line]. change (tail (">" +:+ name)) with name.
    destruct (String.eqb_spec name "") as [->|_];
      [now apply word_gt_identifier in Hname as [? _]|].
    destruct (labels !! name); [|discriminate]. intros [= <-]. split; [eauto|reflexivity].
  - destruct (fullmatch GEN_REGEXES.CJMP l) eqn:Hc.
    + destruct (CJMP_split l Hc) as (name & w & Hsplit & Hname).
      rewrite (jump_label_split _ _ _ Hsplit).
      cbn [orb]. unfold jump_parts. rewrite Hj, Hsplit.
      cbn [item lookup list_lookup mbind result_bind jump_line].
      change (tail (">" +:+ name)) with name.
      destruct (String.eqb_spec name "") as [->|_];
        [now apply word_gt_identifier in Hname as [? _]|].
      destruct (labels !! name); [|discriminate]. intros [= <-]. split; [eauto|reflexivity].
    + cbn [orb]. destruct (fullmatch GEN_REGEXES.EJMP l) eqn:He; [|now intros [= <-]].
      destruct (EJMP_split l He) as (name & op1 & c & op2 & Hsplit & _ & _).
      rewrite (jump_label_split _ _ _ Hsplit), Hsplit.
      cbn [item lookup list_lookup mbind result_bind].
      destruct (dict_get JUMP_CONDITION c); [|discriminate].
      destruct (labels !! tail (">" +:+ name)); [|discriminate].
      intros [= <-]. split; [eauto|reflexivity].
Qed.



Lemma resolve_jumps_steps labels lns : forall tmp2 out,
  resolve_jumps labels lns tmp2 = Ok out ->
  exists lns', out = tmp2 +:+ unlines lns'
               /\ Forall2 (fun l l' => resolve_jump labels l = Ok l') lns lns'.
Proof.
  induction lns as [|l lns IH]; intros tmp2 out.
  - intros [= <-]. exists []. split; [now rewrite app_nil_r|constructor].
  - cbn [resolve_jumps].
    destruct (resolve_jump labels l) as [l'|] eqn:Hl; [|discriminate].
    cbn [mbind result_bind]. intros (lns' & -> & Hall)%IH.
    exists (l' :: lns'). split; [cbn [unlines]; now rewrite !app_assoc|now constructor].
Qed.


Lemma Forall2_In_l {A B} (R : A -> B -> Prop) l k x :
  Forall2 R l k -> In x l -> exists y, In y k /\ R x y.
Proof.
  induction 1 as [|a b l k Hab _ IH]; [intros []|].
  intros [<-|Hx]; [exists b; split; [now left|exact Hab]|].
  destruct (IH Hx) as (y & Hy & Hxy). exists y. split; [now right|exact Hxy].
Qed.


Lemma nobreaks_kept code : nobreaks (List.filter kept (map undot (splitlines code))).
Proof.
  apply Forall_filter_bool. apply List.Forall_map.
  eapply Forall_impl; [apply splitlines_nobreaks|]. intros l. apply undot_all.
Qed.

Lemma self_assignment_gt r : is_self_assignment (String ">" r) = false.
Proof.
  unfold is_self_assignment. cbn [split]. change (isspace ">") with false. cbv iota.
  destruct r as [|d r]; [reflexivity|].
  destruct (isspace d); [now destruct (split (String d r)) as [|a [|b ws]]|].
  destruct (split (String d r)) as [|w [|a [|b ws]]]; reflexivity.
Qed.

Lemma symbolic_jump_kept l : symbolic_jump l = true -> kept l = true.
Proof.
  intros H. pose proof (symbolic_jump_gt l H) as [r Hr]%startswith_inv. subst l.
  unfold kept, is_label. change (">" +:+ r) with (String ">" r).
  rewrite self_assignment_gt. cbn [fullmatch].
  replace (deriv ">" GEN_REGEXES.LABEL) with Nul by (vm_compute; reflexivity).
  now rewrite PassFacts.fullmatch_Nul.
Qed.

Lemma filter_none {A B} (f : B -> bool) (g : A -> B) l :
  Forall (fun x => f (g x) = false) l -> List.filter f (map g l) = [].
Proof.
  induction 1 as [|x l Hx _ IH]; [reflexivity|]. cbn [map List.filter]. now rewrite Hx.
Qed.

End PostSteps.

(** When [postprocess] returns, every jump of the text names a label
    that a line of the text defines (a native line is read without its
    dot). *)
Lemma returned_labels_defined (code out l : string) :
  Generator.postprocess code = Ok out ->
  In l (map Generator.undot (PyStr.splitlines code)) ->
  Post.symbolic_jump l = true ->
  In ("<" +:+ Post.jump_label l) (map Generator.undot (PyStr.splitlines code)).
Proof.
  intros Hpost Hl Hs. unfold Generator.postprocess in Hpost.
  destruct (String.eqb (PyStr.strip code) "") eqn:Hb.
  { rewrite (PostSteps.blank_no_jump code l Hb Hl) in Hs. discriminate. }
  unfold Generator.resolved in Hpost.
  destruct (Generator.resolve_labels (PyStr.splitlines code) 0 0 "" ∅)
    as [[tmp labels]|] eqn:H1; [|discriminate].
  pose proof (PostprocessFacts.resolve_labels_spec _ _ _ _ _ _ _ H1) as ->.
  cbn [mbind result_bind] in Hpost.
  rewrite StrFacts.app_nil_l, (StrFacts.splitlines_unlines _ (PostSteps.nobreaks_kept code))
    in Hpost.
  destruct (Generator.resolve_jumps labels _ "") as [tmp2|] eqn:H2; [|discriminate].
  apply PostSteps.resolve_jumps_steps in H2 as (l2 & _ & H2).
  assert (Hk : In l (List.filter Generator.kept (map Generator.undot (PyStr.splitlines code)))).
  { apply filter_In. split; [exact Hl|now apply PostSteps.symbolic_jump_kept]. }
  destruct (PostSteps.Forall2_In_l _ _ _ _ H2 Hk) as (l' & _ & Hstep).
  apply PostSteps.resolve_jump_step in Hstep. rewrite Hs in Hstep. destruct Hstep as [Hsome _].
  destruct (PostSteps.resolve_labels_defined _ _ _ _ _ _ _ _ H1 Hsome) as [He|Hin];
    [|exact Hin].
  rewrite lookup_empty in He. now destruct He.
Qed.

Module PostPlain.
Import PyStr Re StrFacts ReFacts SplitFacts WordFacts LineFacts Generator PostprocessFacts
  PostprocessTheorems Post PostFacts PostSteps.





End PostPlain.


(** ** [generator.py]: when [postprocess] returns *)

Module PostTotal.
Import PyStr Re StrFacts ReFacts SplitFacts WordFacts LineFacts Generator PostprocessFacts
  PostprocessTheorems Post PostFacts PostSteps.

#[local] Arguments String.append : simpl never.

Lemma self_set_total ln : set_has_operands ln = true -> exists b, self_set ln = Ok b.
Proof.
  unfold set_has_operands, self_set.
  destruct (split ln) as [|w ws]; [eauto|].
  destruct (String.eqb w "set"); [|eauto]. cbn [negb orb].
  destruct ws as [|a [|b ws]]; [discriminate..|]. intros _.
  cbn [item lookup list_lookup mbind result_bind]. eauto.
Qed.

(** The first loop returns, and knows every label that is a line. *)
Lemma resolve_labels_total lns :
  Forall (fun ln => set_has_operands (undot ln) = true) lns ->
  forall i lc tmp labels, exists tmp' labels',
    resolve_labels lns i lc tmp labels = Ok (tmp', labels')
    /\ forall name,
         is_Some (labels !! name)
         \/ (In ("<" +:+ name) (map undot lns) /\ is_label ("<" +:+ name) = true) ->
         is_Some (labels' !! name).
Proof.
  induction 1 as [|ln lns Hln _ IH]; intros i lc tmp labels.
  - exists tmp, labels. split; [reflexivity|]. now intros name [H|[[] _]].
  - cbn [resolve_labels map]. destruct (fullmatch GEN_REGEXES.LABEL (undot ln)) eqn:Hlab.
    + destruct (IH (i + 1) (lc + 1) tmp (<[tail (undot ln) := i - lc]> labels))
        as (tmp' & labels' & -> & Hn).
      exists tmp', labels'. split; [reflexivity|]. intros name [H|[[E|Hin] Hl]].
      * apply Hn. left. destruct (String.eqb_spec (tail (undot ln)) name) as [->|Hne].
        -- rewrite lookup_insert_eq. eauto.
        -- now rewrite lookup_insert_ne.
      * apply Hn. left. rewrite E. change (tail ("<" +:+ name)) with name.
        rewrite lookup_insert_eq. eauto.
      * apply Hn. right. now split.
    + destruct (self_set_total _ Hln) as [b ->]. cbn [mbind result_bind].
      assert (Hstep : forall tmp0, exists tmp' labels',
                 resolve_labels lns (i + 1) lc tmp0 labels = Ok (tmp', labels')
                 /\ forall name,
                      is_Some (labels !! name)
                      \/ (In ("<" +:+ name) (undot ln :: map undot lns)
                          /\ is_label ("<" +:+ name) = true) ->
                      is_Some (labels' !! name)).
      { intros tmp0. destruct (IH (i + 1) lc tmp0 labels) as (tmp' & labels' & -> & Hn).
        exists tmp', labels'. split; [reflexivity|]. intros name [H|[[E|Hin] Hl]].
        - apply Hn. now left.
        - unfold is_label in Hl. rewrite <- E, Hlab in Hl. discriminate.
        - apply Hn. right. now split. }
      destruct b; apply Hstep.
Qed.

(** The label of a jump is a name, so the line that defines it is read as
    a label. *)
Lemma symbolic_jump_label l :
  symbolic_jump l = true -> is_label ("<" +:+ jump_label l) = true.
Proof.
  unfold symbolic_jump. intros H.
  assert (Hs : exists id ws, split l = (">" +:+ id) :: ws
                             /\ matches GEN_REGEXES.identifier id).
  { apply orb_prop in H as [H|H]; [apply orb_prop in H as [H|H]|].
    - destruct (JUMP_split l H) as (id & _ & Hs & Hid). eauto.
    - destruct (CJMP_split l H) as (id & w & Hs & Hid). eauto.
    - destruct (EJMP_split l H) as (id & a & c & b & Hs & Hid & _). eauto. }
  destruct Hs as (id & ws & Hs & Hid).
  rewrite (jump_label_split _ _ _ Hs). change (tail (">" +:+ id)) with id.
  unfold is_label. apply fullmatch_matches. unfold GEN_REGEXES.LABEL.
  apply matches_Seq; [now apply matches_Lit_iff|exact Hid].
Qed.

(** The second loop returns on a line whose label is known. *)
Lemma resolve_jump_total labels l :
  (symbolic_jump l = true -> is_Some (labels !! jump_label l)) ->
  exists l', resolve_jump labels l = Ok l'.
Proof.
  unfold resolve_jump, symbolic_jump.
  destruct (fullmatch GEN_REGEXES.JUMP l) eqn:Hj.
  - intros H. specialize (H eq_refl).
    destruct (JUMP_split l Hj) as (name & -> & Hsplit & Hname).
    rewrite (jump_label_split _ _ _ Hsplit) in H. destruct H as [n Hn].
    cbn [orb]. unfold jump_parts. rewrite Hj.
    cbn [mbind result_bind jump_line]. change (tail (">" +:+ name)) with name in *.
    destruct (String.eqb name ""); [eauto|]. rewrite Hn. eauto.
  - destruct (fullmatch GEN_REGEXES.CJMP l) eqn:Hc.
    + intros H. specialize (H eq_refl).
      destruct (CJMP_split l Hc) as (name & w & Hsplit & Hname).
      rewrite (jump_label_split _ _ _ Hsplit) in H. destruct H as [n Hn].
      cbn [orb]. unfold jump_parts. rewrite Hj, Hsplit.
      cbn [item lookup list_lookup mbind result_bind jump_line].
      change (tail (">" +:+ name)) with name in *.
      destruct (String.eqb name ""); [eauto|]. rewrite Hn. eauto.
    + cbn [orb]. destruct (fullmatch GEN_REGEXES.EJMP l) eqn:He; [|eauto].
      intros H. specialize (H eq_refl).
      destruct (EJMP_split l He) as (name & op1 & c & op2 & Hsplit & _ & Hcmp).
      rewrite (jump_label_split _ _ _ Hsplit) in H. destruct H as [n Hn].
      rewrite Hsplit. cbn [item lookup list_lookup mbind result_bind].
      destruct (dict_get JUMP_CONDITION c) eqn:Hd; [|now apply comparison_known in Hcmp].
      rewrite Hn. eauto.
Qed.

Lemma resolve_jumps_total labels lns :
  Forall (fun l => symbolic_jump l = true -> is_Some (labels !! jump_label l)) lns ->
  forall tmp2, exists out, resolve_jumps labels lns tmp2 = Ok out.
Proof.
  induction 1 as [|l lns Hl _ IH]; intros tmp2; [now exists tmp2|].
  cbn [resolve_jumps]. destruct (resolve_jump_total labels l Hl) as [l' ->].
  cbn [mbind result_bind]. apply IH.
Qed.

(** A line that [MJUMP] matches has five pieces. *)
Lemma MJUMP_split l :
  fullmatch GEN_REGEXES.MJUMP l = true ->
  exists s1 s2 s3 s4, split_on " " 4 l = ["jump"; s1; s2; s3; s4].
Proof.
  rewrite fullmatch_matches. unfold GEN_REGEXES.MJUMP. cbn [Seqs].
  intros (s0 & r0 & -> & H0 & H)%matches_Seq_inv.
  apply matches_Seq_inv in H as (s1 & r1 & -> & H1 & H).
  apply matches_Seq_inv in H as (b1 & r2 & -> & Hb1 & H).
  apply matches_Seq_inv in H as (s2 & r3 & -> & H2 & H).
  apply matches_Seq_inv in H as (b2 & r4 & -> & Hb2 & H).
  apply matches_Seq_inv in H as (s3 & r5 & -> & H3 & H).
  apply matches_Seq_inv in H as (b3 & s4 & -> & Hb3 & H4).
  apply matches_Lit in H0 as ->. apply matches_Lit in Hb1 as ->.
  apply matches_Lit in Hb2 as ->. apply matches_Lit in Hb3 as ->.
  apply matches_Plus_Cls in H1 as [_ H1]. apply matches_Plus_Cls in H2 as [_ H2].
  apply matches_Plus_Cls in H3 as [_ H3]. apply matches_Plus_Cls in H4 as [_ H4].
  exists s1, s2, s3, s4.
  change (split_on " " 4 ("jump " +:+ s1 +:+ " " +:+ s2 +:+ " " +:+ s3 +:+ " " +:+ s4))
    with ("jump" :: split_on " " 3 (s1 +:+ String " " (s2 +:+ String " " (s3 +:+ String " " s4)))).
  rewrite split_on_piece by (eapply all_impl; [|exact H1]; apply isdigit_not_blank).
  rewrite split_on_piece by (eapply all_impl; [|exact H2]; apply isalpha_not_blank).
  rewrite split_on_piece by (eapply all_impl; [|exact H3]; apply operand_char_not_blank).
  rewrite split_on_last by (eapply all_impl; [|exact H4]; apply operand_char_not_blank).
  reflexivity.
Qed.

(** The third loop always returns. *)
Lemma native_jump_total lnc l : exists l', native_jump lnc l = Ok l'.
Proof.
  unfold native_jump. destruct (fullmatch GEN_REGEXES.MJUMP l) eqn:Hm; [|eauto].
  destruct (MJUMP_split l Hm) as (s1 & s2 & s3 & s4 & ->).
  cbn [item lookup list_lookup mbind result_bind].
  destruct (lnc <=? int_digits s1); eauto.
Qed.

Lemma native_jumps_total lnc lns : forall tmp, exists out, native_jumps lnc lns tmp = Ok out.
Proof.
  induction lns as [|l lns IH]; intros tmp; [now exists tmp|].
  cbn [native_jumps]. destruct (native_jump_total lnc l) as [l' ->].
  cbn [mbind result_bind]. apply IH.
Qed.

Lemma Forall2_nonempty {A B} (R : A -> B -> Prop) l k : Forall2 R l k -> l <> [] -> k <> [].
Proof. now destruct 1. Qed.

Lemma accepted_not_blank code : accepted code -> String.eqb (strip code) "" = false.
Proof.
  intros (Hclean & _ & _ & Hne).
  destruct (clean_lines_not_blank code Hclean) as [->|H]; [now destruct Hne|exact H].
Qed.

(** On an accepted text the three loops return a text of clean lines that
    is not empty. *)
Lemma resolved_total code :
  accepted code ->
  exists lines, resolved code = Ok (unlines lines) /\ Forall clean lines /\ lines <> [].
Proof.
  intros (Hclean & Hset & Hlab & Hne).
  set (lines := map undot (splitlines code)) in *.
  set (ks := List.filter kept lines) in *.
  assert (Hks : Forall clean ks) by now apply Forall_filter_bool.
  unfold resolved.
  destruct (resolve_labels_total (splitlines code)
              (proj1 (List.Forall_map _ _ _) Hset) 0 0 "" ∅)
    as (tmp & labels & H1 & Hknown).
  rewrite H1. apply resolve_labels_spec in H1. fold lines in H1. fold ks in H1.
  rewrite app_nil_l in H1. subst tmp. cbn [mbind result_bind].
  rewrite (splitlines_unlines ks (Forall_clean_nobreaks _ Hks)).
  assert (Hjumps : Forall (fun l => symbolic_jump l = true
                                      -> is_Some (labels !! jump_label l)) ks).
  { apply List.Forall_forall. intros l [Hl _]%filter_In Hs.
    rewrite List.Forall_forall in Hlab. specialize (Hlab l Hl).
    unfold label_defined in Hlab. rewrite Hs in Hlab. cbn [negb orb] in Hlab.
    apply existsb_exists in Hlab as (x & Hx & Heq%String.eqb_eq). subst x.
    apply Hknown. right. split; [exact Hx|now apply symbolic_jump_label]. }
  destruct (resolve_jumps_total labels ks Hjumps "") as [tmp2 H2]. rewrite H2.
  apply resolve_jumps_spec in H2 as (l2 & -> & H2). rewrite app_nil_l.
  pose proof (Forall2_line_ok_clean _ _ H2 Hks) as Hc2.
  cbn [mbind result_bind].
  rewrite (splitlines_unlines l2 (Forall_clean_nobreaks _ Hc2)).
  destruct (native_jumps_total (Z.of_nat (length (splitlines (strip (unlines l2))))) l2 "")
    as [tmp3 H3].
  rewrite H3. apply native_jumps_spec in H3 as (l3 & -> & H3). rewrite app_nil_l.
  exists l3. split; [reflexivity|]. split.
  - exact (Forall2_line_ok_clean _ _ H3 Hc2).
  - eapply Forall2_nonempty; [exact H3|]. eapply Forall2_nonempty; [exact H2|exact Hne].
Qed.

(** [postprocess] returns on an accepted text. *)
Lemma postprocess_total code : accepted code -> exists out, postprocess code = Ok out.
Proof.
  intros Hacc. unfold postprocess. rewrite (accepted_not_blank code Hacc).
  destruct (resolved_total code Hacc) as (lines & -> & Hc & Hne).
  cbn [mbind result_bind]. unfold remove_last_jump.
  rewrite (splitlines_unlines lines (Forall_clean_nobreaks _ Hc)).
  destruct lines as [|x lines] using rev_ind; [now destruct Hne|].
  unfold last_item. rewrite last_snoc. cbn [mbind result_bind]. eauto.
Qed.

(** The lines of the resolved text and of the output. *)
Lemma postprocess_accepted code :
  accepted code ->
  exists lines l out,
    resolved code = Ok (unlines (lines ++ [l]))
    /\ Forall2 line_ok (List.filter kept (map undot (splitlines code))) (lines ++ [l])
    /\ Forall clean (lines ++ [l])
    /\ postprocess code = Ok out
    /\ splitlines out = if startswith "jump 0" l then lines else lines ++ [l].
Proof.
  intros Hacc. destruct (postprocess_total code Hacc) as [out Hout].
  destruct (postprocess_lines code out (accepted_not_blank code Hacc) (proj1 Hacc) Hout)
    as (lines & l & H1 & H2 & H3 & H4).
  exists lines, l, out. auto.
Qed.

(** The second loop stops at a jump whose label is not known. *)
Lemma resolve_jump_unknown labels l :
  symbolic_jump l = true -> labels !! jump_label l = None ->
  resolve_jump labels l = Raise (unknown_label (jump_label l)).
Proof.
  unfold resolve_jump, symbolic_jump.
  destruct (fullmatch GEN_REGEXES.JUMP l) eqn:Hj.
  - intros _. destruct (JUMP_split l Hj) as (name & -> & Hsplit & Hname).
    rewrite (jump_label_split _ _ _ Hsplit). intros Hn.
    cbn [orb]. unfold jump_parts. rewrite Hj.
    cbn [mbind result_bind jump_line]. change (tail (">" +:+ name)) with name in *.
    destruct (String.eqb_spec name "") as [->|_];
      [now apply word_gt_identifier in Hname as [? _]|].
    now rewrite Hn.
  - destruct (fullmatch GEN_REGEXES.CJMP l) eqn:Hc.
    + intros _. destruct (CJMP_split l Hc) as (name & w & Hsplit & Hname).
      rewrite (jump_label_split _ _ _ Hsplit). intros Hn.
      cbn [orb]. unfold jump_parts. rewrite Hj, Hsplit.
      cbn [item lookup list_lookup mbind result_bind jump_line].
      change (tail (">" +:+ name)) with name in *.
      destruct (String.eqb_spec name "") as [->|_];
        [now apply word_gt_identifier in Hname as [? _]|].
      now rewrite Hn.
    + cbn [orb]. destruct (fullmatch GEN_REGEXES.EJMP l) eqn:He; [|discriminate].
      intros _. destruct (EJMP_split l He) as (name & op1 & c & op2 & Hsplit & _ & Hcmp).
      rewrite (jump_label_split _ _ _ Hsplit). intros Hn.
      rewrite Hsplit. cbn [item lookup list_lookup mbind result_bind].
      destruct (dict_get JUMP_CONDITION c) eqn:Hd; [|now apply comparison_known in Hcmp].
      now rewrite Hn.
Qed.

Lemma resolve_jumps_raise labels pre l post e :
  Forall (fun x => symbolic_jump x = true -> is_Some (labels !! jump_label x)) pre ->
  resolve_jump labels l = Raise e ->
  forall tmp2, resolve_jumps labels (pre ++ l :: post) tmp2 = Raise e.
Proof.
  intros Hpre Hl. induction Hpre as [|x pre Hx _ IH]; intros tmp2.
  - cbn [app resolve_jumps]. now rewrite Hl.
  - cbn [app resolve_jumps]. destruct (resolve_jump_total labels x Hx) as [x' ->].
    cbn [mbind result_bind]. apply IH.
Qed.

(** The first loop drops a line that is a label or a self-assignment,
    and raises nothing on it. *)
Lemma resolve_labels_dropped lns :
  Forall (fun l => kept (undot l) = false) lns ->
  forall i lc tmp labels, exists labels',
    resolve_labels lns i lc tmp labels = Ok (tmp, labels').
Proof.
  induction 1 as [|ln lns Hln _ IH]; intros i lc tmp labels; [now exists labels|].
  cbn [resolve_labels]. unfold kept, is_label in Hln.
  destruct (fullmatch GEN_REGEXES.LABEL (undot ln)); [apply IH|].
  cbn [negb andb] in Hln. apply negb_false_iff in Hln.
  assert (Hs : self_set (undot ln) = Ok true).
  { revert Hln. unfold is_self_assignment, self_set.
    destruct (split (undot ln)) as [|w [|a [|b ws]]]; try discriminate.
    intros [Hw Hab]%andb_prop. rewrite Hw.
    cbn [item lookup list_lookup mbind result_bind]. now rewrite Hab. }
  rewrite Hs. cbn [mbind result_bind]. apply IH.
Qed.

Lemma accepted_loop_with_break : accepted Examples.loop_with_break.
Proof.
  unfold accepted.
  change (map undot (splitlines Examples.loop_with_break))
    with ["<__mpp1"; "sensor c switch1 @enabled"; ">__mpp2 !c"; "print 1"; ">__mpp2";
          ">__mpp1"; "<__mpp2"].
  split; [repeat (constructor; [repeat split|]); constructor|].
  split; [repeat (constructor; [reflexivity|]); constructor|].
  split; [repeat (constructor; [vm_compute; reflexivity|]); constructor|].
  vm_compute. discriminate.
Defined.

Lemma accepted_mixed : accepted Examples.mixed.
Proof.
  unfold accepted.
  change (map undot (splitlines Examples.mixed))
    with ["set y 1"; "set x x"; "<a"; "print y"; ">a"].
  split; [repeat (constructor; [repeat split|]); constructor|].
  split; [repeat (constructor; [reflexivity|]); constructor|].
  split; [repeat (constructor; [vm_compute; reflexivity|]); constructor|].
  vm_compute. discriminate.
Defined.

End PostTotal.

(** C8 (amended). On a text that [postprocess] accepts (clean lines,
    every [set] with two operands, every jump to a label of the text, a
    line that the first loop keeps) the three loops return the resolved
    text and [postprocess] returns: it removes the last line of the
    resolved text exactly when that line starts with [jump 0] (an
    unconditional jump to line 0, and a conditional one as well), and
    removes that one line only; a resolved text whose last line does not
    start with [jump 0] is the output, line by line. *)
Theorem C8_trailing_jump (code : string) :
  Post.accepted code ->
  exists text lines l out,
    Generator.resolved code = Ok text
    /\ PyStr.splitlines text = lines ++ [l]
    /\ Generator.postprocess code = Ok out
    /\ PyStr.splitlines out = if PyStr.startswith "jump 0" l then lines else lines ++ [l].
Proof.
  intros Hacc.
  destruct (PostTotal.postprocess_accepted code Hacc) as (lines & l & out & H1 & _ & Hc & H2 & H3).
  exists (PyStr.unlines (lines ++ [l])), lines, l, out.
  split; [exact H1|]. split; [|now split].
  apply StrFacts.splitlines_unlines. now apply PostprocessTheorems.Forall_clean_nobreaks.
Qed.

Lemma C8_trailing_jump_witness :
  (exists text lines l out,
     Generator.resolved Examples.loop_with_break = Ok text
     /\ PyStr.splitlines text = lines ++ [l]
     /\ Generator.postprocess Examples.loop_with_break = Ok out
     /\ PyStr.splitlines out = if PyStr.startswith "jump 0" l then lines else lines ++ [l])
  /\ (exists text lines l out,
        Generator.resolved Examples.mixed = Ok text
        /\ PyStr.splitlines text = lines ++ [l]
        /\ Generator.postprocess Examples.mixed = Ok out
        /\ PyStr.splitlines out = if PyStr.startswith "jump 0" l then lines else lines ++ [l]).
Proof.
  split.
  - apply (C8_trailing_jump Examples.loop_with_break).
    exact PostTotal.accepted_loop_with_break.
  - apply (C8_trailing_jump Examples.mixed). exact PostTotal.accepted_mixed.
Defined.

(** C9 fails on the code. On a text that is not blank and of which the
    first loop keeps no line (every line is a self-assignment [set X X]
    or a label) the three loops raise nothing and leave the empty text,
    as the deletion should; but [postprocess] does not return it: the
    last step reads the last line of an empty list and raises
    [IndexError]. *)
Theorem C9_only_self_assignments_raises (code : string) :
  String.eqb (PyStr.strip code) "" = false ->
  Forall (fun l => Generator.kept (Generator.undot l) = false) (PyStr.splitlines code) ->
  Generator.resolved code = Ok ""
  /\ Generator.postprocess code = Raise IndexError.
Proof.
  intros Hb Hall.
  assert (Hres : Generator.resolved code = Ok "").
  { unfold Generator.resolved.
    destruct (PostTotal.resolve_labels_dropped _ Hall 0 0 "" ∅) as [labels H1].
    rewrite H1. reflexivity. }
  split; [exact Hres|].
  unfold Generator.postprocess. rewrite Hb, Hres. reflexivity.
Qed.

Lemma C9_only_self_assignments_raises_witness :
  Generator.is_self_assignment "set x x" = true
  /\ Generator.resolved "set x x" = Ok ""
  /\ Generator.postprocess "set x x" = Raise IndexError.
Proof.
  split; [reflexivity|].
  apply (C9_only_self_assignments_raises "set x x"); [reflexivity|repeat constructor].
Defined.



(** X15. The first jump to a label that no line of the text defines makes
    [postprocess] raise [Unknown label] with the name of that label:
    where every [set] has its two operands and the jumps before it name
    labels of the text, no other error comes first, and no text is
    returned (a native line is read without its dot). *)
Theorem postprocess_undefined_label (code : string) (pre post : list string) (l : string) :
  map Generator.undot (PyStr.splitlines code) = pre ++ l :: post ->
  Forall (fun ln => Post.set_has_operands ln = true) (pre ++ l :: post) ->
  Forall (fun ln => Post.label_defined (pre ++ l :: post) ln = true) pre ->
  Post.symbolic_jump l = true ->
  ~ In ("<" +:+ Post.jump_label l) (pre ++ l :: post) ->
  Generator.postprocess code = Raise (Generator.unknown_label (Post.jump_label l)).
Proof.
  intros Hlines Hset Hpre Hs Hno.
  assert (Hl : In l (map Generator.undot (PyStr.splitlines code))).
  { rewrite Hlines. apply in_elt. }
  unfold Generator.postprocess.
  destruct (String.eqb (PyStr.strip code) "") eqn:Hb.
  { rewrite (PostSteps.blank_no_jump code l Hb Hl) in Hs. discriminate. }
  unfold Generator.resolved.
  rewrite <- Hlines in Hset.
  destruct (PostTotal.resolve_labels_total (PyStr.splitlines code)
              (proj1 (List.Forall_map _ _ _) Hset) 0 0 "" ∅)
    as (tmp & labels & H1 & Hknown).
  rewrite H1. cbn [mbind result_bind].
  pose proof (PostprocessFacts.resolve_labels_spec _ _ _ _ _ _ _ H1) as ->.
  rewrite StrFacts.app_nil_l, (StrFacts.splitlines_unlines _ (PostSteps.nobreaks_kept code)).
  assert (Hnone : labels !! Post.jump_label l = None).
  { destruct (labels !! Post.jump_label l) as [n|] eqn:E; [|reflexivity].
    destruct (PostSteps.resolve_labels_defined _ _ _ _ _ _ _ (Post.jump_label l) H1)
      as [He|Hin]; [now rewrite E| |].
    - rewrite lookup_empty in He. now destruct He.
    - rewrite Hlines in Hin. contradiction. }
  rewrite Hlines, List.filter_app. cbn [List.filter].
  rewrite (PostSteps.symbolic_jump_kept l Hs).
  assert (Hkpre : Forall (fun x => Post.symbolic_jump x = true
                                   -> is_Some (labels !! Post.jump_label x))
                    (List.filter Generator.kept pre)).
  { apply List.Forall_forall. intros x [Hx _]%filter_In Hsx.
    rewrite List.Forall_forall in Hpre. specialize (Hpre x Hx).
    unfold Post.label_defined in Hpre. rewrite Hsx in Hpre. cbn [negb orb] in Hpre.
    apply existsb_exists in Hpre as (y & Hy & Heq%String.eqb_eq). subst y.
    apply Hknown. right. split; [rewrite Hlines; exact Hy|].
    now apply PostTotal.symbolic_jump_label. }
  rewrite (PostTotal.resolve_jumps_raise labels _ l _ _ Hkpre
             (PostTotal.resolve_jump_unknown labels l Hs Hnone)).
  reflexivity.
Qed.

Lemma postprocess_undefined_label_witness :
  Generator.postprocess (Examples.text ["<a"; "set x 1"; ">a"; ">nowhere x"; "print x"])
  = Raise (Generator.unknown_label (Post.jump_label ">nowhere x")).
Proof.
  apply (postprocess_undefined_label
           (Examples.text ["<a"; "set x 1"; ">a"; ">nowhere x"; "print x"])
           ["<a"; "set x 1"; ">a"] ["print x"] ">nowhere x").
  - reflexivity.
  - repeat (constructor; [reflexivity|]). constructor.
  - repeat (constructor; [vm_compute; reflexivity|]). constructor.
  - reflexivity.
  - vm_compute. intros H. repeat (destruct H as [H|H]; [discriminate H|]). exact H.
Defined.




(** ** [linker.py]: labels *)

Module LabelFacts.
Import PyStr StrFacts Linker.

Section Scan.
Context (exec : Exec).


End Scan.

End LabelFacts.



(** ** [node_rewrite.py]: host exceptions and the scope stack *)

Module GenFacts.

Lemma bind_Ok {A B} (m : Gen A) (k : A -> Gen B) st b st' :
  (m ≫= k) st = Ok (b, st') ->
  exists a st1, m st = Ok (a, st1) /\ k a st1 = Ok (b, st').
Proof.
  unfold mbind, Gen_bind. destruct (m st) as [[a st1]|]; [|discriminate]. eauto.
Qed.

Lemma ret_Ok {A} (a : A) st b st' : (mret a : Gen A) st = Ok (b, st') -> b = a /\ st' = st.
Proof. now intros [= <- <-]. Qed.

End GenFacts.

(** X19. A compound assignment to a numeric variable that is no constant
    emits one [op] with the opcode that [AssignmentNode.OPERATORS] gives
    for the operator, and raises [KeyError] for an operator that is no
    key of the table. The table spells the shifts [<<] and [>>], so the
    operators [<<=] and [>>=] are among those. *)
Theorem AssignmentNode_compound_operator (K : Constants) (var op : string) (e : Node)
    (st st' : State) (T : Type_) (name : string) (code : Instructions) (v : Value) :
  Scopes.lookup var (scopes st) = Some (BVariable T name false) ->
  op <> "=" ->
  Ty.in_ T Ty.NUM = true ->
  get K e st = Ok ((code, v), st') ->
  Ty.in_ (Value_type v) Ty.NUM = true ->
  generate K (AssignmentNode var op e) st
  = match dict_get AssignmentNode_.OPERATORS op with
    | Some opcode =>
        Ok (code ++ [MInstruction OP [OText opcode; OValue (VariableValue T name false);
                                      OValue (VariableValue T name false); OValue v]], st')
    | None => Raise KeyError
    end.
Proof.
  intros Hvar Hop HT Hget Hv. cbn [generate].
  unfold mbind, Gen_bind, Scopes.get. rewrite Hvar. cbn beta iota.
  rewrite Hget. cbn beta iota. cbn [fst snd].
  destruct (String.eqb_spec op "=") as [->|_]; [contradiction|].
  rewrite HT, Hv. cbn [negb]. unfold dict_item.
  destruct (dict_get AssignmentNode_.OPERATORS op); reflexivity.
Qed.

Lemma AssignmentNode_compound_operator_witness :
  generate Examples.no_constants (AssignmentNode "n" "<<=" (NumberValueNode (Int 1)))
    Examples.state
  = Raise KeyError.
Proof.
  apply (AssignmentNode_compound_operator Examples.no_constants "n" "<<="
           (NumberValueNode (Int 1)) Examples.state Examples.state Ty.NUM "n" []
           (NumberValue (Int 1))).
  - reflexivity.
  - discriminate.
  - reflexivity.
  - reflexivity.
  - reflexivity.
Defined.

(** X20. A [return] with a value whose function name is bound to no
    function does not report an undefined function: the error call reads
    [self.name], which a [ReturnNode] does not have, and the node raises
    [AttributeError]. *)
Theorem ReturnNode_unknown_function (K : Constants) (func : string) (e : Node)
    (st st' : State) (code : Instructions) (v : Value) :
  get K e st = Ok ((code, v), st') ->
  (forall f, Scopes.lookup func (scopes st') <> Some (BFunction f)) ->
  generate K (ReturnNode func (Some e)) st = Raise AttributeError.
Proof.
  intros Hget Hno. cbn [generate].
  unfold mbind, Gen_bind, Scopes.get. rewrite Hget. cbn beta iota.
  destruct (Scopes.lookup func (scopes st')) as [[t n c|f]|] eqn:E; try reflexivity.
  now destruct (Hno f).
Qed.

Lemma ReturnNode_unknown_function_witness :
  generate Examples.no_constants (ReturnNode "g" (Some (NumberValueNode (Int 1))))
    Examples.state
  = Raise AttributeError.
Proof.
  apply (ReturnNode_unknown_function Examples.no_constants "g" (NumberValueNode (Int 1))
           Examples.state Examples.state [] (NumberValue (Int 1))).
  - reflexivity.
  - intros f. vm_compute. discriminate.
Defined.

(** X21. A [BinaryOpNode] whose list of right operands is [None] passes
    a numeric left operand through, code and value, and raises
    [TypeError] on any other, where [len(self.right)] is evaluated; with
    an empty list it passes every left operand through. *)
Theorem BinaryOpNode_without_operands (K : Constants) (left_ : Node) (st st' : State)
    (code : Instructions) (v : Value) :
  get K left_ st = Ok ((code, v), st') ->
  get K (BinaryOpNode left_ None) st
  = (if Ty.in_ (Value_type v) Ty.NUM then Ok ((code, v), st') else Raise TypeError)
  /\ get K (BinaryOpNode left_ (Some [])) st = Ok ((code, v), st').
Proof.
  intros Hget. split; cbn [get]; unfold mbind, Gen_bind; rewrite Hget; cbn beta iota;
    cbn [fst snd]; destruct (Ty.in_ (Value_type v) Ty.NUM); reflexivity.
Qed.

Lemma BinaryOpNode_without_operands_witness :
  get Examples.no_constants (BinaryOpNode (StringValueNode "a") None) Examples.state
  = Raise TypeError
  /\ get Examples.no_constants (BinaryOpNode (StringValueNode "a") (Some [])) Examples.state
     = Ok (([], StringValue "a"), Examples.state).
Proof.
  apply (BinaryOpNode_without_operands Examples.no_constants (StringValueNode "a")
           Examples.state Examples.state [] (StringValue "a")).
  reflexivity.
Defined.

(** ** [generator.py]: [_forward_use_optimize] returns *)

Module ForwardTotal.
Import PyStr Re StrFacts ReFacts SplitFacts LineFacts Generator Optimize PassFacts ForwardFacts.

#[local] Arguments String.append : simpl never.

Lemma index_total {A} (l : list A) k :
  0 <= k < Z.of_nat (length l) -> exists j, index l k = Ok j /\ (j < length l)%nat.
Proof.
  intros Hk. unfold index. exists (Z.to_nat k).
  destruct (Z.leb_spec 0 k); [|lia]. destruct (Z.ltb_spec k (Z.of_nat (length l))); [|lia].
  split; [reflexivity|lia].
Qed.

(** With a distance that is not negative one round always returns, and
    it keeps the number of lines. *)
Lemma forward_body_total n i ln st :
  0 <= n -> lns st !! i = Some ln ->
  exists st', forward_body n i ln st = Ok st' /\ length (lns st') = length (lns st).
Proof.
  intros Hn Hln. unfold forward_body.
  destruct (fullmatch TMPS ln) eqn:Ht; [|eexists; split; reflexivity].
  apply TMPS_iff in Ht as (d & v & -> & [_ Hd] & _). rewrite (TMPS_split d v Hd).
  cbn [item lookup list_lookup mbind result_bind].
  destruct (Z.ltb_spec (Z.of_nat i) (Z.of_nat (length (lns st)) - n)) as [Hlt|_];
    [|eexists; split; reflexivity].
  destruct (index_total (lns st) (Z.of_nat i + n)) as (j & -> & Hj); [lia|].
  cbn [mbind result_bind].
  destruct (lookup_lt_is_Some_2 (lns st) j Hj) as [target Htarget].
  rewrite (item_lookup _ _ _ Htarget). cbn [mbind result_bind].
  destruct (fullmatch TMPOP target) eqn:Ho; [|eexists; split; reflexivity].
  apply TMPOP_iff in Ho as (o & a & b & r & -> & [_ Ho] & Ha & Hb & _).
  rewrite (TMPOP_split o a b r Ho Ha Hb).
  cbn [item lookup list_lookup mbind result_bind].
  destruct (String.eqb a ("__tmp" +:+ d)); eexists; (split; [reflexivity|]);
    [cbn [lns]; apply length_insert|reflexivity].
Qed.

Lemma enumerate_total body :
  (forall i ln st, lns st !! i = Some ln ->
     exists st', body i ln st = Ok st' /\ length (lns st') = length (lns st)) ->
  forall rounds i st, (rounds + i <= length (lns st))%nat ->
                      exists st', enumerate body rounds i st = Ok st'.
Proof.
  intros Hbody. induction rounds as [|rounds IH]; intros i st Hlen; [now exists st|].
  rewrite enumerate_S.
  destruct (lookup_lt_is_Some_2 (lns st) i) as [ln Hln]; [lia|].
  rewrite (item_lookup _ _ _ Hln). cbn [mbind result_bind].
  destruct (Hbody i ln st Hln) as (st1 & -> & Hst1). cbn [mbind result_bind].
  apply IH. lia.
Qed.

End ForwardTotal.

(** X9. For a distance [n_lines] that is not negative (the optimizer passes
    1 to 100) [_forward_use_optimize] returns, and what it returns for
    [found] tells whether the text changed: with [False] the text is the
    one given, line by line, and with [True] it has fewer lines than the
    one given. *)
Theorem forward_use_optimize_found (code : string) (n_lines : Z) :
  0 <= n_lines ->
  exists text found,
    Optimize._forward_use_optimize code n_lines = Ok (text, found)
    /\ if found
       then (length (PyStr.splitlines text) < length (PyStr.splitlines code))%nat
       else text = PyStr.unlines (PyStr.splitlines code).
Proof.
  intros Hn.
  destruct (ForwardTotal.enumerate_total (Optimize.forward_body n_lines)
              (fun i ln st => ForwardTotal.forward_body_total n_lines i ln st Hn)
              (length (PyStr.splitlines code)) 0
              {| Optimize.lns := PyStr.splitlines code; Optimize.tmp := "";
                 Optimize.found := false |})
    as [st' E]; [cbn [Optimize.lns]; lia|].
  assert (H : Optimize._forward_use_optimize code n_lines
              = Ok (Optimize.tmp st', Optimize.found st')).
  { unfold Optimize._forward_use_optimize. now rewrite E. }
  exists (Optimize.tmp st'), (Optimize.found st'). split; [exact H|].
  exact (forward_use_optimize_returned code n_lines _ _ H).
Qed.

Lemma forward_use_optimize_found_witness :
  exists text found,
    Optimize._forward_use_optimize
      (PyStr.unlines ["set __tmp1 5"; "op add __tmp1 a b"]) 1 = Ok (text, found)
    /\ if found
       then (length (PyStr.splitlines text)
             < length (PyStr.splitlines (PyStr.unlines ["set __tmp1 5"; "op add __tmp1 a b"])))%nat
       else text = PyStr.unlines
                     (PyStr.splitlines (PyStr.unlines ["set __tmp1 5"; "op add __tmp1 a b"])).
Proof.
  apply (forward_use_optimize_found (PyStr.unlines ["set __tmp1 5"; "op add __tmp1 a b"]) 1).
  lia.
Defined.

(** ** [linker.py]: the line of a label *)

Module LabelTotal.
Import Linker.


End LabelTotal.



(** ** [generator.py]: what [_precalc_optimize] folds *)

Module FoldTotal.
Import PyStr Re StrFacts ReFacts SplitFacts LineFacts Generator Optimize PassFacts FoldFacts.

#[local] Arguments String.append : simpl never.

Lemma digit_or_dot_not_blank c :
  isdigit c || Ascii.eqb c "." = true -> negb (Ascii.eqb c " ") = true.
Proof. destruct c as [[] [] [] [] [] [] [] []]; vm_compute; congruence. Qed.

Lemma NUM_no_blank v :
  fullmatch GEN_REGEXES.NUM v = true -> all (fun c => negb (Ascii.eqb c " ")) v = true.
Proof.
  intros [_ H]%NUM_chars. eapply all_impl; [|exact H]. apply digit_or_dot_not_blank.
Qed.

(** The lines that [MCALC] matches. *)
Lemma MCALC_iff ln :
  fullmatch GEN_REGEXES.MCALC ln = true
  <-> exists o name a b,
        ln = "op " +:+ o +:+ " " +:+ name +:+ " " +:+ a +:+ " " +:+ b
        /\ (o <> "" /\ all isalpha o = true)
        /\ (name <> "" /\ all GEN_REGEXES.operand_char name = true)
        /\ fullmatch GEN_REGEXES.NUM a = true
        /\ fullmatch GEN_REGEXES.NUM b = true.
Proof.
  rewrite fullmatch_matches. unfold GEN_REGEXES.MCALC. cbn [Seqs]. split.
  - intros (s1 & r1 & -> & H1 & H)%matches_Seq_inv.
    apply matches_Seq_inv in H as (o & r2 & -> & Ho & H).
    apply matches_Seq_inv in H as (s3 & r3 & -> & H3 & H).
    apply matches_Seq_inv in H as (name & r4 & -> & Hname & H).
    apply matches_Seq_inv in H as (s5 & r5 & -> & H5 & H).
    apply matches_Seq_inv in H as (a & r6 & -> & Ha & H).
    apply matches_Seq_inv in H as (s7 & b & -> & H7 & Hb).
    apply matches_Lit in H1 as ->. apply matches_Lit in H3 as ->.
    apply matches_Lit in H5 as ->. apply matches_Lit in H7 as ->.
    apply matches_Plus_Cls in Ho. apply matches_Plus_Cls in Hname.
    exists o, name, a, b. split; [reflexivity|].
    split; [exact Ho|]. split; [exact Hname|].
    split; now apply fullmatch_matches.
  - intros (o & name & a & b & -> & Ho & Hname & Ha & Hb).
    apply matches_Seq; [now apply matches_Lit_iff|].
    apply matches_Seq; [now apply matches_Plus_Cls|].
    apply matches_Seq; [now apply matches_Lit_iff|].
    apply matches_Seq; [now apply matches_Plus_Cls|].
    apply matches_Seq; [now apply matches_Lit_iff|].
    apply matches_Seq; [now apply fullmatch_matches|].
    apply matches_Seq; [now apply matches_Lit_iff|now apply fullmatch_matches].
Qed.

Lemma MCALC_split o name a b :
  all isalpha o = true -> all GEN_REGEXES.operand_char name = true ->
  fullmatch GEN_REGEXES.NUM a = true ->
  split_on " " 4 ("op " +:+ o +:+ " " +:+ name +:+ " " +:+ a +:+ " " +:+ b)
  = ["op"; o; name; a; b].
Proof.
  intros Ho Hname Ha.
  change ("op " +:+ o +:+ " " +:+ name +:+ " " +:+ a +:+ " " +:+ b)
    with ("op" +:+ String " " (o +:+ String " " (name +:+ String " " (a +:+ String " " b)))).
  rewrite split_on_piece by reflexivity.
  rewrite split_on_piece by (eapply all_impl; [|exact Ho]; apply isalpha_not_blank).
  rewrite split_on_piece by (eapply all_impl; [|exact Hname]; apply operand_char_not_blank).
  rewrite split_on_piece by now apply NUM_no_blank.
  now rewrite split_on_zero.
Qed.

(** One round raises only on a line that it folds. *)
Lemma precalc_line_Raise m ln e : precalc_line m ln = Raise e -> foldable m ln = true.
Proof.
  unfold precalc_line, foldable.
  destruct (fullmatch GEN_REGEXES.MCALC ln) eqn:Hm; [|discriminate].
  apply MCALC_iff in Hm as (o & name & a & b & -> & [_ Ho] & [_ Hname] & Ha & Hb).
  rewrite (MCALC_split o name a b Ho Hname Ha).
  cbn [item lookup list_lookup mbind result_bind andb]. unfold float_. rewrite Ha, Hb.
  cbn [mbind result_bind].
  destruct (dict_get (PRECALC m) o); [reflexivity|discriminate].
Qed.

Lemma precalc_loop_Raise m lns : forall tmp f e,
  precalc_loop m lns tmp f = Raise e -> Exists (fun ln => foldable m ln = true) lns.
Proof.
  induction lns as [|ln lns IH]; intros tmp f e; [discriminate|].
  cbn [precalc_loop]. destruct (precalc_line m ln) as [r|e'] eqn:Hr.
  - cbn [mbind result_bind]. intros H. right. exact (IH _ _ _ H).
  - intros _. left. exact (precalc_line_Raise _ _ _ Hr).
Qed.

Lemma isalpha_nobreak c : isalpha c = true -> negb (islinebreak c) = true.
Proof. destruct c as [[] [] [] [] [] [] [] []]; vm_compute; congruence. Qed.

Lemma operand_char_nobreak c : GEN_REGEXES.operand_char c = true -> negb (islinebreak c) = true.
Proof. destruct c as [[] [] [] [] [] [] [] []]; vm_compute; congruence. Qed.

Lemma digit_or_dot_nobreak c :
  isdigit c || Ascii.eqb c "." = true -> negb (islinebreak c) = true.
Proof. destruct c as [[] [] [] [] [] [] [] []]; vm_compute; congruence. Qed.

Lemma splitlines_single l : l <> "" -> nobreak l -> splitlines l = [l].
Proof.
  unfold nobreak. induction l as [|c l IH]; [contradiction|]. intros _ H.
  cbn [all] in H. apply andb_prop in H as [Hc Hl]. apply negb_true_iff in Hc.
  rewrite (splitlines_nobreak_cons c l Hc).
  destruct l as [|d l]; [reflexivity|]. rewrite IH; [reflexivity|discriminate|exact Hl].
Qed.

(** A comparison of two literals, one round. *)
Lemma precalc_line_comparison m op cmp name a b :
  In (op, cmp) comparisons ->
  all GEN_REGEXES.operand_char name = true ->
  fullmatch GEN_REGEXES.NUM a = true -> fullmatch GEN_REGEXES.NUM b = true ->
  fullmatch GEN_REGEXES.MCALC ("op " +:+ op +:+ " " +:+ name +:+ " " +:+ a +:+ " " +:+ b) = true ->
  precalc_line m ("op " +:+ op +:+ " " +:+ name +:+ " " +:+ a +:+ " " +:+ b)
  = Ok ("set " +:+ name +:+ " "
        +:+ (if cmp (PyFloat.of_literal a) (PyFloat.of_literal b) then "1" else "0"), true).
Proof.
  intros Hop Hname Ha Hb Hm. unfold precalc_line. rewrite Hm.
  assert (Halpha : all isalpha op = true).
  { cbn in Hop. repeat (destruct Hop as [[= <- _]|Hop]; [reflexivity|]). destruct Hop. }
  rewrite (MCALC_split op name a b Halpha Hname Ha).
  cbn [item lookup list_lookup mbind result_bind]. unfold float_. rewrite Ha, Hb.
  cbn [mbind result_bind].
  assert (Hd : dict_get (PRECALC m) op = Some (fun x y => Ok (PBool (cmp x y)))).
  { cbn in Hop. repeat (destruct Hop as [[= <- <-]|Hop]; [reflexivity|]). destruct Hop. }
  rewrite Hd. cbn [mbind result_bind int_ eq_int].
  destruct (cmp (PyFloat.of_literal a) (PyFloat.of_literal b)); reflexivity.
Qed.

End FoldTotal.

(** X11. [_precalc_optimize] raises only on a text with a line that it folds
    (a line that matches [MCALC] with an opcode of [PRECALC]), and when
    it returns it has kept the number of lines: a line of the result is
    the line of the text at the same place, or a [set] when that line
    matches [MCALC]; [found] is [False] exactly when the result is the
    text given, line by line. *)
Theorem precalc_optimize_lines (m : Libm) (code : string) :
  match Generator._precalc_optimize m code with
  | Ok (text, found) =>
      Forall2 (fun l l' => l' = l \/ (Re.fullmatch Generator.GEN_REGEXES.MCALC l = true
                                      /\ PyStr.startswith "set " l' = true))
        (PyStr.splitlines code) (PyStr.splitlines text)
      /\ (found = false <-> text = PyStr.unlines (PyStr.splitlines code))
  | Raise e => Exists (fun ln => Optimize.foldable m ln = true) (PyStr.splitlines code)
  end.
Proof.
  destruct (Generator._precalc_optimize m code) as [[text found]|e] eqn:H.
  - exact (precalc_optimize_returned m code text found H).
  - exact (FoldTotal.precalc_loop_Raise m _ _ _ _ H).
Qed.

(** X13. A comparison of two literals always folds, and to [1] or [0], not to
    [True] or [False]: the result of the comparison equals its [int], so
    the [int] is what is written. *)
Theorem precalc_comparison_folds (m : Libm) (op name a b : string)
    (cmp : PyFloat.float -> PyFloat.float -> bool) :
  In (op, cmp) Optimize.comparisons ->
  name <> "" -> PyStr.all Generator.GEN_REGEXES.operand_char name = true ->
  Re.fullmatch Generator.GEN_REGEXES.NUM a = true ->
  Re.fullmatch Generator.GEN_REGEXES.NUM b = true ->
  Generator._precalc_optimize m ("op " +:+ op +:+ " " +:+ name +:+ " " +:+ a +:+ " " +:+ b)
  = Ok ("set " +:+ name +:+ " "
        +:+ (if cmp (PyFloat.of_literal a) (PyFloat.of_literal b) then "1" else "0")
        +:+ PyStr.nl, true).
Proof.
  intros Hop Hne Hname Ha Hb.
  assert (Halpha : op <> "" /\ PyStr.all PyStr.isalpha op = true).
  { cbn in Hop. repeat (destruct Hop as [[= <- _]|Hop]; [split; [discriminate|reflexivity]|]).
    destruct Hop. }
  assert (Hm : Re.fullmatch Generator.GEN_REGEXES.MCALC
                 ("op " +:+ op +:+ " " +:+ name +:+ " " +:+ a +:+ " " +:+ b) = true).
  { apply FoldTotal.MCALC_iff. exists op, name, a, b. auto. }
  assert (Hnb : Optimize.nobreak ("op " +:+ op +:+ " " +:+ name +:+ " " +:+ a +:+ " " +:+ b)).
  { unfold Optimize.nobreak. rewrite !StrFacts.all_app.
    rewrite (StrFacts.all_impl _ _ _ FoldTotal.isalpha_nobreak (proj2 Halpha)).
    rewrite (StrFacts.all_impl _ _ _ FoldTotal.operand_char_nobreak Hname).
    rewrite (StrFacts.all_impl _ _ _ FoldTotal.digit_or_dot_nobreak
               (proj2 (PassFacts.NUM_chars a Ha))).
    rewrite (StrFacts.all_impl _ _ _ FoldTotal.digit_or_dot_nobreak
               (proj2 (PassFacts.NUM_chars b Hb))).
    reflexivity. }
  unfold Generator._precalc_optimize.
  rewrite FoldTotal.splitlines_single; [|discriminate|exact Hnb].
  cbn [Generator.precalc_loop].
  rewrite (FoldTotal.precalc_line_comparison m op cmp name a b Hop Hname Ha Hb Hm).
  cbn [mbind result_bind fst snd orb].
  now rewrite StrFacts.app_nil_l, !StrFacts.app_assoc.
Qed.

Lemma precalc_comparison_folds_witness :
  Generator._precalc_optimize Examples.libm ("op " +:+ "lessThan" +:+ " " +:+ "t" +:+ " "
                                             +:+ "2.5" +:+ " " +:+ "10")
  = Ok ("set " +:+ "t" +:+ " "
        +:+ (if PyFloat.ltb (PyFloat.of_literal "2.5") (PyFloat.of_literal "10")
             then "1" else "0")
        +:+ PyStr.nl, true).
Proof.
  apply (precalc_comparison_folds Examples.libm "lessThan" "t" "2.5" "10" PyFloat.ltb);
    [now left|discriminate|reflexivity|reflexivity|reflexivity].
Defined.
